(** * The _quickjs extension module (module.c): value marshaling and
    lifetime bridging between the Python host and the QuickJS engine.

    The C functions of module.c are embedded as computations in a small
    state-and-fault monad over a [World]: the engine state, the host heap
    of [ContextData] instances with their Python reference counts, and the
    trace of engine API calls made so far. *)

From Stdlib Require Import ZArith String Ascii List Lia DecimalString.
From stdpp Require Import base option list gmap strings.

Local Open Scope Z_scope.

(** ** C integers *)

(** Conversion of an integer to a signed [bits]-wide C integer (the
    wrap-around of the usual two's complement targets). *)
Definition wrap (bits : Z) (z : Z) : Z :=
  (z + 2 ^ (bits - 1)) mod 2 ^ bits - 2 ^ (bits - 1).

Definition int32 (z : Z) : Z := wrap 32 z.

Definition INT32_MIN : Z := - 2 ^ 31.
Definition INT32_MAX : Z := 2 ^ 31 - 1.
(** [long] of the LP64 targets the extension is built for. *)
Definition LONG_MIN : Z := - 2 ^ 63.
Definition LONG_MAX : Z := 2 ^ 63 - 1.

(** A C [double], carried as its IEEE-754 binary64 bit pattern: the module
    only moves doubles around, it never computes with them. *)
Definition double : Type := Z.

(** ** C strings *)

(** What a [const char *] reader sees of a buffer: the bytes before the
    first NUL. *)
Fixpoint c_str (s : string) : string :=
  match s with
  | EmptyString => EmptyString
  | String c r => if Ascii.eqb c Ascii.zero then EmptyString else String c (c_str r)
  end.

Fixpoint has_nul (s : string) : bool :=
  match s with
  | EmptyString => false
  | String c r => Ascii.eqb c Ascii.zero || has_nul r
  end.

(** The [%d] conversion of printf-style formats. *)
Definition fmt_d (z : Z) : string := NilZero.string_of_int (Z.to_int z).

(** ** UTF-8

    Whether a byte string is well-formed UTF-8, as a strict decoder sees
    it: the shortest form of each code point, no surrogate (U+D800 to
    U+DFFF), nothing above U+10FFFF. *)
Definition in_range (lo hi : nat) (b : ascii) : bool :=
  (lo <=? nat_of_ascii b)%nat && (nat_of_ascii b <=? hi)%nat.

(** The first two bytes of a sequence of three, and of a sequence of
    four. *)
Definition lead3 (b0 b1 : ascii) : bool :=
  (in_range 224 224 b0 && in_range 160 191 b1)
  || (in_range 225 236 b0 && in_range 128 191 b1)
  || (in_range 237 237 b0 && in_range 128 159 b1)
  || (in_range 238 239 b0 && in_range 128 191 b1).

Definition lead4 (b0 b1 : ascii) : bool :=
  (in_range 240 240 b0 && in_range 144 191 b1)
  || (in_range 241 243 b0 && in_range 128 191 b1)
  || (in_range 244 244 b0 && in_range 128 143 b1).

Fixpoint utf8_valid (s : string) : bool :=
  match s with
  | EmptyString => true
  | String b0 r0 =>
      if in_range 0 127 b0 then utf8_valid r0
      else
        match r0 with
        | EmptyString => false
        | String b1 r1 =>
            if in_range 194 223 b0 then in_range 128 191 b1 && utf8_valid r1
            else
              match r1 with
              | EmptyString => false
              | String b2 r2 =>
                  if lead3 b0 b1 then in_range 128 191 b2 && utf8_valid r2
                  else
                    match r2 with
                    | EmptyString => false
                    | String b3 r3 =>
                        lead4 b0 b1 && in_range 128 191 b2 && in_range 128 191 b3
                        && utf8_valid r3
                    end
              end
        end
  end.

(** U+FFFD, the replacement character, in UTF-8. *)
Definition U_FFFD : string :=
  String (ascii_of_nat 239) (String (ascii_of_nat 191) (String (ascii_of_nat 189) EmptyString)).

(** What a decoder that replaces instead of failing makes of a byte
    string, encoded again: well-formed sequences are kept, and each longest
    run of bytes that begins a sequence but does not complete it, like each
    byte that begins none, becomes one U+FFFD. *)
Fixpoint utf8_replace (s : string) : string :=
  match s with
  | EmptyString => EmptyString
  | String b0 r0 =>
      if in_range 0 127 b0 then String b0 (utf8_replace r0)
      else if in_range 194 223 b0 then
        match r0 with
        | EmptyString => U_FFFD
        | String b1 r1 =>
            if in_range 128 191 b1 then String b0 (String b1 (utf8_replace r1))
            else U_FFFD +:+ utf8_replace r0
        end
      else if in_range 224 239 b0 then
        match r0 with
        | EmptyString => U_FFFD
        | String b1 r1 =>
            if lead3 b0 b1 then
              match r1 with
              | EmptyString => U_FFFD
              | String b2 r2 =>
                  if in_range 128 191 b2
                  then String b0 (String b1 (String b2 (utf8_replace r2)))
                  else U_FFFD +:+ utf8_replace r1
              end
            else U_FFFD +:+ utf8_replace r0
        end
      else if in_range 240 244 b0 then
        match r0 with
        | EmptyString => U_FFFD
        | String b1 r1 =>
            if lead4 b0 b1 then
              match r1 with
              | EmptyString => U_FFFD
              | String b2 r2 =>
                  if in_range 128 191 b2 then
                    match r2 with
                    | EmptyString => U_FFFD
                    | String b3 r3 =>
                        if in_range 128 191 b3
                        then String b0 (String b1 (String b2 (String b3 (utf8_replace r3))))
                        else U_FFFD +:+ utf8_replace r2
                    end
                  else U_FFFD +:+ utf8_replace r1
              end
            else U_FFFD +:+ utf8_replace r0
        end
      else U_FFFD +:+ utf8_replace r0
  end.

Definition hex_digit (n : nat) : ascii :=
  default "0"%char (String.get n "0123456789abcdef").

(** The [%02x] conversion of a byte. *)
Definition fmt_02x (b : ascii) : string :=
  String (hex_digit (nat_of_ascii b / 16))
         (String (hex_digit (nat_of_ascii b mod 16)) EmptyString).

(** The text of a UnicodeDecodeError of the codec utf-8 for the bytes from
    the position [start] up to, not including, [stop], the first of which
    is [b]. *)
Definition decode_error (b : ascii) (start stop : nat) (reason : string) : string :=
  if (stop =? S start)%nat then
    "'utf-8' codec can't decode byte 0x" +:+ fmt_02x b +:+ " in position "
    +:+ fmt_d (Z.of_nat start) +:+ ": " +:+ reason
  else
    "'utf-8' codec can't decode bytes in position " +:+ fmt_d (Z.of_nat start) +:+ "-"
    +:+ fmt_d (Z.of_nat (stop - 1)) +:+ ": " +:+ reason.

(** What a strict decoder reports for the bytes [s], which start at the
    position [pos] of its input: nothing when they are well-formed, else
    its error for the first ill-formed sequence. *)
Fixpoint utf8_error (pos : nat) (s : string) : option string :=
  match s with
  | EmptyString => None
  | String b0 r0 =>
      if in_range 0 127 b0 then utf8_error (S pos) r0
      else if in_range 194 223 b0 then
        match r0 with
        | EmptyString => Some (decode_error b0 pos (pos + 1) "unexpected end of data")
        | String b1 r1 =>
            if in_range 128 191 b1 then utf8_error (pos + 2) r1
            else Some (decode_error b0 pos (pos + 1) "invalid continuation byte")
        end
      else if in_range 224 239 b0 then
        match r0 with
        | EmptyString => Some (decode_error b0 pos (pos + 1) "unexpected end of data")
        | String b1 r1 =>
            if lead3 b0 b1 then
              match r1 with
              | EmptyString => Some (decode_error b0 pos (pos + 2) "unexpected end of data")
              | String b2 r2 =>
                  if in_range 128 191 b2 then utf8_error (pos + 3) r2
                  else Some (decode_error b0 pos (pos + 2) "invalid continuation byte")
              end
            else Some (decode_error b0 pos (pos + 1) "invalid continuation byte")
        end
      else if in_range 240 244 b0 then
        match r0 with
        | EmptyString => Some (decode_error b0 pos (pos + 1) "unexpected end of data")
        | String b1 r1 =>
            if lead4 b0 b1 then
              match r1 with
              | EmptyString => Some (decode_error b0 pos (pos + 2) "unexpected end of data")
              | String b2 r2 =>
                  if in_range 128 191 b2 then
                    match r2 with
                    | EmptyString =>
                        Some (decode_error b0 pos (pos + 3) "unexpected end of data")
                    | String b3 r3 =>
                        if in_range 128 191 b3 then utf8_error (pos + 4) r3
                        else Some (decode_error b0 pos (pos + 3) "invalid continuation byte")
                    end
                  else Some (decode_error b0 pos (pos + 2) "invalid continuation byte")
              end
            else Some (decode_error b0 pos (pos + 1) "invalid continuation byte")
        end
      else Some (decode_error b0 pos (pos + 1) "invalid start byte")
  end.

(** ** quickjs.h: values

    third-party/quickjs.h is not among the sources; its value type and the
    macros module.c uses are modelled here. *)

(** Modelled from the spec: the tag of an engine value.  These are the tags
    module.c tests for, and [JS_TAG_OTHER] stands for every other tag of the
    engine (symbols, big numbers, ...), carrying its number. *)
Inductive JSTag : Type :=
  | JS_TAG_INT
  | JS_TAG_BOOL
  | JS_TAG_NULL
  | JS_TAG_UNDEFINED
  | JS_TAG_EXCEPTION
  | JS_TAG_FLOAT64
  | JS_TAG_STRING
  | JS_TAG_OBJECT
  | JS_TAG_OTHER (t : Z).

(** Modelled from the spec: a value is a tag with a payload; the payload is
    a 32-bit integer (integers, booleans, the constants), a double, or a
    pointer to a reference-counted cell. *)
Inductive JSValueUnion : Type :=
  | U_int32 (i : Z)
  | U_float64 (d : double)
  | U_ptr (p : nat).

Record JSValue : Type := mkJSValue { u : JSValueUnion; tag : JSTag }.

Global Instance JSTag_eq_dec : EqDecision JSTag.
Proof. solve_decision. Defined.
Global Instance JSValueUnion_eq_dec : EqDecision JSValueUnion.
Proof. solve_decision. Defined.
Global Instance JSValue_eq_dec : EqDecision JSValue.
Proof. solve_decision. Defined.

(** Modelled from the spec: [JS_MKVAL (tag, val)] stores [val] in the 32-bit
    integer member. *)
Definition JS_MKVAL (t : JSTag) (val : Z) : JSValue :=
  {| u := U_int32 (int32 val); tag := t |}.
Definition JS_MKPTR (t : JSTag) (p : nat) : JSValue :=
  {| u := U_ptr p; tag := t |}.

Definition JS_NULL : JSValue := JS_MKVAL JS_TAG_NULL 0.
Definition JS_UNDEFINED : JSValue := JS_MKVAL JS_TAG_UNDEFINED 0.
Definition JS_EXCEPTION : JSValue := JS_MKVAL JS_TAG_EXCEPTION 0.

Definition JS_VALUE_GET_TAG (v : JSValue) : JSTag := tag v.

(** Modelled from the spec: the accessors.  Reading a member of the union
    other than the one stored reads the same bytes; module.c only ever reads
    the member that matches the tag it has tested. *)
Definition JS_VALUE_GET_INT (v : JSValue) : Z :=
  match u v with
  | U_int32 i => i
  | U_float64 d => int32 d
  | U_ptr p => int32 (Z.of_nat p)
  end.
Definition JS_VALUE_GET_BOOL (v : JSValue) : Z := JS_VALUE_GET_INT v.
Definition JS_VALUE_GET_FLOAT64 (v : JSValue) : double :=
  match u v with
  | U_float64 d => d
  | U_int32 i => i
  | U_ptr p => Z.of_nat p
  end.
Definition JS_VALUE_GET_PTR (v : JSValue) : option nat :=
  match u v with
  | U_ptr p => Some p
  | _ => None
  end.

(** Modelled from the spec: the engine counts references on its
    reference-type values; in quickjs.h these are the values with a negative
    tag, of which module.c names strings and objects. *)
Definition JS_VALUE_HAS_REF_COUNT (v : JSValue) : bool :=
  match tag v with
  | JS_TAG_STRING | JS_TAG_OBJECT => true
  | JS_TAG_OTHER t => t <? 0
  | _ => false
  end.

(** ** The engine

    Modelled from the spec: the engine is an external collaborator
    (third-party/quickjs.h is not part of module.c).  Its heap of
    reference-counted values and the pending-exception slot of each context
    are explicit; what running script code does is left to the parameters of
    section [Bridge]. *)

Inductive JSPayload : Type :=
  | JSStringData (s : string)   (* the UTF-8 text of a string *)
  | JSObjectData.               (* an object or function: opaque here *)

Record JSCell : Type := mkJSCell { ref_count : nat; payload : JSPayload }.

(** Modelled from the spec: one more reference to the cell at [p]. *)
Definition retain (p : nat) (h : gmap nat JSCell) : gmap nat JSCell :=
  match h !! p with
  | Some c => <[p := mkJSCell (S (ref_count c)) (payload c)]> h
  | None => h
  end.

(** Modelled from the spec: one reference less; the cell is freed with its
    last reference. *)
Definition release (p : nat) (h : gmap nat JSCell) : gmap nat JSCell :=
  match h !! p with
  | Some c =>
      if (ref_count c <=? 1)%nat then delete p h
      else <[p := mkJSCell (ref_count c - 1)%nat (payload c)]> h
  | None => h
  end.

(** Modelled from the spec: the state of the engine. *)
Record Engine (Script : Type) : Type := mkEngine {
  js_heap : gmap nat JSCell;        (* the reference-counted values, by address *)
  js_runtimes : gset nat;           (* the live runtimes *)
  js_exception : gmap nat JSValue;  (* live contexts, each with its pending-exception
                                       slot; JS_NULL when the slot is clear *)
  js_script : Script                (* the interpreter's own state *)
}.
Arguments mkEngine {Script}.
Arguments js_heap {Script}.
Arguments js_runtimes {Script}.
Arguments js_exception {Script}.
Arguments js_script {Script}.

(** The calls of the engine API, as module.c makes them.  [JS_MKVAL] and the
    [JS_VALUE_GET_*] accessors are macros and make no call. *)
Inductive Event : Type :=
  | EvNewRuntime
  | EvNewContext (rt : nat)
  | EvFreeContext (ctx : nat)
  | EvFreeRuntime (rt : nat)
  | EvSetMemoryLimit (rt : nat) (limit : Z)
  | EvEval (ctx : nat) (code : string)
  | EvGetGlobalObject (ctx : nat)
  | EvGetPropertyStr (ctx : nat) (this_obj : JSValue) (prop : string)
  | EvCall (ctx : nat) (func_obj this_obj : JSValue) (argv : list JSValue)
  | EvNewFloat64 (ctx : nat) (d : double)
  | EvNewString (ctx : nat) (str : string)
  | EvDupValue (ctx : nat) (v : JSValue)
  | EvFreeValue (ctx : nat) (v : JSValue)
  | EvGetException (ctx : nat)
  | EvToString (ctx : nat) (v : JSValue)
  | EvToCString (ctx : nat) (v : JSValue)
  | EvFreeCString (ctx : nat) (cstring : string).

Global Instance Event_eq_dec : EqDecision Event.
Proof. solve_decision. Defined.

(** ** The host *)

(** The data of the type _quickjs.Context, with the reference count of its
    [PyObject_HEAD]. *)
Record ContextData : Type := mkContextData {
  ob_refcnt : nat;
  runtime : nat;     (* JSRuntime * *)
  context : nat      (* JSContext * *)
}.

(** The data of the type _quickjs.Object.  [context_obj] is its field
    [context], a [ContextData *]: [None] is NULL. *)
Record ObjectData : Type := mkObjectData {
  context_obj : option nat;
  object : JSValue
}.

Global Instance ObjectData_eq_dec : EqDecision ObjectData.
Proof. solve_decision. Defined.

(** Python objects, by the type checks module.c applies to them.

    A str is carried by its UTF-8 encoding, so the strs of the model are
    those that have one: a str with a lone surrogate has none and is not
    among them.  The instances of other types are those that do not pose
    as an Object (see [PyObject_IsInstance_Object]). *)
Inductive PyObject : Type :=
  | Py_Bool (b : bool)             (* Py_True, Py_False *)
  | Py_Long (n : Z)                (* int *)
  | Py_Float (d : double)          (* float *)
  | Py_None
  | Py_Unicode (s : string)        (* str, by its UTF-8 encoding *)
  | Py_Object (o : ObjectData)     (* an instance of _quickjs.Object *)
  | Py_Other (tp_name : string).   (* an instance of any other type, by its name *)

Definition Py_True : PyObject := Py_Bool true.
Definition Py_False : PyObject := Py_Bool false.

Global Instance PyObject_eq_dec : EqDecision PyObject.
Proof. solve_decision. Defined.

Inductive PyExcType : Type :=
  | JSException          (* _quickjs.JSException, created by PyInit__quickjs *)
  | PyExc_ValueError
  | PyExc_TypeError
  | PyExc_UnicodeDecodeError
  | PyExc_Other (name : string).

Global Instance PyExcType_eq_dec : EqDecision PyExcType.
Proof. solve_decision. Defined.

(** What a function of the module hands back to the interpreter: an object,
    or NULL with the error indicator set.  The message, a str, is carried
    by its UTF-8 encoding. *)
Inductive PyResult : Type :=
  | PyOk (o : PyObject)
  | PyRaise (exc : PyExcType) (msg : string).

Global Instance PyResult_eq_dec : EqDecision PyResult.
Proof. solve_decision. Defined.

(** bool is a subclass of int: [PyLong_Check] accepts both. *)
Definition PyBool_Check (item : PyObject) : bool :=
  match item with Py_Bool _ => true | _ => false end.
Definition PyLong_Check (item : PyObject) : bool :=
  match item with Py_Bool _ | Py_Long _ => true | _ => false end.
Definition PyFloat_Check (item : PyObject) : bool :=
  match item with Py_Float _ => true | _ => false end.
Definition is_Py_None (item : PyObject) : bool :=
  match item with Py_None => true | _ => false end.
Definition PyUnicode_Check (item : PyObject) : bool :=
  match item with Py_Unicode _ => true | _ => false end.
(** [PyObject_IsInstance (item, &Object)], for the objects of the model: it
    holds of the instances of the type Object.  (The C test is on the
    integer the function returns: it also lets through an object of another
    type whose [__class__] answers Object, and one for which the function
    fails and returns -1.  Such objects are not among [PyObject].) *)
Definition PyObject_IsInstance_Object (item : PyObject) : bool :=
  match item with Py_Object _ => true | _ => false end.

Definition Py_TYPE_tp_name (item : PyObject) : string :=
  match item with
  | Py_Bool _ => "bool"
  | Py_Long _ => "int"
  | Py_Float _ => "float"
  | Py_None => "NoneType"
  | Py_Unicode _ => "str"
  | Py_Object _ => "_quickjs.Object"
  | Py_Other name => name
  end.

(** [PyLong_AsLong], by the value it returns: the integer when it fits a C
    long, else -1.  In the second case it also leaves an OverflowError
    pending.  module.c never looks at it and the model does not carry it:
    for such an integer the model follows the C code as far as the values
    and the engine calls go, and what CPython makes of a result that comes
    with an error pending (a SystemError) is outside it.  Statements about
    the value a program gets back are made for integers that fit a long. *)
Definition PyLong_AsLong (item : PyObject) : Z :=
  match item with
  | Py_Bool b => if b then 1 else 0
  | Py_Long n => if (LONG_MIN <=? n) && (n <=? LONG_MAX) then n else -1
  | _ => -1
  end.

(** [PyFloat_AsDouble]; module.c calls it on floats only. *)
Definition PyFloat_AsDouble (item : PyObject) : double :=
  match item with
  | Py_Float d => d
  | _ => 0
  end.

(** [PyUnicode_AsUTF8]: the buffer, read by its callers as a C string.  (It
    returns NULL for a str that has no UTF-8 encoding; see [PyObject].) *)
Definition PyUnicode_AsUTF8 (item : PyObject) : string :=
  match item with
  | Py_Unicode s => c_str s
  | _ => EmptyString
  end.

(** The outcome of [PyArg_ParseTuple]. *)
Inductive Parsed (A : Type) : Type :=
  | ParseOk (a : A)
  | ParseError (exc : PyExcType) (msg : string).
Arguments ParseOk {A}.
Arguments ParseError {A}.

Record World (Script : Type) : Type := mkWorld {
  engine : Engine Script;
  contexts : gmap nat ContextData;   (* the live _quickjs.Context instances, by address *)
  trace : list Event                 (* the engine API calls made so far, oldest first *)
}.
Arguments mkWorld {Script}.
Arguments engine {Script}.
Arguments contexts {Script}.
Arguments trace {Script}.

(** ** A small interpreter

    One engine to run the module on concrete inputs: evaluating
    "throw 7" raises the integer 7, evaluating "({})" makes an object, any
    other source text is undefined; a call gives back its first argument,
    and raises when it has none; every value converts to the string
    "seven". *)

Definition demo_eval (e : Engine unit) (ctx : nat) (code : string) : JSValue * Engine unit :=
  if String.eqb code "throw 7" then
    (JS_EXCEPTION,
     mkEngine (js_heap e) (js_runtimes e) (<[ctx := JS_MKVAL JS_TAG_INT 7]> (js_exception e)) tt)
  else if String.eqb code "({})" then
    let p := fresh (dom (js_heap e)) in
    (JS_MKPTR JS_TAG_OBJECT p,
     mkEngine (<[p := mkJSCell 1 JSObjectData]> (js_heap e)) (js_runtimes e) (js_exception e) tt)
  else (JS_UNDEFINED, e).

Definition demo_call (e : Engine unit) (ctx : nat) (func_obj this_obj : JSValue)
    (argv : list JSValue) : JSValue * Engine unit :=
  match argv with
  | v :: _ => (v, e)
  | [] =>
      (JS_EXCEPTION,
       mkEngine (js_heap e) (js_runtimes e) (<[ctx := JS_MKVAL JS_TAG_INT 7]> (js_exception e)) tt)
  end.

Definition demo_global (e : Engine unit) (ctx : nat) : JSValue * Engine unit :=
  (JS_UNDEFINED, e).

Definition demo_get_property (e : Engine unit) (ctx : nat) (this_obj : JSValue)
    (prop : string) : JSValue * Engine unit :=
  if String.eqb prop "boom" then
    (JS_EXCEPTION,
     mkEngine (js_heap e) (js_runtimes e) (<[ctx := JS_MKVAL JS_TAG_INT 7]> (js_exception e)) tt)
  else (JS_UNDEFINED, e).

Definition demo_to_string (e : Engine unit) (ctx : nat) (v : JSValue) : string := "seven".

(** Another string conversion: every value converts to the three
    characters "a", NUL, "b". *)
Definition demo_to_string_nul (e : Engine unit) (ctx : nat) (v : JSValue) : string :=
  String "a" (String Ascii.zero (String "b" EmptyString)).

(** And one more: every value converts to the three bytes ED A0 80, which
    is how a lone surrogate of a script string reads as a C string. *)
Definition lone_surrogate : string :=
  String (ascii_of_nat 237) (String (ascii_of_nat 160) (String (ascii_of_nat 128) EmptyString)).
Definition demo_to_string_surrogate (e : Engine unit) (ctx : nat) (v : JSValue) : string :=
  lone_surrogate.

Definition demo_parse_s (args : list PyObject) : Parsed string :=
  match args with
  | [Py_Unicode s] => ParseOk s
  | _ => ParseError PyExc_TypeError "a string is required"
  end.

Definition demo_parse_n (args : list PyObject) : Parsed Z :=
  match args with
  | [Py_Long n] => ParseOk n
  | _ => ParseError PyExc_TypeError "an integer is required"
  end.

(** The world after [_quickjs.Context()] in an empty one: one Context at
    address 0, with one reference. *)
Definition demo_world : World unit :=
  mkWorld (mkEngine ∅ {[0%nat]} {[0%nat := JS_NULL]} tt)
          {[0%nat := mkContextData 1 0 0]}
          [EvNewRuntime; EvNewContext 0].

(** A handle of that Context, and a handle with none. *)
Definition demo_handle : ObjectData :=
  {| context_obj := Some 0%nat; object := JS_MKPTR JS_TAG_OBJECT 0 |}.
Definition inert_handle : ObjectData :=
  {| context_obj := None; object := JS_MKVAL JS_TAG_INT 0 |}.

(** ** Computations

    A computation runs in a world and either faults (undefined behaviour of
    the C code: a NULL or dangling pointer is dereferenced, uninitialised
    memory is read) or ends with a value in a new world. *)

Definition M (Script A : Type) : Type := World Script -> option (A * World Script).

Definition ret {Script A} (a : A) : M Script A := fun w => Some (a, w).

Definition bind {Script A B} (m : M Script A) (k : A -> M Script B) : M Script B :=
  fun w => match m w with
           | Some (a, w') => k a w'
           | None => None
           end.

Definition fault {Script A} : M Script A := fun _ => None.

Notation "x <- m ;; k" := (bind m (fun x => k))
  (at level 100, m at next level, right associativity).
Notation "m ;; k" := (bind m (fun _ => k))
  (at level 100, right associativity).

(** A loop over a list, in order, collecting the results. *)
Fixpoint for_each {Script A B} (f : A -> M Script B) (l : list A) : M Script (list B) :=
  match l with
  | [] => ret []
  | x :: l' => y <- f x ;; ys <- for_each f l' ;; ret (y :: ys)
  end.

Section Bridge.

Context {Script : Type}.

(** What the interpreter does, left open: evaluation of source text, calls,
    property reads and the text of a value's string conversion. *)
Variable script_eval : Engine Script -> nat -> string -> JSValue * Engine Script.
Variable script_call :
  Engine Script -> nat -> JSValue -> JSValue -> list JSValue -> JSValue * Engine Script.
Variable script_global : Engine Script -> nat -> JSValue * Engine Script.
Variable script_get_property :
  Engine Script -> nat -> JSValue -> string -> JSValue * Engine Script.
Variable script_to_string : Engine Script -> nat -> JSValue -> string.

(** [PyArg_ParseTuple] of CPython, for the formats "s" and "n". *)
Variable PyArg_ParseTuple_s : list PyObject -> Parsed string.
Variable PyArg_ParseTuple_n : list PyObject -> Parsed Z.

Abbreviation World := (World Script).
Abbreviation Engine := (Engine Script).
Abbreviation M := (M Script).

(** *** Primitive steps *)

(** A call of the engine API: it is recorded in the trace and acts on the
    engine, never on the host's objects. *)
Definition api {A} (ev : Event) (f : Engine -> A * Engine) : M A :=
  fun w => let r := f (engine w) in
           Some (fst r, mkWorld (snd r) (contexts w) (trace w ++ [ev])).

(** [p->field] for a [ContextData *p]. *)
Definition deref (p : nat) : M ContextData :=
  fun w => match contexts w !! p with
           | Some cd => Some (cd, w)
           | None => None
           end.

Definition store (p : nat) (cd : ContextData) : M unit :=
  fun w => Some (tt, mkWorld (engine w) (<[p := cd]> (contexts w)) (trace w)).

(** [tp_free] of a [ContextData]. *)
Definition tp_free_context (p : nat) : M unit :=
  fun w => Some (tt, mkWorld (engine w) (delete p (contexts w)) (trace w)).

(** *** The engine API

    Modelled from the spec, as the values are: each function of quickjs.h
    that module.c calls, first as a function on the engine, then as a
    recorded step. *)

Definition set_heap (h : gmap nat JSCell) (e : Engine) : Engine :=
  mkEngine h (js_runtimes e) (js_exception e) (js_script e).

Definition js_new_runtime (e : Engine) : nat * Engine :=
  let rt := fresh (js_runtimes e) in
  (rt, mkEngine (js_heap e) ({[rt]} ∪ js_runtimes e) (js_exception e) (js_script e)).

Definition js_new_context (e : Engine) : nat * Engine :=
  let ctx := fresh (dom (js_exception e)) in
  (ctx, mkEngine (js_heap e) (js_runtimes e) (<[ctx := JS_NULL]> (js_exception e))
                 (js_script e)).

Definition js_free_context (ctx : nat) (e : Engine) : unit * Engine :=
  (tt, mkEngine (js_heap e) (js_runtimes e) (delete ctx (js_exception e)) (js_script e)).

Definition js_free_runtime (rt : nat) (e : Engine) : unit * Engine :=
  (tt, mkEngine (js_heap e) (js_runtimes e ∖ {[rt]}) (js_exception e) (js_script e)).

(** Modelled from the spec: a new string value holding [text], with one
    reference. *)
Definition js_new_string (text : string) (e : Engine) : JSValue * Engine :=
  let p := fresh (dom (js_heap e)) in
  (JS_MKPTR JS_TAG_STRING p, set_heap (<[p := mkJSCell 1 (JSStringData text)]> (js_heap e)) e).

Definition js_dup_value (v : JSValue) (e : Engine) : JSValue * Engine :=
  (v, if JS_VALUE_HAS_REF_COUNT v then
        match JS_VALUE_GET_PTR v with
        | Some p => set_heap (retain p (js_heap e)) e
        | None => e
        end
      else e).

Definition js_free_value (v : JSValue) (e : Engine) : unit * Engine :=
  (tt, if JS_VALUE_HAS_REF_COUNT v then
         match JS_VALUE_GET_PTR v with
         | Some p => set_heap (release p (js_heap e)) e
         | None => e
         end
       else e).

(** Modelled from the spec: the pending exception is fetched and the slot
    cleared. *)
Definition js_get_exception (ctx : nat) (e : Engine) : JSValue * Engine :=
  (default JS_NULL (js_exception e !! ctx),
   mkEngine (js_heap e) (js_runtimes e)
            (alter (fun _ => JS_NULL) ctx (js_exception e)) (js_script e)).

(** Modelled from the spec: the text of a value, which is what a string
    holds, and what the interpreter's string conversion gives for any other
    value. *)
Definition value_text (e : Engine) (ctx : nat) (v : JSValue) : string :=
  match tag v, JS_VALUE_GET_PTR v with
  | JS_TAG_STRING, Some p =>
      match js_heap e !! p with
      | Some (mkJSCell _ (JSStringData s)) => s
      | _ => script_to_string e ctx v
      end
  | _, _ => script_to_string e ctx v
  end.

Definition JS_NewRuntime : M nat := api EvNewRuntime js_new_runtime.

Definition JS_NewContext (rt : nat) : M nat := api (EvNewContext rt) js_new_context.

Definition JS_FreeContext (ctx : nat) : M unit := api (EvFreeContext ctx) (js_free_context ctx).

Definition JS_FreeRuntime (rt : nat) : M unit := api (EvFreeRuntime rt) (js_free_runtime rt).

Definition JS_SetMemoryLimit (rt : nat) (limit : Z) : M unit :=
  api (EvSetMemoryLimit rt limit) (fun e => (tt, e)).

Definition JS_Eval (ctx : nat) (code : string) : M JSValue :=
  api (EvEval ctx code) (fun e => script_eval e ctx code).

Definition JS_GetGlobalObject (ctx : nat) : M JSValue :=
  api (EvGetGlobalObject ctx) (fun e => script_global e ctx).

Definition JS_GetPropertyStr (ctx : nat) (this_obj : JSValue) (prop : string) : M JSValue :=
  api (EvGetPropertyStr ctx this_obj prop) (fun e => script_get_property e ctx this_obj prop).

Definition JS_Call (ctx : nat) (func_obj this_obj : JSValue) (argv : list JSValue)
  : M JSValue :=
  api (EvCall ctx func_obj this_obj argv) (fun e => script_call e ctx func_obj this_obj argv).

(** Modelled from the spec: a floating point number becomes a Float64. *)
Definition JS_NewFloat64 (ctx : nat) (d : double) : M JSValue :=
  api (EvNewFloat64 ctx d) (fun e => (mkJSValue (U_float64 d) JS_TAG_FLOAT64, e)).

(** Modelled from the spec: text is copied into a new engine string.  The
    argument is a C string. *)
Definition JS_NewString (ctx : nat) (str : string) : M JSValue :=
  api (EvNewString ctx str) (js_new_string str).

Definition JS_DupValue (ctx : nat) (v : JSValue) : M JSValue :=
  api (EvDupValue ctx v) (js_dup_value v).

Definition JS_FreeValue (ctx : nat) (v : JSValue) : M unit :=
  api (EvFreeValue ctx v) (js_free_value v).

Definition JS_GetException (ctx : nat) : M JSValue :=
  api (EvGetException ctx) (js_get_exception ctx).

(** Modelled from the spec: any value is converted to a string; the result
    is a new string value. *)
Definition JS_ToString (ctx : nat) (v : JSValue) : M JSValue :=
  api (EvToString ctx v) (fun e => js_new_string (value_text e ctx v) e).

(** Modelled from the spec: the UTF-8 text of a value, as a C string. *)
Definition JS_ToCString (ctx : nat) (v : JSValue) : M string :=
  api (EvToCString ctx v) (fun e => (c_str (value_text e ctx v), e)).

Definition JS_FreeCString (ctx : nat) (cstring : string) : M unit :=
  api (EvFreeCString ctx cstring) (fun e => (tt, e)).

(** *** Python reference counting and object construction *)

(** [tp_alloc] of the type Context: zero-filled, with one reference. *)
Definition tp_alloc_context : M nat :=
  fun w => let p := fresh (dom (contexts w)) in
           Some (p, mkWorld (engine w) (<[p := mkContextData 1 0 0]> (contexts w)) (trace w)).

(** [Py_BuildValue] for the formats "i" (the argument is a C int), "d" and
    "s".  The argument of "s" is a C string, which is decoded as UTF-8,
    strictly: bytes that are not well-formed UTF-8 raise the decoder's
    UnicodeDecodeError.  [JS_ToCString] as modelled never returns NULL, for
    which the format would give None. *)
Definition Py_BuildValue_i (i : Z) : PyObject := Py_Long (int32 i).
Definition Py_BuildValue_d (d : double) : PyObject := Py_Float d.
Definition Py_BuildValue_s (cstring : string) : PyResult :=
  match utf8_error 0 (c_str cstring) with
  | None => PyOk (Py_Unicode (c_str cstring))
  | Some msg => PyRaise PyExc_UnicodeDecodeError msg
  end.

(** [PyErr_Format (exc, "%s", cstring)]: the message is the C string
    decoded as UTF-8, with U+FFFD for what is ill-formed. *)
Definition PyErr_Format_s (exc : PyExcType) (cstring : string) : PyResult :=
  PyRaise exc (utf8_replace (c_str cstring)).

(** *** module.c *)

(** Creates an instance of the Object class.  [tp_alloc] fills the instance
    with zeroes, which for the field [object] is the integer 0; only
    [context] is assigned. *)
Definition object_new : ObjectData :=
  {| context_obj := None; object := JS_MKVAL JS_TAG_INT 0 |}.

(** Deallocates an instance of the _quickjs.Context class. *)
Definition context_dealloc (self : nat) : M unit :=
  cd <- deref self ;;
  JS_FreeContext (context cd) ;;
  JS_FreeRuntime (runtime cd) ;;
  tp_free_context self.

Definition incr_ref (cd : ContextData) : ContextData :=
  mkContextData (S (ob_refcnt cd)) (runtime cd) (context cd).

Definition Py_INCREF (p : nat) : M unit :=
  cd <- deref p ;;
  store p (incr_ref cd).

(** [Py_DECREF] of a Context: the instance is deallocated with its last
    reference. *)
Definition decr_ref (cd : ContextData) : ContextData :=
  mkContextData (ob_refcnt cd - 1)%nat (runtime cd) (context cd).

Definition Py_DECREF (p : nat) : M unit :=
  cd <- deref p ;;
  if (ob_refcnt cd <=? 1)%nat then context_dealloc p
  else store p (decr_ref cd).

(** Deallocates an instance of the Object class. *)
Definition object_dealloc (self : ObjectData) : M unit :=
  match context_obj self with
  | Some c =>
      cd <- deref c ;;
      JS_FreeValue (context cd) (object self) ;;
      Py_DECREF c
  | None => ret tt
  end.

(** Converts a JSValue to a Python object.  Takes ownership of the JSValue
    and will deallocate it (refcount reduced by 1).  The error of
    [PyErr_Format (JSException, "%s", cstring)] is built in the exception
    branch, while the C string is there, and returned, as NULL is, after
    the value is freed. *)
Definition quickjs_to_python (context_obj : nat) (value : JSValue) : M PyResult :=
  cd <- deref context_obj ;;
  let context := context cd in
  return_value <-
    match JS_VALUE_GET_TAG value with
    | JS_TAG_INT => ret (PyOk (Py_BuildValue_i (JS_VALUE_GET_INT value)))
    | JS_TAG_BOOL =>
        ret (PyOk (if JS_VALUE_GET_BOOL value =? 0 then Py_False else Py_True))
    | JS_TAG_NULL => ret (PyOk Py_None)
    | JS_TAG_UNDEFINED => ret (PyOk Py_None)
    | JS_TAG_EXCEPTION =>
        exception <- JS_GetException context ;;
        error_string <- JS_ToString context exception ;;
        cstring <- JS_ToCString context error_string ;;
        let error := PyErr_Format_s JSException cstring in
        JS_FreeCString context cstring ;;
        JS_FreeValue context error_string ;;
        JS_FreeValue context exception ;;
        ret error
    | JS_TAG_FLOAT64 => ret (PyOk (Py_BuildValue_d (JS_VALUE_GET_FLOAT64 value)))
    | JS_TAG_STRING =>
        cstring <- JS_ToCString context value ;;
        JS_FreeCString context cstring ;;
        ret (Py_BuildValue_s cstring)
    | JS_TAG_OBJECT =>
        Py_INCREF context_obj ;;
        obj <- JS_DupValue context value ;;
        ret (PyOk (Py_Object {| context_obj := Some context_obj; object := obj |}))
    | JS_TAG_OTHER t =>
        ret (PyRaise PyExc_ValueError ("Unknown quickjs tag: " +:+ fmt_d t))
    end ;;
  JS_FreeValue context value ;;
  ret return_value.

(** The first loop of [object_call]: the arguments are checked, nothing is
    done.  [Some] is the error raised for the first unsupported one. *)
Fixpoint check_args (i : nat) (args : list PyObject) : option PyResult :=
  match args with
  | [] => None
  | item :: rest =>
      if PyBool_Check item then check_args (S i) rest
      else if PyLong_Check item then check_args (S i) rest
      else if PyFloat_Check item then check_args (S i) rest
      else if is_Py_None item then check_args (S i) rest
      else if PyUnicode_Check item then check_args (S i) rest
      else if PyObject_IsInstance_Object item then check_args (S i) rest
      else Some (PyRaise PyExc_ValueError
                   ("Unsupported type of argument " +:+ fmt_d (Z.of_nat i)
                    +:+ " when calling quickjs object: " +:+ Py_TYPE_tp_name item +:+ "."))
  end.

(** [(ObjectData * ) item] *)
Definition as_ObjectData (item : PyObject) : M ObjectData :=
  match item with
  | Py_Object o => ret o
  | _ => fault
  end.

(** The body of the second loop of [object_call]: the value of [jsargs[i]].
    [self_context] is [self->context]. *)
Definition convert_arg (self_context : nat) (item : PyObject) : M JSValue :=
  if PyBool_Check item then
    ret (JS_MKVAL JS_TAG_BOOL (if decide (item = Py_True) then 1 else 0))
  else if PyLong_Check item then
    ret (JS_MKVAL JS_TAG_INT (PyLong_AsLong item))
  else if PyFloat_Check item then
    cd <- deref self_context ;;
    JS_NewFloat64 (context cd) (PyFloat_AsDouble item)
  else if is_Py_None item then
    ret JS_NULL
  else if PyUnicode_Check item then
    cd <- deref self_context ;;
    JS_NewString (context cd) (PyUnicode_AsUTF8 item)
  else if PyObject_IsInstance_Object item then
    cd <- deref self_context ;;
    o <- as_ObjectData item ;;
    JS_DupValue (context cd) (object o)
  else
    fault.  (* jsargs[i] is left as malloc returned it *)

(** _quickjs.Object.__call__ *)
Definition object_call (self : ObjectData) (args : list PyObject) : M PyResult :=
  match context_obj self with
  | None =>
      (* This object does not have a context and has not been created by this module. *)
      ret (PyOk Py_None)
  | Some self_context =>
      match check_args 0 args with
      | Some error => ret error
      | None =>
          jsargs <- for_each (convert_arg self_context) args ;;
          cd <- deref self_context ;;
          value <- JS_Call (context cd) (object self) JS_NULL jsargs ;;
          for_each (fun v => cd <- deref self_context ;; JS_FreeValue (context cd) v) jsargs ;;
          quickjs_to_python self_context value
      end
  end.

(** _quickjs.Object.json *)
Definition object_json (self : ObjectData) : M PyResult :=
  match context_obj self with
  | None => fault   (* self->context->context with self->context == NULL *)
  | Some self_context =>
      cd <- deref self_context ;;
      let context := context cd in
      global <- JS_GetGlobalObject context ;;
      JSON <- JS_GetPropertyStr context global "JSON" ;;
      stringify <- JS_GetPropertyStr context JSON "stringify" ;;
      json_string <- JS_Call context stringify JSON [object self] ;;
      JS_FreeValue context global ;;
      JS_FreeValue context JSON ;;
      JS_FreeValue context stringify ;;
      quickjs_to_python self_context json_string
  end.

(** Creates an instance of the _quickjs.Context class. *)
Definition context_new : M nat :=
  self <- tp_alloc_context ;;
  rt <- JS_NewRuntime ;;
  ctx <- JS_NewContext rt ;;
  store self (mkContextData 1 rt ctx) ;;
  ret self.

(** _quickjs.Context.eval *)
Definition context_eval (self : nat) (args : list PyObject) : M PyResult :=
  match PyArg_ParseTuple_s args with
  | ParseError exc msg => ret (PyRaise exc msg)
  | ParseOk code =>
      cd <- deref self ;;
      value <- JS_Eval (context cd) (c_str code) ;;
      quickjs_to_python self value
  end.

(** _quickjs.Context.get *)
Definition context_get (self : nat) (args : list PyObject) : M PyResult :=
  match PyArg_ParseTuple_s args with
  | ParseError exc msg => ret (PyRaise exc msg)
  | ParseOk name =>
      cd <- deref self ;;
      global <- JS_GetGlobalObject (context cd) ;;
      value <- JS_GetPropertyStr (context cd) global (c_str name) ;;
      JS_FreeValue (context cd) global ;;
      quickjs_to_python self value
  end.

(** The function [test] of the module. *)
Definition test : PyResult := PyOk (Py_BuildValue_i 42).

(** _quickjs.Context.set_memory_limit *)
Definition context_set_memory_limit (self : nat) (args : list PyObject) : M PyResult :=
  match PyArg_ParseTuple_n args with
  | ParseError exc msg => ret (PyRaise exc msg)
  | ParseOk limit =>
      cd <- deref self ;;
      JS_SetMemoryLimit (runtime cd) limit ;;
      ret (PyOk Py_None)
  end.

(** The value codec, host to engine, as a relation on values alone: what
    [jsargs[i]] is for each supported kind of argument.  For a str it is
    some string; which one, and what its cell holds, is what [converted]
    below says. *)
Inductive marshals : PyObject -> JSValue -> Prop :=
  | marshals_bool b : marshals (Py_Bool b) (JS_MKVAL JS_TAG_BOOL (if b then 1 else 0))
  | marshals_long n : marshals (Py_Long n) (JS_MKVAL JS_TAG_INT (PyLong_AsLong (Py_Long n)))
  | marshals_float d : marshals (Py_Float d) (mkJSValue (U_float64 d) JS_TAG_FLOAT64)
  | marshals_none : marshals Py_None JS_NULL
  | marshals_unicode s p : marshals (Py_Unicode s) (JS_MKPTR JS_TAG_STRING p)
  | marshals_object o : marshals (Py_Object o) (object o).

(** The engine call, if any, that converting one argument makes. *)
Definition conv_event (ctx : nat) (item : PyObject) : option Event :=
  match item with
  | Py_Float d => Some (EvNewFloat64 ctx d)
  | Py_Unicode s => Some (EvNewString ctx (c_str s))
  | Py_Object o => Some (EvDupValue ctx (object o))
  | _ => None
  end.

(** The kinds of argument [object_call] accepts. *)
Definition supported (item : PyObject) : bool :=
  PyBool_Check item || PyLong_Check item || PyFloat_Check item || is_Py_None item
  || PyUnicode_Check item || PyObject_IsInstance_Object item.




(** Host to engine and back: an argument is converted as [object_call]
    does, and the value converted back as a result is. *)
Definition roundtrip (self_context : nat) (item : PyObject) : M PyResult :=
  value <- convert_arg self_context item ;;
  quickjs_to_python self_context value.

(** ** The host program

    What a Python program can do with the module, as a transition system.
    A state is a world together with the _quickjs.Object instances alive in
    it and, for each Context, the number of references the program itself
    holds to it (in variables, containers, temporaries). *)

Record Host : Type := mkHost {
  world : World;
  handles : list ObjectData;
  owned : gmap nat nat
}.

(** The Object instance a result brings to the program, if any. *)
Definition new_handles (r : PyResult) : list ObjectData :=
  match r with
  | PyOk (Py_Object o) => [o]
  | _ => []
  end.

(** How many of the handles [hs] belong to the Context at [c]. *)
Definition handles_on (c : nat) (hs : list ObjectData) : nat :=
  length (filter (fun h => context_obj h = Some c) hs).

Definition owned_refs (c : nat) (ow : gmap nat nat) : nat := default 0%nat (ow !! c).

Inductive step : Host -> Host -> Prop :=
  | step_context_new w hs ow c w' :            (* _quickjs.Context() *)
      context_new w = Some (c, w') ->
      step (mkHost w hs ow) (mkHost w' hs (<[c := 1%nat]> ow))
  | step_share w hs ow c n w' :                (* one more reference to a Context *)
      ow !! c = Some (S n) ->
      Py_INCREF c w = Some (tt, w') ->
      step (mkHost w hs ow) (mkHost w' hs (<[c := S (S n)]> ow))
  | step_drop w hs ow c n w' :                 (* a reference to a Context is dropped *)
      ow !! c = Some (S n) ->
      Py_DECREF c w = Some (tt, w') ->
      step (mkHost w hs ow) (mkHost w' hs (<[c := n]> ow))
  | step_eval w hs ow c n args r w' :          (* context.eval(...) *)
      ow !! c = Some (S n) ->
      context_eval c args w = Some (r, w') ->
      step (mkHost w hs ow) (mkHost w' (new_handles r ++ hs) ow)
  | step_get w hs ow c n args r w' :           (* context.get(...) *)
      ow !! c = Some (S n) ->
      context_get c args w = Some (r, w') ->
      step (mkHost w hs ow) (mkHost w' (new_handles r ++ hs) ow)
  | step_set_memory_limit w hs ow c n args r w' :
      ow !! c = Some (S n) ->
      context_set_memory_limit c args w = Some (r, w') ->
      step (mkHost w hs ow) (mkHost w' hs ow)
  | step_object_new w hs ow :                  (* _quickjs.Object() *)
      step (mkHost w hs ow) (mkHost w (object_new :: hs) ow)
  | step_call w hs1 self hs2 ow args r w' :    (* object(...) *)
      object_call self args w = Some (r, w') ->
      step (mkHost w (hs1 ++ self :: hs2) ow)
           (mkHost w' (new_handles r ++ hs1 ++ self :: hs2) ow)
  | step_json w hs1 self hs2 ow r w' :         (* object.json() *)
      object_json self w = Some (r, w') ->
      step (mkHost w (hs1 ++ self :: hs2) ow)
           (mkHost w' (new_handles r ++ hs1 ++ self :: hs2) ow)
  | step_object_dealloc w hs1 self hs2 ow w' : (* the last reference to an Object goes *)
      object_dealloc self w = Some (tt, w') ->
      step (mkHost w (hs1 ++ self :: hs2) ow) (mkHost w' (hs1 ++ hs2) ow).

(** The states a program reaches from an engine [e0] with nothing created. *)
Inductive reachable (e0 : Engine) : Host -> Prop :=
  | reachable_init : reachable e0 (mkHost (mkWorld e0 ∅ []) [] ∅)
  | reachable_step h h' : reachable e0 h -> step h h' -> reachable e0 h'.

(** The reference count of every Context is the number of references the
    program holds plus the number of live handles of that Context; a
    Context that is gone has neither. *)
Definition refs_ok (h : Host) : Prop :=
  forall c,
    match contexts (world h) !! c with
    | Some cd => ob_refcnt cd = (owned_refs c (owned h) + handles_on c (handles h))%nat
                 /\ (0 < ob_refcnt cd)%nat
    | None => owned_refs c (owned h) = 0%nat /\ handles_on c (handles h) = 0%nat
    end.

(** What the exception branch of [quickjs_to_python] does with the value
    [value] of tag [JS_TAG_EXCEPTION], from the world [w1] to the result [r]
    in the world [w']. *)
Definition translated (cd : ContextData) (value : JSValue) (w1 : World)
    (r : PyResult) (w' : World) : Prop :=
  let ctx := context cd in
  let exception := fst (js_get_exception ctx (engine w1)) in
  let e1 := snd (js_get_exception ctx (engine w1)) in
  let text := value_text e1 ctx exception in
  exists error_string,
    r = PyRaise JSException (utf8_replace (c_str text))
    /\ trace w' = trace w1 ++ [EvGetException ctx; EvToString ctx exception;
                               EvToCString ctx error_string;
                               EvFreeCString ctx (c_str text);
                               EvFreeValue ctx error_string;
                               EvFreeValue ctx exception;
                               EvFreeValue ctx value]
    /\ js_exception (engine w') = alter (fun _ => JS_NULL) ctx (js_exception (engine w1))
    /\ contexts w' = contexts w1.

Definition is_call (ev : Event) : bool :=
  match ev with EvCall _ _ _ _ => true | _ => false end.

(** The primitive values the round trip is about, as far as the C types
    carry them: integers of 32 bits, text that has a UTF-8 encoding (so [s]
    is well-formed UTF-8) with no NUL in it. *)
Definition primitive (item : PyObject) : bool :=
  match item with
  | Py_Bool _ | Py_Float _ | Py_None => true
  | Py_Long n => (INT32_MIN <=? n) && (n <=? INT32_MAX)
  | Py_Unicode s => negb (has_nul s) && utf8_valid s
  | _ => false
  end.

(** Classes of engine calls, for statements about traces. *)
Definition is_free (ev : Event) : bool :=
  match ev with EvFreeValue _ _ => true | _ => false end.

(** The calls by which the module has the engine evaluate source text,
    call a function or look a property up. *)
Definition is_invocation (ev : Event) : bool :=
  match ev with
  | EvEval _ _ | EvCall _ _ _ _ | EvGetPropertyStr _ _ _ | EvGetGlobalObject _ => true
  | _ => false
  end.

(** The calls whose outcome is the interpreter's to decide, and during
    which script code may run: the invocations and the conversions of a
    value to a string. *)
Definition runs_script (ev : Event) : bool :=
  match ev with
  | EvEval _ _ | EvCall _ _ _ _ | EvGetPropertyStr _ _ _ | EvGetGlobalObject _
  | EvToString _ _ | EvToCString _ _ => true
  | _ => false
  end.

(** A heap in which every cell has at least one reference, as the cells the
    engine hands out have. *)
Definition heap_ok (h : gmap nat JSCell) : Prop :=
  forall p c, h !! p = Some c -> (1 <= ref_count c)%nat.

(** What releasing a value does to the heap. *)
Definition release_value (v : JSValue) (h : gmap nat JSCell) : gmap nat JSCell :=
  if JS_VALUE_HAS_REF_COUNT v then
    match JS_VALUE_GET_PTR v with
    | Some p => release p h
    | None => h
    end
  else h.

(** The handles a program can come to hold: made by the conversion of a
    value of object type, or by the constructor of the type Object. *)
Definition handle_ok (o : ObjectData) : Prop :=
  match context_obj o with
  | Some _ => tag (object o) = JS_TAG_OBJECT
  | None => o = object_new
  end.

(** From the engine [e] to the engine [e'] the live runtimes and the live
    contexts are the same. *)
Definition keeps_lifecycle (e e' : Engine) : Prop :=
  js_runtimes e' = js_runtimes e /\ dom (js_exception e') = dom (js_exception e).

(** Running script code in a live context neither creates nor destroys a
    runtime or a context. *)
Definition interpreter_keeps_lifecycle : Prop :=
  (forall e ctx code,
      ctx ∈ dom (js_exception e) -> keeps_lifecycle e (snd (script_eval e ctx code)))
  /\ (forall e ctx func_obj this_obj argv,
        ctx ∈ dom (js_exception e) ->
        keeps_lifecycle e (snd (script_call e ctx func_obj this_obj argv)))
  /\ (forall e ctx,
        ctx ∈ dom (js_exception e) -> keeps_lifecycle e (snd (script_global e ctx)))
  /\ (forall e ctx this_obj prop,
        ctx ∈ dom (js_exception e) ->
        keeps_lifecycle e (snd (script_get_property e ctx this_obj prop))).

(** The runtime and the context of a Context. *)
Definition engine_ids (cd : ContextData) : nat * nat := (runtime cd, context cd).

(** From [w] to [w'] the engine's runtimes and contexts are the same, and
    so are the host's Contexts, each with its runtime and context. *)
Definition same_contexts (w w' : World) : Prop :=
  keeps_lifecycle (engine w) (engine w')
  /\ forall c, (engine_ids <$> contexts w' !! c) = (engine_ids <$> contexts w !! c).

(** The engine's live contexts are those it had at the start, in [e0], and
    one for each Context alive, and likewise its runtimes; the context and
    the runtime of a Context are its own, shared neither with the start nor
    with another Context. *)
Definition engine_tracks (e0 : Engine) (w : World) : Prop :=
  (forall ctx,
      ctx ∈ dom (js_exception (engine w))
      <-> ctx ∈ dom (js_exception e0)
          \/ exists c cd, contexts w !! c = Some cd /\ context cd = ctx)
  /\ (forall rt,
        rt ∈ js_runtimes (engine w)
        <-> rt ∈ js_runtimes e0
            \/ exists c cd, contexts w !! c = Some cd /\ runtime cd = rt)
  /\ (forall c cd,
        contexts w !! c = Some cd ->
        (context cd ∉ dom (js_exception e0)) /\ (runtime cd ∉ js_runtimes e0))
  /\ (forall c c' cd cd',
        contexts w !! c = Some cd ->
        contexts w !! c' = Some cd' ->
        context cd = context cd' \/ runtime cd = runtime cd' ->
        c = c').

(** ** Running computations *)

Lemma bind_run {A B} (m : M A) (k : A -> M B) w a w1 :
  m w = Some (a, w1) -> bind m k w = k a w1.
Proof. intros H. unfold bind. now rewrite H. Qed.

Lemma bind_Some {A B} (m : M A) (k : A -> M B) w b w2 :
  bind m k w = Some (b, w2) <-> exists a w1, m w = Some (a, w1) /\ k a w1 = Some (b, w2).
Proof.
  unfold bind. split.
  - destruct (m w) as [[a w1]|]; [|discriminate]. intros H. now exists a, w1.
  - intros (a & w1 & -> & H). exact H.
Qed.

Lemma api_run {A} ev (f : Engine -> A * Engine) w :
  api ev f w
  = Some (fst (f (engine w)), mkWorld (snd (f (engine w))) (contexts w) (trace w ++ [ev])).
Proof. reflexivity. Qed.

Lemma deref_run p cd w : contexts w !! p = Some cd -> deref p w = Some (cd, w).
Proof. intros H. unfold deref. now rewrite H. Qed.

Lemma deref_Some p cd w w' : deref p w = Some (cd, w') -> contexts w !! p = Some cd /\ w' = w.
Proof. unfold deref. destruct (contexts w !! p); naive_solver. Qed.

(** ** The validation pass *)

Lemma check_args_None i args :
  check_args i args = None <-> Forall (fun item => supported item = true) args.
Proof.
  revert i. induction args as [|item rest IH]; intros i; simpl.
  - split; [constructor | reflexivity].
  - destruct item; simpl; rewrite ?IH; split; intros H;
      try (constructor; [reflexivity | assumption]);
      try (now inversion H); try discriminate.
Qed.

Lemma check_args_first args : forall i k item,
  args !! k = Some item ->
  supported item = false ->
  Forall (fun x => supported x = true) (take k args) ->
  check_args i args
  = Some (PyRaise PyExc_ValueError
            ("Unsupported type of argument " +:+ fmt_d (Z.of_nat (i + k))
             +:+ " when calling quickjs object: " +:+ Py_TYPE_tp_name item +:+ ".")).
Proof.
  induction args as [|x rest IH]; intros i k item Hk Hu Hpre; [discriminate|].
  destruct k as [|k]; simpl in Hk.
  - injection Hk as ->. rewrite Nat.add_0_r.
    destruct item; try discriminate Hu. reflexivity.
  - simpl in Hpre. inversion Hpre as [|? ? Hx Hrest]; subst.
    replace (i + S k)%nat with (S i + k)%nat by lia.
    rewrite <- (IH (S i) k item Hk Hu Hrest).
    destruct x; try discriminate Hx; reflexivity.
Qed.

Lemma check_args_Exists args : forall i,
  Exists (fun item => supported item = false) args ->
  exists msg, check_args i args = Some (PyRaise PyExc_ValueError msg).
Proof.
  induction args as [|x rest IH]; intros i H; [inversion H|].
  destruct (supported x) eqn:Hx.
  - inversion H as [? ? Hx'|? ? Hrest]; subst; [congruence|].
    destruct (IH (S i) Hrest) as [msg Hmsg]. exists msg.
    destruct x; try discriminate Hx; exact Hmsg.
  - destruct x; try discriminate Hx. eexists. reflexivity.
Qed.

(** ** The passes of [object_call] *)

Ltac run_with H :=
  unfold bind, deref, store, api, ret;
  cbn [fst snd engine contexts trace]; rewrite ?H;
  cbn [fst snd engine contexts trace].

Lemma convert_arg_run c cd item w :
  contexts w !! c = Some cd ->
  supported item = true ->
  exists v w1,
    convert_arg c item w = Some (v, w1)
    /\ contexts w1 = contexts w
    /\ trace w1 = trace w ++ option_list (conv_event (context cd) item)
    /\ js_exception (engine w1) = js_exception (engine w)
    /\ marshals item v.
Proof.
  intros Hc Hs. destruct item as [b|n|d| |s|o|name]; try discriminate Hs;
    unfold convert_arg; simpl.
  - eexists _, w. split; [reflexivity|].
    rewrite app_nil_r. repeat split.
    destruct b; simpl; constructor.
  - eexists _, w. split; [reflexivity|].
    rewrite app_nil_r. repeat split. constructor.
  - unfold JS_NewFloat64. run_with Hc. eexists _, _. split; [reflexivity|].
    simpl. repeat split. constructor.
  - eexists _, w. split; [reflexivity|].
    rewrite app_nil_r. repeat split. constructor.
  - unfold JS_NewString. run_with Hc. eexists _, _. split; [reflexivity|].
    simpl. repeat split. constructor.
  - unfold JS_DupValue, as_ObjectData. run_with Hc. eexists _, _. split; [reflexivity|].
    simpl. repeat split.
    + unfold js_dup_value; simpl.
      destruct (JS_VALUE_HAS_REF_COUNT (object o)); [|reflexivity].
      destruct (JS_VALUE_GET_PTR (object o)); reflexivity.
    + constructor.
Qed.

Lemma convert_args_run c cd args : forall w,
  contexts w !! c = Some cd ->
  Forall (fun item => supported item = true) args ->
  exists jsargs w1,
    for_each (convert_arg c) args w = Some (jsargs, w1)
    /\ contexts w1 = contexts w
    /\ trace w1 = trace w ++ omap (conv_event (context cd)) args
    /\ js_exception (engine w1) = js_exception (engine w)
    /\ Forall2 marshals args jsargs.
Proof.
  induction args as [|item rest IH]; intros w Hc Hs.
  - exists [], w. simpl. rewrite app_nil_r. repeat split. constructor.
  - inversion Hs as [|? ? Hitem Hrest]; subst.
    destruct (convert_arg_run c cd item w Hc Hitem) as (v & w1 & Hv & Hc1 & Ht1 & He1 & Hm).
    assert (Hc' : contexts w1 !! c = Some cd) by now rewrite Hc1.
    destruct (IH w1 Hc' Hrest) as (vs & w2 & Hvs & Hc2 & Ht2 & He2 & Hms).
    exists (v :: vs), w2. simpl.
    rewrite (bind_run _ _ _ _ _ Hv), (bind_run _ _ _ _ _ Hvs).
    split; [reflexivity|]. split; [congruence|]. split.
    + rewrite Ht2, Ht1, <- app_assoc. f_equal.
      destruct (conv_event (context cd) item); reflexivity.
    + split; [congruence|]. now constructor.
Qed.

Lemma free_args_run c cd jsargs : forall w,
  contexts w !! c = Some cd ->
  exists us w1,
    for_each (fun v => cd <- deref c ;; JS_FreeValue (context cd) v) jsargs w = Some (us, w1)
    /\ contexts w1 = contexts w
    /\ trace w1 = trace w ++ map (EvFreeValue (context cd)) jsargs
    /\ js_exception (engine w1) = js_exception (engine w).
Proof.
  induction jsargs as [|v rest IH]; intros w Hc.
  - exists [], w. simpl. rewrite app_nil_r. repeat split.
  - set (w1 := mkWorld (snd (js_free_value v (engine w))) (contexts w)
                       (trace w ++ [EvFreeValue (context cd) v])).
    assert (Hv : (cd <- deref c ;; JS_FreeValue (context cd) v) w = Some (tt, w1)).
    { unfold JS_FreeValue. run_with Hc. reflexivity. }
    destruct (IH w1 Hc) as (us & w2 & Hus & Hc2 & Ht2 & He2).
    exists (tt :: us), w2. simpl.
    rewrite (bind_run _ _ _ _ _ Hv), (bind_run _ _ _ _ _ Hus).
    split; [reflexivity|]. split; [exact Hc2|]. split.
    + rewrite Ht2. simpl. now rewrite <- app_assoc.
    + rewrite He2. unfold w1, js_free_value; simpl.
      destruct (JS_VALUE_HAS_REF_COUNT v); [|reflexivity].
      destruct (JS_VALUE_GET_PTR v); reflexivity.
Qed.

(** ** [quickjs_to_python], branch by branch *)

Lemma value_text_string (e : Engine) h ctx p n text :
  value_text (set_heap (<[p := mkJSCell n (JSStringData text)]> h) e) ctx
             (JS_MKPTR JS_TAG_STRING p) = text.
Proof.
  unfold value_text; simpl. now rewrite lookup_insert_eq.
Qed.

Lemma js_free_value_exception v (e : Engine) :
  js_exception (snd (js_free_value v e)) = js_exception e.
Proof.
  unfold js_free_value; simpl.
  destruct (JS_VALUE_HAS_REF_COUNT v); [|reflexivity].
  destruct (JS_VALUE_GET_PTR v); reflexivity.
Qed.

Lemma js_dup_value_exception v (e : Engine) :
  js_exception (snd (js_dup_value v e)) = js_exception e.
Proof.
  unfold js_dup_value; simpl.
  destruct (JS_VALUE_HAS_REF_COUNT v); [|reflexivity].
  destruct (JS_VALUE_GET_PTR v); reflexivity.
Qed.

Lemma c_str_idem s : c_str (c_str s) = c_str s.
Proof.
  induction s as [|ch r IH]; simpl; [reflexivity|].
  destruct (Ascii.eqb ch Ascii.zero) eqn:E; simpl; [reflexivity|].
  now rewrite E, IH.
Qed.

Lemma quickjs_to_python_exception c cd value w :
  contexts w !! c = Some cd ->
  tag value = JS_TAG_EXCEPTION ->
  exists r w', quickjs_to_python c value w = Some (r, w') /\ translated cd value w r w'.
Proof.
  intros Hc Ht. unfold quickjs_to_python, JS_VALUE_GET_TAG. rewrite Ht.
  unfold JS_GetException, JS_ToString, JS_ToCString, JS_FreeCString, JS_FreeValue.
  run_with Hc. eexists _, _. split; [reflexivity|].
  unfold translated; cbn [fst snd engine contexts trace js_get_exception js_new_string].
  eexists. split.
  - rewrite value_text_string. unfold PyErr_Format_s. now rewrite c_str_idem.
  - rewrite value_text_string. split.
    + rewrite <- !app_assoc. simpl. reflexivity.
    + split; [|reflexivity]. now rewrite !js_free_value_exception.
Qed.

Lemma quickjs_to_python_object c cd value w :
  contexts w !! c = Some cd ->
  tag value = JS_TAG_OBJECT ->
  exists w',
    quickjs_to_python c value w
    = Some (PyOk (Py_Object {| context_obj := Some c; object := value |}), w')
    /\ contexts w' = <[c := incr_ref cd]> (contexts w)
    /\ trace w' = trace w ++ [EvDupValue (context cd) value; EvFreeValue (context cd) value].
Proof.
  intros Hc Ht. unfold quickjs_to_python, JS_VALUE_GET_TAG. rewrite Ht.
  unfold Py_INCREF, JS_DupValue, JS_FreeValue.
  run_with Hc.
  eexists. split; [reflexivity|]. simpl. split; [reflexivity|].
  now rewrite <- app_assoc.
Qed.

Lemma Py_BuildValue_s_no_handle cstring : new_handles (Py_BuildValue_s cstring) = [].
Proof. unfold Py_BuildValue_s. destruct (utf8_error 0 (c_str cstring)); reflexivity. Qed.

(** Whatever the value, the conversion ends; it makes no call of a script
    function, and it touches the host's objects only to count the reference
    of a new handle. *)
Lemma quickjs_to_python_run c cd value w :
  contexts w !! c = Some cd ->
  exists r w' post,
    quickjs_to_python c value w = Some (r, w')
    /\ trace w' = trace w ++ post
    /\ Forall (fun ev => is_call ev = false) post
    /\ ((new_handles r = [] /\ contexts w' = contexts w)
        \/ (new_handles r = [ {| context_obj := Some c; object := value |} ]
            /\ contexts w' = <[c := incr_ref cd]> (contexts w))).
Proof.
  intros Hc. destruct (tag value) eqn:Ht.
  7: { unfold quickjs_to_python, JS_VALUE_GET_TAG. rewrite Ht.
       unfold JS_ToCString, JS_FreeCString, JS_FreeValue. run_with Hc.
       eexists _, _, [_; _; _]. split; [reflexivity|]. cbn [trace contexts].
       split; [rewrite <- !app_assoc; reflexivity|].
       split; [repeat constructor|].
       left. split; [apply Py_BuildValue_s_no_handle | reflexivity]. }
  5: { destruct (quickjs_to_python_exception c cd value w Hc Ht)
         as (r & w' & Hrun & (es & -> & Htr & _ & Hctx)).
       eexists _, w', _. split; [exact Hrun|]. split; [exact Htr|].
       split; [repeat constructor | left; split; [reflexivity | exact Hctx]]. }
  6: { destruct (quickjs_to_python_object c cd value w Hc Ht) as (w' & Hrun & Hctx & Htr).
       eexists _, w', _. split; [exact Hrun|]. split; [exact Htr|].
       split; [repeat constructor | right; split; [reflexivity | exact Hctx]]. }
  all: unfold quickjs_to_python, JS_VALUE_GET_TAG; rewrite Ht;
    unfold JS_FreeValue; run_with Hc;
    eexists _, _, _; (split; [reflexivity|]); simpl;
    (split; [reflexivity|]);
    (split; [repeat constructor | left; split; [|reflexivity]]).
  - reflexivity.
  - destruct (JS_VALUE_GET_BOOL value =? 0); reflexivity.
  - reflexivity.
  - reflexivity.
  - reflexivity.
  - reflexivity.
Qed.

(** ** [object_call], pass by pass *)

(** The worlds a call with accepted arguments goes through: [w1] after the
    conversion pass, [w2] after the engine's call, [w3] after the converted
    arguments are released; then the result is converted. *)
Lemma object_call_run self c cd args w :
  context_obj self = Some c ->
  contexts w !! c = Some cd ->
  check_args 0 args = None ->
  exists jsargs w1 value w2 us w3 r w' post,
    for_each (convert_arg c) args w = Some (jsargs, w1)
    /\ Forall2 marshals args jsargs
    /\ trace w1 = trace w ++ omap (conv_event (context cd)) args
    /\ JS_Call (context cd) (object self) JS_NULL jsargs w1 = Some (value, w2)
    /\ for_each (fun v => cd <- deref c ;; JS_FreeValue (context cd) v) jsargs w2
       = Some (us, w3)
    /\ trace w3 = trace w1 ++ [EvCall (context cd) (object self) JS_NULL jsargs]
                  ++ map (EvFreeValue (context cd)) jsargs
    /\ contexts w3 = contexts w
    /\ quickjs_to_python c value w3 = Some (r, w')
    /\ trace w' = trace w3 ++ post
    /\ Forall (fun ev => is_call ev = false) post
    /\ ((new_handles r = [] /\ contexts w' = contexts w)
        \/ (new_handles r = [ {| context_obj := Some c; object := value |} ]
            /\ contexts w' = <[c := incr_ref cd]> (contexts w)))
    /\ object_call self args w = Some (r, w').
Proof.
  intros Hself Hc Hcheck.
  apply check_args_None in Hcheck as Hs.
  destruct (convert_args_run c cd args w Hc Hs) as (jsargs & w1 & Hconv & Hc1 & Ht1 & _ & Hm).
  assert (Hc1' : contexts w1 !! c = Some cd) by now rewrite Hc1.
  pose proof (api_run (EvCall (context cd) (object self) JS_NULL jsargs)
                (fun e => script_call e (context cd) (object self) JS_NULL jsargs) w1) as Hcall.
  match type of Hcall with _ = Some (?v, ?w) => set (value := v) in *; set (w2 := w) in * end.
  assert (Hc2 : contexts w2 !! c = Some cd) by exact Hc1'.
  destruct (free_args_run c cd jsargs w2 Hc2) as (us & w3 & Hfree & Hc3 & Ht3 & _).
  assert (Hc3' : contexts w3 !! c = Some cd) by now rewrite Hc3.
  destruct (quickjs_to_python_run c cd value w3 Hc3') as (r & w' & post & Hq & Ht' & Hpost & Hctx).
  exists jsargs, w1, value, w2, us, w3, r, w', post.
  split; [exact Hconv|]. split; [exact Hm|]. split; [exact Ht1|].
  split; [exact Hcall|]. split; [exact Hfree|].
  split; [rewrite Ht3; unfold w2; simpl; now rewrite <- app_assoc|].
  split; [rewrite Hc3; exact Hc1|].
  split; [exact Hq|]. split; [exact Ht'|]. split; [exact Hpost|].
  split.
  - rewrite Hc3 in Hctx. unfold w2 in Hctx. simpl in Hctx. rewrite Hc1 in Hctx. exact Hctx.
  - unfold object_call. rewrite Hself, Hcheck.
    rewrite (bind_run _ _ _ _ _ Hconv), (bind_run _ _ _ _ _ (deref_run _ _ _ Hc1')).
    unfold JS_Call at 1. rewrite (bind_run _ _ _ _ _ Hcall).
    rewrite (bind_run _ _ _ _ _ Hfree). exact Hq.
Qed.



(** Over the conversion pass and the release pass together, a value of
    object type is duplicated as often as it is released. *)
Lemma dup_free_balance ctx v args jsargs :
  Forall2 marshals args jsargs ->
  tag v = JS_TAG_OBJECT ->
  count_occ Event_eq_dec (omap (conv_event ctx) args) (EvDupValue ctx v)
  = count_occ Event_eq_dec (map (EvFreeValue ctx) jsargs) (EvFreeValue ctx v).
Proof.
  intros Hm Hv. induction Hm as [|item jv args jsargs Hitem _ IH]; [reflexivity|].
  assert (Hother : forall jv', tag jv' <> JS_TAG_OBJECT ->
            count_occ Event_eq_dec (map (EvFreeValue ctx) (jv' :: jsargs)) (EvFreeValue ctx v)
            = count_occ Event_eq_dec (map (EvFreeValue ctx) jsargs) (EvFreeValue ctx v)).
  { intros jv' Hjv. cbn [map]. apply count_occ_cons_neq. intros Heq.
    injection Heq as ->. contradiction. }
  destruct Hitem as [b|n|d| |s p|o]; cbn [omap list_omap conv_event].
  - rewrite Hother; [exact IH | discriminate].
  - rewrite Hother; [exact IH | discriminate].
  - rewrite Hother by discriminate. rewrite count_occ_cons_neq by discriminate. exact IH.
  - rewrite Hother; [exact IH | discriminate].
  - rewrite Hother by discriminate. rewrite count_occ_cons_neq by discriminate. exact IH.
  - cbn [map]. destruct (decide (object o = v)) as [->|Hne].
    + rewrite !count_occ_cons_eq by reflexivity. now rewrite IH.
    + rewrite !count_occ_cons_neq by congruence. exact IH.
Qed.

(** ** The call path of a handle *)

(** C6. A handle with no attached Context (its field [context] is NULL),
    whatever else it holds and whatever the arguments, returns None when
    called, in an unchanged world: no engine operation is performed, none is
    recorded, and the host's objects are as before. *)
Theorem inert_handle_call_returns_none (v : JSValue) (args : list PyObject) (w : World) :
  object_call {| context_obj := None; object := v |} args w = Some (PyOk Py_None, w).
Proof. reflexivity. Qed.

(** C2, as amended. For a handle with an attached Context, an argument list
    in which some argument is of an unsupported kind is rejected by the
    validation pass [check_args]: the call returns that pass's ValueError
    and the world is the one it started in, so nothing was converted, no
    engine value was allocated and no engine call was made. *)
Theorem rejected_call_leaves_world_unchanged
    (self : ObjectData) (c : nat) (args : list PyObject) (w : World) :
  context_obj self = Some c ->
  Exists (fun item => supported item = false) args ->
  exists msg,
    check_args 0 args = Some (PyRaise PyExc_ValueError msg)
    /\ object_call self args w = Some (PyRaise PyExc_ValueError msg, w).
Proof.
  intros Hself Hbad. destruct (check_args_Exists args 0%nat Hbad) as [msg Hmsg].
  exists msg. split; [exact Hmsg|].
  unfold object_call. rewrite Hself, Hmsg. reflexivity.
Qed.

(** C4, as amended. For a handle with an attached Context, when [item] at
    the 0-based position [i] is the first argument of an unsupported kind,
    the call raises ValueError, which is not the module's JSException (and
    not TypeError), with the message naming [i] and the name of the type of
    [item]; the world is unchanged. *)
Theorem unsupported_argument_raises_value_error
    (self : ObjectData) (c : nat) (args : list PyObject) (i : nat) (item : PyObject)
    (w : World) :
  context_obj self = Some c ->
  args !! i = Some item ->
  supported item = false ->
  Forall (fun x => supported x = true) (take i args) ->
  object_call self args w
  = Some (PyRaise PyExc_ValueError
            ("Unsupported type of argument " +:+ fmt_d (Z.of_nat i)
             +:+ " when calling quickjs object: " +:+ Py_TYPE_tp_name item +:+ "."), w)
  /\ PyExc_ValueError <> JSException
  /\ PyExc_ValueError <> PyExc_TypeError.
Proof.
  intros Hself Hi Hu Hpre. split; [|split; discriminate].
  unfold object_call. rewrite Hself.
  rewrite (check_args_first args 0%nat i item Hi Hu Hpre). reflexivity.
Qed.

(** C7. A call whose arguments pass validation returns (given that the
    handle's Context, if it has one, is alive).  Either the handle is inert
    and nothing happened at all, or the trace of the call is: the events of
    the conversion pass, the one call into the engine with the converted
    arguments [jsargs], then exactly one [JS_FreeValue] for each element of
    [jsargs], in order, then the events [post] of the conversion of the
    result.  Every handle passed as an argument contributes one
    [JS_DupValue] of its value to the conversion pass, and over the
    conversion and release passes each object value is duplicated as often
    as it is released: the references of the host's handles are untouched
    on balance. *)
Theorem call_releases_converted_arguments
    (self : ObjectData) (args : list PyObject) (w : World) :
  check_args 0 args = None ->
  (forall c, context_obj self = Some c -> is_Some (contexts w !! c)) ->
  exists r w',
    object_call self args w = Some (r, w')
    /\ ((context_obj self = None /\ r = PyOk Py_None /\ w' = w)
        \/ exists c cd jsargs value w3 post,
             context_obj self = Some c
             /\ contexts w !! c = Some cd
             /\ Forall2 marshals args jsargs
             /\ trace w3 = trace w ++ omap (conv_event (context cd)) args
                          ++ [EvCall (context cd) (object self) JS_NULL jsargs]
                          ++ map (EvFreeValue (context cd)) jsargs
             /\ quickjs_to_python c value w3 = Some (r, w')
             /\ trace w' = trace w3 ++ post
             /\ (forall o, In (Py_Object o) args ->
                    In (EvDupValue (context cd) (object o))
                       (omap (conv_event (context cd)) args)
                    /\ In (EvFreeValue (context cd) (object o))
                          (map (EvFreeValue (context cd)) jsargs))
             /\ (forall v, tag v = JS_TAG_OBJECT ->
                    count_occ Event_eq_dec (omap (conv_event (context cd)) args)
                              (EvDupValue (context cd) v)
                    = count_occ Event_eq_dec (map (EvFreeValue (context cd)) jsargs)
                                (EvFreeValue (context cd) v))).
Proof.
  intros Hcheck Halive. destruct (context_obj self) as [c|] eqn:Hself.
  - destruct (Halive c eq_refl) as [cd Hc].
    destruct (object_call_run self c cd args w Hself Hc Hcheck)
      as (jsargs & w1 & value & w2 & us & w3 & r & w' & post
          & _ & Hm & Ht1 & _ & _ & Ht3 & _ & Hq & Ht' & _ & _ & Hrun).
    exists r, w'. split; [exact Hrun|]. right.
    exists c, cd, jsargs, value, w3, post.
    split; [reflexivity|]. split; [exact Hc|]. split; [exact Hm|].
    split; [rewrite Ht3, Ht1; now rewrite <- !app_assoc|].
    split; [exact Hq|]. split; [exact Ht'|]. split.
    + intros o Ho. split.
      * apply list_elem_of_In, list_elem_of_omap. exists (Py_Object o).
        split; [now apply list_elem_of_In | reflexivity].
      * apply list_elem_of_In in Ho.
        destruct (proj1 (list_elem_of_lookup _ _) Ho) as [i Hi].
        destruct (Forall2_lookup_l _ _ _ _ _ Hm Hi) as (jv & Hjv & Hmar).
        inversion Hmar; subst.
        apply in_map, list_elem_of_In, (list_elem_of_lookup_2 _ i). exact Hjv.
    + intros v Hv. now apply dup_free_balance.
  - exists (PyOk Py_None), w. split.
    + unfold object_call. rewrite Hself. reflexivity.
    + left. repeat split.
Qed.

Lemma call_invokes_wrapped_value_aux self c cd args w :
  context_obj self = Some c ->
  contexts w !! c = Some cd ->
  check_args 0 args = None ->
  exists jsargs pre post r w',
    object_call self args w = Some (r, w')
    /\ Forall2 marshals args jsargs
    /\ trace w' = trace w ++ pre ++ [EvCall (context cd) (object self) JS_NULL jsargs] ++ post.
Proof.
  intros Hself Hc Hcheck.
  destruct (object_call_run self c cd args w Hself Hc Hcheck)
    as (jsargs & w1 & value & w2 & us & w3 & r & w' & post
        & _ & Hm & Ht1 & _ & _ & Ht3 & _ & _ & Ht' & _ & _ & Hrun).
  exists jsargs, (omap (conv_event (context cd)) args),
    (map (EvFreeValue (context cd)) jsargs ++ post), r, w'.
  split; [exact Hrun|]. split; [exact Hm|].
  rewrite Ht', Ht3, Ht1. now rewrite <- !app_assoc.
Qed.

(** *** The cells of the converted arguments *)











(** C9. A Python bool passes [PyLong_Check] as well as [PyBool_Check], yet
    both passes treat it as a bool, their first test: validation accepts
    it, conversion yields the engine Boolean 1 or 0, which is not the
    integer the next branch would have made, and in the call that follows
    the argument at its position is that Boolean. *)
Theorem bool_argument_marshals_as_boolean (b : bool) :
  PyBool_Check (Py_Bool b) = true
  /\ PyLong_Check (Py_Bool b) = true
  /\ (forall i rest, check_args i (Py_Bool b :: rest) = check_args (S i) rest)
  /\ (forall c w, convert_arg c (Py_Bool b) w
                  = Some (JS_MKVAL JS_TAG_BOOL (if b then 1 else 0), w))
  /\ tag (JS_MKVAL JS_TAG_BOOL (if b then 1 else 0)) = JS_TAG_BOOL
  /\ JS_MKVAL JS_TAG_BOOL (if b then 1 else 0)
     <> JS_MKVAL JS_TAG_INT (PyLong_AsLong (Py_Bool b))
  /\ (forall self c cd args i w,
        context_obj self = Some c ->
        contexts w !! c = Some cd ->
        check_args 0 args = None ->
        args !! i = Some (Py_Bool b) ->
        exists jsargs pre post r w',
          object_call self args w = Some (r, w')
          /\ trace w' = trace w ++ pre
                        ++ [EvCall (context cd) (object self) JS_NULL jsargs] ++ post
          /\ jsargs !! i = Some (JS_MKVAL JS_TAG_BOOL (if b then 1 else 0))).
Proof.
  split; [reflexivity|]. split; [reflexivity|]. split; [reflexivity|].
  split; [intros c w; destruct b; reflexivity|].
  split; [reflexivity|]. split; [discriminate|].
  intros self c cd args i w Hself Hc Hcheck Hi.
  destruct (call_invokes_wrapped_value_aux self c cd args w Hself Hc Hcheck)
    as (jsargs & pre & post & r & w' & Hrun & Hm & Ht).
  exists jsargs, pre, post, r, w'. split; [exact Hrun|]. split; [exact Ht|].
  destruct (Forall2_lookup_l _ _ _ _ _ Hm Hi) as (jv & Hjv & Hmar).
  inversion Hmar; subst. exact Hjv.
Qed.

(** ** The other entry points *)

Lemma context_eval_run c cd args code w :
  PyArg_ParseTuple_s args = ParseOk code ->
  contexts w !! c = Some cd ->
  exists value w1 r w' post,
    JS_Eval (context cd) (c_str code) w = Some (value, w1)
    /\ contexts w1 = contexts w
    /\ quickjs_to_python c value w1 = Some (r, w')
    /\ trace w' = trace w1 ++ post
    /\ ((new_handles r = [] /\ contexts w' = contexts w)
        \/ (new_handles r = [ {| context_obj := Some c; object := value |} ]
            /\ contexts w' = <[c := incr_ref cd]> (contexts w)))
    /\ context_eval c args w = Some (r, w').
Proof.
  intros Hparse Hc.
  pose proof (api_run (EvEval (context cd) (c_str code))
                (fun e => script_eval e (context cd) (c_str code)) w) as Hev.
  match type of Hev with _ = Some (?v, ?w) => set (value := v) in *; set (w1 := w) in * end.
  assert (Hc1 : contexts w1 !! c = Some cd) by exact Hc.
  destruct (quickjs_to_python_run c cd value w1 Hc1) as (r & w' & post & Hq & Ht & _ & Hctx).
  exists value, w1, r, w', post.
  split; [exact Hev|]. split; [reflexivity|]. split; [exact Hq|]. split; [exact Ht|].
  split; [exact Hctx|].
  unfold context_eval. rewrite Hparse, (bind_run _ _ _ _ _ (deref_run _ _ _ Hc)).
  unfold JS_Eval at 1. rewrite (bind_run _ _ _ _ _ Hev). exact Hq.
Qed.

Lemma context_get_run c cd args name w :
  PyArg_ParseTuple_s args = ParseOk name ->
  contexts w !! c = Some cd ->
  exists global w0 value w1 w2 r w' post,
    JS_GetGlobalObject (context cd) w = Some (global, w0)
    /\ JS_GetPropertyStr (context cd) global (c_str name) w0 = Some (value, w1)
    /\ JS_FreeValue (context cd) global w1 = Some (tt, w2)
    /\ contexts w2 = contexts w
    /\ quickjs_to_python c value w2 = Some (r, w')
    /\ trace w' = trace w2 ++ post
    /\ ((new_handles r = [] /\ contexts w' = contexts w)
        \/ (new_handles r = [ {| context_obj := Some c; object := value |} ]
            /\ contexts w' = <[c := incr_ref cd]> (contexts w)))
    /\ context_get c args w = Some (r, w').
Proof.
  intros Hparse Hc.
  pose proof (api_run (EvGetGlobalObject (context cd))
                (fun e => script_global e (context cd)) w) as Hg.
  match type of Hg with _ = Some (?v, ?w) => set (global := v) in *; set (w0 := w) in * end.
  pose proof (api_run (EvGetPropertyStr (context cd) global (c_str name))
                (fun e => script_get_property e (context cd) global (c_str name)) w0) as Hp.
  match type of Hp with _ = Some (?v, ?w) => set (value := v) in *; set (w1 := w) in * end.
  pose proof (api_run (EvFreeValue (context cd) global) (js_free_value global) w1) as Hf.
  match type of Hf with _ = Some (_, ?w) => set (w2 := w) in * end.
  assert (Hc2 : contexts w2 !! c = Some cd) by exact Hc.
  destruct (quickjs_to_python_run c cd value w2 Hc2) as (r & w' & post & Hq & Ht & _ & Hctx).
  exists global, w0, value, w1, w2, r, w', post.
  split; [exact Hg|]. split; [exact Hp|]. split; [exact Hf|]. split; [reflexivity|].
  split; [exact Hq|]. split; [exact Ht|]. split; [exact Hctx|].
  unfold context_get. rewrite Hparse, (bind_run _ _ _ _ _ (deref_run _ _ _ Hc)).
  unfold JS_GetGlobalObject at 1. rewrite (bind_run _ _ _ _ _ Hg).
  unfold JS_GetPropertyStr at 1. rewrite (bind_run _ _ _ _ _ Hp).
  unfold JS_FreeValue at 1. rewrite (bind_run _ _ _ _ _ Hf). exact Hq.
Qed.

Lemma object_json_run self c cd w :
  context_obj self = Some c ->
  contexts w !! c = Some cd ->
  exists value w3 r w' post,
    contexts w3 = contexts w
    /\ quickjs_to_python c value w3 = Some (r, w')
    /\ trace w' = trace w3 ++ post
    /\ ((new_handles r = [] /\ contexts w' = contexts w)
        \/ (new_handles r = [ {| context_obj := Some c; object := value |} ]
            /\ contexts w' = <[c := incr_ref cd]> (contexts w)))
    /\ object_json self w = Some (r, w').
Proof.
  intros Hself Hc. unfold object_json. rewrite Hself.
  rewrite (bind_run _ _ _ _ _ (deref_run _ _ _ Hc)).
  unfold JS_GetGlobalObject, JS_GetPropertyStr, JS_Call, JS_FreeValue.
  repeat (rewrite (bind_run _ _ _ _ _ (api_run _ _ _))).
  match goal with
  | |- context [quickjs_to_python c ?v ?w3] =>
      destruct (quickjs_to_python_run c cd v w3 Hc) as (r & w' & post & Hq & Ht & _ & Hctx);
      exists v, w3, r, w', post
  end.
  split; [reflexivity|]. split; [exact Hq|]. split; [exact Ht|]. split; [exact Hctx|].
  exact Hq.
Qed.

(** ** C strings and UTF-8 *)

Lemma in_range_true lo hi b :
  in_range lo hi b = true <-> (lo <= nat_of_ascii b <= hi)%nat.
Proof. unfold in_range. rewrite andb_true_iff, !Nat.leb_le. tauto. Qed.

Lemma in_range_false lo hi b :
  in_range lo hi b = false <-> ~ (lo <= nat_of_ascii b <= hi)%nat.
Proof.
  rewrite <- in_range_true. destruct (in_range lo hi b); split; congruence.
Qed.

Lemma lead3_range b0 b1 : lead3 b0 b1 = true -> in_range 224 239 b0 = true.
Proof.
  unfold lead3. rewrite !orb_true_iff, !andb_true_iff, !in_range_true. lia.
Qed.

Lemma lead4_range b0 b1 :
  lead4 b0 b1 = true -> in_range 224 239 b0 = false /\ in_range 240 244 b0 = true.
Proof.
  unfold lead4. rewrite !orb_true_iff, !andb_true_iff, in_range_false, !in_range_true. lia.
Qed.

Lemma utf8_replace_valid_aux n : forall s,
  (String.length s <= n)%nat -> utf8_valid s = true -> utf8_replace s = s.
Proof.
  induction n as [|n IH]; intros s Hlen Hv.
  - destruct s; [reflexivity | simpl in Hlen; lia].
  - destruct s as [|b0 r0]; [reflexivity|].
    cbn [utf8_valid utf8_replace] in *. cbn [String.length] in Hlen.
    destruct (in_range 0 127 b0) eqn:H1.
    { f_equal. apply IH; [lia | exact Hv]. }
    destruct r0 as [|b1 r1]; [discriminate|]. cbn [String.length] in Hlen.
    destruct (in_range 194 223 b0) eqn:H2.
    { apply andb_prop in Hv as [Hb1 Hv]. rewrite Hb1. do 2 f_equal.
      apply IH; [lia | exact Hv]. }
    destruct r1 as [|b2 r2]; [discriminate|]. cbn [String.length] in Hlen.
    destruct (lead3 b0 b1) eqn:H3.
    { rewrite (lead3_range b0 b1 H3).
      apply andb_prop in Hv as [Hb2 Hv]. rewrite Hb2. do 3 f_equal.
      apply IH; [lia | exact Hv]. }
    destruct r2 as [|b3 r3]; [discriminate|]. cbn [String.length] in Hlen.
    apply andb_prop in Hv as [Hv Hr]. apply andb_prop in Hv as [Hv Hb3].
    apply andb_prop in Hv as [H4 Hb2].
    destruct (lead4_range b0 b1 H4) as [-> ->]. rewrite H4, Hb2, Hb3.
    do 4 f_equal. apply IH; [lia | exact Hr].
Qed.

(** Text that is well-formed is decoded as it is. *)
Lemma utf8_replace_valid s : utf8_valid s = true -> utf8_replace s = s.
Proof. apply (utf8_replace_valid_aux (String.length s)). lia. Qed.

Lemma lead3_not_lead (b0 b1 : ascii) :
  in_range 224 239 b0 = false -> lead3 b0 b1 = false.
Proof.
  intros H. destruct (lead3 b0 b1) eqn:E; [|reflexivity].
  apply lead3_range in E. congruence.
Qed.

Lemma lead4_not_lead (b0 b1 : ascii) :
  in_range 240 244 b0 = false -> lead4 b0 b1 = false.
Proof.
  intros H. destruct (lead4 b0 b1) eqn:E; [|reflexivity].
  apply lead4_range in E as [_ E]. congruence.
Qed.

Lemma lead_ranges_disjoint (b0 : ascii) :
  in_range 224 239 b0 = true -> forall b1, lead4 b0 b1 = false.
Proof.
  intros H b1. destruct (lead4 b0 b1) eqn:E; [|reflexivity].
  apply lead4_range in E as [E _]. congruence.
Qed.

Lemma utf8_error_valid_aux n : forall s pos,
  (String.length s <= n)%nat ->
  utf8_error pos s = None <-> utf8_valid s = true.
Proof.
  induction n as [|n IH]; intros s pos Hlen.
  - destruct s; [split; reflexivity | simpl in Hlen; lia].
  - destruct s as [|b0 r0]; [split; reflexivity|].
    cbn [utf8_valid utf8_error]. cbn [String.length] in Hlen.
    destruct (in_range 0 127 b0) eqn:H1; [apply IH; lia|].
    destruct (in_range 194 223 b0) eqn:H2.
    { destruct r0 as [|b1 r1]; [split; discriminate|]. cbn [String.length] in Hlen.
      destruct (in_range 128 191 b1); cbn [andb]; [apply IH; lia | split; discriminate]. }
    destruct (in_range 224 239 b0) eqn:H3.
    { destruct r0 as [|b1 r1]; [split; discriminate|]. cbn [String.length] in Hlen.
      destruct (lead3 b0 b1) eqn:H3'.
      - destruct r1 as [|b2 r2]; [split; discriminate|]. cbn [String.length] in Hlen.
        destruct (in_range 128 191 b2); cbn [andb]; [apply IH; lia | split; discriminate].
      - destruct r1 as [|b2 r2]; [split; discriminate|].
        destruct r2 as [|b3 r3]; [split; discriminate|].
        rewrite (lead_ranges_disjoint b0 H3 b1). cbn [andb]. split; discriminate. }
    destruct (in_range 240 244 b0) eqn:H4.
    { destruct r0 as [|b1 r1]; [split; discriminate|]. cbn [String.length] in Hlen.
      rewrite (lead3_not_lead b0 b1 H3).
      destruct (lead4 b0 b1) eqn:H4'.
      - destruct r1 as [|b2 r2]; [split; discriminate|]. cbn [String.length] in Hlen.
        destruct (in_range 128 191 b2).
        + destruct r2 as [|b3 r3]; [split; discriminate|]. cbn [String.length] in Hlen.
          destruct (in_range 128 191 b3); cbn [andb]; [apply IH; lia | split; discriminate].
        + destruct r2 as [|b3 r3]; cbn [andb]; split; discriminate.
      - destruct r1 as [|b2 r2]; [split; discriminate|].
        destruct r2 as [|b3 r3]; cbn [andb]; split; discriminate. }
    destruct r0 as [|b1 r1]; [split; discriminate|].
    destruct r1 as [|b2 r2]; [split; discriminate|].
    rewrite (lead3_not_lead b0 b1 H3).
    destruct r2 as [|b3 r3]; [split; discriminate|].
    rewrite (lead4_not_lead b0 b1 H4). cbn [andb]. split; discriminate.
Qed.

(** The strict decoder fails exactly on the text that is ill-formed. *)
Lemma utf8_error_valid s pos : utf8_error pos s = None <-> utf8_valid s = true.
Proof. apply (utf8_error_valid_aux (String.length s)). lia. Qed.

Lemma c_str_no_nul s : has_nul s = false -> c_str s = s.
Proof.
  induction s as [|ch r IH]; simpl; [reflexivity|].
  destruct (Ascii.eqb ch Ascii.zero); simpl; [discriminate|].
  intros H. now rewrite IH.
Qed.

(** ** Exceptions *)

Lemma translated_of_run c cd value w3 r w' :
  contexts w3 !! c = Some cd ->
  quickjs_to_python c value w3 = Some (r, w') ->
  tag value = JS_TAG_EXCEPTION ->
  translated cd value w3 r w'.
Proof.
  intros Hc Hq Ht.
  destruct (quickjs_to_python_exception c cd value w3 Hc Ht) as (r0 & w0 & Hq0 & Htr).
  rewrite Hq in Hq0. injection Hq0 as <- <-. exact Htr.
Qed.

(** C3, as amended. In a world where the Context at [c] is alive, each of
    eval, get and a handle's call runs to its end; and when the value the
    engine gave back carries the exception marker, the outcome is
    [translated]: the result is the dedicated [JSException] whose message
    is the engine's own string conversion of the pending exception read as
    a C string of UTF-8, that is up to its first NUL and with U+FFFD for
    what is ill-formed, and so the whole of it when it is well-formed and
    has no NUL; the trace from there on is one [JS_GetException], the string
    conversion, the release of the C string, of the string value and of the
    exception (and of the marker); the pending-exception slot of the
    context is clear, the other slots and the host's objects are as they
    were.  The Context is then still alive with a clear slot, and a further
    eval runs to its end. *)
Theorem script_exception_raises_JSException (c : nat) (cd : ContextData) (w : World) :
  contexts w !! c = Some cd ->
  (forall args code,
      PyArg_ParseTuple_s args = ParseOk code ->
      exists value w1 r w',
        JS_Eval (context cd) (c_str code) w = Some (value, w1)
        /\ context_eval c args w = Some (r, w')
        /\ (tag value = JS_TAG_EXCEPTION -> translated cd value w1 r w'))
  /\ (forall args name,
        PyArg_ParseTuple_s args = ParseOk name ->
        exists global w0 value w1 w2 r w',
          JS_GetGlobalObject (context cd) w = Some (global, w0)
          /\ JS_GetPropertyStr (context cd) global (c_str name) w0 = Some (value, w1)
          /\ JS_FreeValue (context cd) global w1 = Some (tt, w2)
          /\ context_get c args w = Some (r, w')
          /\ (tag value = JS_TAG_EXCEPTION -> translated cd value w2 r w'))
  /\ (forall self args,
        context_obj self = Some c ->
        check_args 0 args = None ->
        exists jsargs w1 value w2 us w3 r w',
          for_each (convert_arg c) args w = Some (jsargs, w1)
          /\ JS_Call (context cd) (object self) JS_NULL jsargs w1 = Some (value, w2)
          /\ for_each (fun v => cd <- deref c ;; JS_FreeValue (context cd) v) jsargs w2
             = Some (us, w3)
          /\ object_call self args w = Some (r, w')
          /\ (tag value = JS_TAG_EXCEPTION -> translated cd value w3 r w'))
  /\ (forall value w1 r w',
        contexts w1 !! c = Some cd ->
        translated cd value w1 r w' ->
        (exists msg, r = PyRaise JSException msg)
        /\ count_occ Event_eq_dec (drop (length (trace w1)) (trace w'))
                     (EvGetException (context cd)) = 1%nat
        /\ js_exception (engine w') !! context cd
           = (fun _ => JS_NULL) <$> js_exception (engine w1) !! context cd
        /\ contexts w' !! c = Some cd
        /\ (forall args code,
              PyArg_ParseTuple_s args = ParseOk code ->
              exists r2 w2, context_eval c args w' = Some (r2, w2)))
  /\ (forall value w1 r w',
        translated cd value w1 r w' ->
        let exception := fst (js_get_exception (context cd) (engine w1)) in
        let text := value_text (snd (js_get_exception (context cd) (engine w1)))
                               (context cd) exception in
        r = PyRaise JSException (utf8_replace (c_str text))
        /\ (utf8_valid (c_str text) = true -> r = PyRaise JSException (c_str text))
        /\ (has_nul text = false ->
            utf8_valid text = true ->
            r = PyRaise JSException text)).
Proof.
  intros Hc. split; [|split; [|split; [|split]]].
  - intros args code Hparse.
    destruct (context_eval_run c cd args code w Hparse Hc)
      as (value & w1 & r & w' & post & Hev & Hc1 & Hq & _ & _ & Hrun).
    exists value, w1, r, w'. split; [exact Hev|]. split; [exact Hrun|].
    apply (translated_of_run c); [now rewrite Hc1 | exact Hq].
  - intros args name Hparse.
    destruct (context_get_run c cd args name w Hparse Hc)
      as (global & w0 & value & w1 & w2 & r & w' & post & Hg & Hp & Hf & Hc2 & Hq & _ & _ & Hrun).
    exists global, w0, value, w1, w2, r, w'.
    split; [exact Hg|]. split; [exact Hp|]. split; [exact Hf|]. split; [exact Hrun|].
    apply (translated_of_run c); [now rewrite Hc2 | exact Hq].
  - intros self args Hself Hcheck.
    destruct (object_call_run self c cd args w Hself Hc Hcheck)
      as (jsargs & w1 & value & w2 & us & w3 & r & w' & post
          & Hconv & _ & _ & Hcall & Hfree & _ & Hc3 & Hq & _ & _ & _ & Hrun).
    exists jsargs, w1, value, w2, us, w3, r, w'.
    split; [exact Hconv|]. split; [exact Hcall|]. split; [exact Hfree|].
    split; [exact Hrun|].
    apply (translated_of_run c); [now rewrite Hc3 | exact Hq].
  - intros value w1 r w' Hc1 (es & Hr & Htr & Hexc & Hctx).
    split; [eexists; exact Hr|]. split.
    + rewrite Htr, drop_app_length. cbn [count_occ].
      repeat (destruct (Event_eq_dec _ _) as [Heq|Hne];
              [try discriminate Heq | try (exfalso; apply Hne; reflexivity)]).
      reflexivity.
    + split; [rewrite Hexc; apply lookup_alter_eq|].
      assert (Hc' : contexts w' !! c = Some cd) by now rewrite Hctx.
      split; [exact Hc'|].
      intros args code Hparse.
      destruct (context_eval_run c cd args code w' Hparse Hc')
        as (v2 & w2' & r2 & w2 & _ & _ & _ & _ & _ & _ & Hrun).
      exists r2, w2. exact Hrun.
  - intros value w1 r w' (es & Hr & _). cbv zeta.
    split; [exact Hr|]. split.
    + intros Hv. now rewrite Hr, (utf8_replace_valid _ Hv).
    + intros Hnul Hv. rewrite Hr, (c_str_no_nul _ Hnul). now rewrite (utf8_replace_valid _ Hv).
Qed.

(** ** The handle's json method *)

(** C10. [object_new], the constructor of the type Object, makes a handle
    with no Context.  For such a handle [object_json] has no outcome at
    all, neither a value nor a Python error: it dereferences the NULL
    [context] at once; [object_call] on the same handle returns None by its
    guard.  With a Context attached and alive, [object_json] runs to its
    end.  So the method is defined exactly when the handle's Context is
    attached and alive. *)
Theorem json_needs_attached_context :
  context_obj object_new = None
  /\ (forall v w, object_json {| context_obj := None; object := v |} w = None)
  /\ (forall v args w,
        object_call {| context_obj := None; object := v |} args w = Some (PyOk Py_None, w))
  /\ (forall self w,
        is_Some (object_json self w)
        <-> exists c cd, context_obj self = Some c /\ contexts w !! c = Some cd).
Proof.
  split; [reflexivity|]. split; [reflexivity|]. split; [reflexivity|].
  intros self w. split.
  - intros [[r w'] Hrun]. unfold object_json in Hrun.
    destruct (context_obj self) as [c|]; [|discriminate].
    apply bind_Some in Hrun as (cd & w1 & Hd & _).
    apply deref_Some in Hd as [Hc _]. now exists c, cd.
  - intros (c & cd & Hself & Hc).
    destruct (object_json_run self c cd w Hself Hc) as (v & w3 & r & w' & post & _ & _ & _ & _ & Hrun).
    rewrite Hrun. now eexists.
Qed.

(** ** The round trip of primitive values *)

Lemma wrap32_small n : INT32_MIN <= n <= INT32_MAX -> int32 n = n.
Proof.
  unfold int32, wrap, INT32_MIN, INT32_MAX. intros H.
  rewrite Z.mod_small; lia.
Qed.

(** C1, as amended. With the Context alive, a Boolean, None, a Float64, an
    Integer that fits 32 bits and a Text that has a UTF-8 encoding with no
    NUL in it come back from the round trip as they went in. *)
Theorem primitive_roundtrip
    (c : nat) (cd : ContextData) (item : PyObject) (w : World) :
  contexts w !! c = Some cd ->
  primitive item = true ->
  exists w', roundtrip c item w = Some (PyOk item, w') /\ contexts w' = contexts w.
Proof.
  intros Hc Hp. unfold roundtrip.
  destruct item as [b|n|d| |s|o|name]; try discriminate Hp;
    unfold convert_arg, quickjs_to_python, JS_NewFloat64, JS_NewString, JS_ToCString,
           JS_FreeCString, JS_FreeValue;
    cbn [PyBool_Check PyLong_Check PyFloat_Check is_Py_None PyUnicode_Check];
    run_with Hc; cbn [JS_VALUE_GET_TAG tag JS_MKVAL JS_NULL js_new_string JS_MKPTR fst snd];
    run_with Hc.
  - eexists. split; [destruct b; reflexivity | reflexivity].
  - unfold primitive in Hp. apply andb_prop in Hp as [Hlo Hhi].
    apply Z.leb_le in Hlo, Hhi.
    assert (Hlong : (LONG_MIN <=? n) && (n <=? LONG_MAX) = true).
    { unfold LONG_MIN, LONG_MAX, INT32_MIN, INT32_MAX in *.
      apply andb_true_intro. split; apply Z.leb_le; lia. }
    unfold PyLong_AsLong. rewrite Hlong.
    unfold JS_VALUE_GET_INT, Py_BuildValue_i. cbn [u].
    change (u (JS_MKVAL JS_TAG_INT n)) with (U_int32 (int32 n)). cbv iota.
    rewrite !(wrap32_small n) by lia.
    eexists. split; reflexivity.
  - eexists. split; reflexivity.
  - eexists. split; reflexivity.
  - rewrite value_text_string.
    unfold primitive in Hp. apply andb_prop in Hp as [Hnul Hutf].
    apply negb_true_iff in Hnul.
    unfold PyUnicode_AsUTF8, Py_BuildValue_s.
    rewrite !(c_str_no_nul s Hnul), (proj2 (utf8_error_valid s 0%nat) Hutf).
    eexists. split; reflexivity.
Qed.

(** ** Lifetimes *)

Lemma Py_INCREF_run c cd w :
  contexts w !! c = Some cd ->
  exists w', Py_INCREF c w = Some (tt, w')
             /\ contexts w' = <[c := incr_ref cd]> (contexts w)
             /\ trace w' = trace w.
Proof.
  intros Hc. unfold Py_INCREF. run_with Hc. eexists. split; [reflexivity|]. split; reflexivity.
Qed.

Lemma Py_DECREF_run c cd w :
  contexts w !! c = Some cd ->
  exists w',
    Py_DECREF c w = Some (tt, w')
    /\ (((ob_refcnt cd <= 1)%nat
         /\ contexts w' = delete c (contexts w)
         /\ trace w' = trace w ++ [EvFreeContext (context cd); EvFreeRuntime (runtime cd)])
        \/ ((1 < ob_refcnt cd)%nat
            /\ contexts w' = <[c := decr_ref cd]> (contexts w)
            /\ trace w' = trace w)).
Proof.
  intros Hc. unfold Py_DECREF. rewrite (bind_run _ _ _ _ _ (deref_run _ _ _ Hc)).
  destruct (ob_refcnt cd <=? 1)%nat eqn:Hle.
  - apply Nat.leb_le in Hle. unfold context_dealloc, JS_FreeContext, JS_FreeRuntime,
      tp_free_context. run_with Hc.
    eexists. split; [reflexivity|]. left. split; [exact Hle|]. split; [reflexivity|].
    simpl. now rewrite <- app_assoc.
  - apply Nat.leb_gt in Hle. unfold store.
    eexists. split; [reflexivity|]. right. split; [exact Hle|]. split; reflexivity.
Qed.

Lemma object_dealloc_run c cd value w :
  contexts w !! c = Some cd ->
  exists w1 w',
    JS_FreeValue (context cd) value w = Some (tt, w1)
    /\ trace w1 = trace w ++ [EvFreeValue (context cd) value]
    /\ contexts w1 = contexts w
    /\ Py_DECREF c w1 = Some (tt, w')
    /\ object_dealloc {| context_obj := Some c; object := value |} w = Some (tt, w').
Proof.
  intros Hc.
  pose proof (api_run (EvFreeValue (context cd) value) (js_free_value value) w) as Hf.
  match type of Hf with _ = Some (_, ?w) => set (w1 := w) in * end.
  assert (Hc1 : contexts w1 !! c = Some cd) by exact Hc.
  destruct (Py_DECREF_run c cd w1 Hc1) as (w' & Hdec & _).
  exists w1, w'. split; [exact Hf|]. split; [reflexivity|]. split; [reflexivity|].
  split; [exact Hdec|].
  unfold object_dealloc. cbn [context_obj object].
  rewrite (bind_run _ _ _ _ _ (deref_run _ _ _ Hc)).
  unfold JS_FreeValue at 1. rewrite (bind_run _ _ _ _ _ Hf). exact Hdec.
Qed.

Lemma context_new_run w :
  exists c cd w',
    context_new w = Some (c, w')
    /\ contexts w !! c = None
    /\ ob_refcnt cd = 1%nat
    /\ contexts w' = <[c := cd]> (contexts w).
Proof.
  unfold context_new, tp_alloc_context, JS_NewRuntime, JS_NewContext.
  unfold bind, store, api, ret. cbn [fst snd engine contexts trace].
  eexists _, _, _. split; [reflexivity|]. split.
  - apply not_elem_of_dom. apply is_fresh.
  - split; [|cbn [contexts]; apply insert_insert_eq]. reflexivity.
Qed.

Lemma handles_on_cons c o hs :
  handles_on c (o :: hs)
  = ((if decide (context_obj o = Some c) then 1 else 0) + handles_on c hs)%nat.
Proof.
  unfold handles_on. rewrite filter_cons.
  destruct (decide (context_obj o = Some c)); reflexivity.
Qed.

Lemma handles_on_app c hs1 hs2 :
  handles_on c (hs1 ++ hs2) = (handles_on c hs1 + handles_on c hs2)%nat.
Proof. unfold handles_on. now rewrite filter_app, length_app. Qed.

Lemma refs_ok_frame w w' hs ow :
  contexts w' = contexts w -> refs_ok (mkHost w hs ow) -> refs_ok (mkHost w' hs ow).
Proof. intros E H c. specialize (H c). simpl in *. now rewrite E. Qed.

Lemma refs_ok_wrap w w' hs ow c cd o :
  refs_ok (mkHost w hs ow) ->
  contexts w !! c = Some cd ->
  contexts w' = <[c := incr_ref cd]> (contexts w) ->
  context_obj o = Some c ->
  refs_ok (mkHost w' (o :: hs) ow).
Proof.
  intros H Hc E Ho c'. specialize (H c'). simpl in *.
  rewrite E, handles_on_cons, Ho.
  destruct (decide (c' = c)) as [->|Hne].
  - rewrite lookup_insert_eq. rewrite Hc in H. destruct H as [H1 H2].
    rewrite decide_True by reflexivity. simpl. lia.
  - rewrite lookup_insert_ne by congruence.
    rewrite decide_False by congruence. exact H.
Qed.

Lemma refs_ok_result w w' hs ow c cd value r :
  refs_ok (mkHost w hs ow) ->
  contexts w !! c = Some cd ->
  ((new_handles r = [] /\ contexts w' = contexts w)
   \/ (new_handles r = [ {| context_obj := Some c; object := value |} ]
       /\ contexts w' = <[c := incr_ref cd]> (contexts w))) ->
  refs_ok (mkHost w' (new_handles r ++ hs) ow).
Proof.
  intros H Hc [[-> E]|[-> E]]; simpl.
  - now apply (refs_ok_frame w).
  - now apply (refs_ok_wrap w w' hs ow c cd).
Qed.

Lemma alive_of_owned w hs ow c n :
  refs_ok (mkHost w hs ow) -> ow !! c = Some (S n) -> exists cd, contexts w !! c = Some cd.
Proof.
  intros H Ho. specialize (H c). simpl in H. unfold owned_refs in H. rewrite Ho in H.
  destruct (contexts w !! c) as [cd|]; [now exists cd|]. destruct H. discriminate.
Qed.

Lemma alive_of_handle w hs1 o hs2 ow c :
  refs_ok (mkHost w (hs1 ++ o :: hs2) ow) ->
  context_obj o = Some c ->
  exists cd, contexts w !! c = Some cd.
Proof.
  intros H Ho. specialize (H c). simpl in H.
  rewrite handles_on_app, handles_on_cons, decide_True in H by exact Ho.
  destruct (contexts w !! c) as [cd|]; [now exists cd|]. destruct H. lia.
Qed.

Lemma check_args_Some i args e :
  check_args i args = Some e -> new_handles e = [].
Proof.
  revert i. induction args as [|x rest IH]; intros i H; [discriminate|].
  destruct x; simpl in H; try (exact (IH _ H)).
  injection H as <-. reflexivity.
Qed.

Lemma refs_ok_decref w w' hs hs' ow ow' c cd :
  refs_ok (mkHost w hs ow) ->
  contexts w !! c = Some cd ->
  (forall c', c' <> c -> owned_refs c' ow' = owned_refs c' ow) ->
  (forall c', c' <> c -> handles_on c' hs' = handles_on c' hs) ->
  (owned_refs c ow' + handles_on c hs' + 1 = ob_refcnt cd)%nat ->
  Py_DECREF c w = Some (tt, w') ->
  refs_ok (mkHost w' hs' ow').
Proof.
  intros H Hc Hown Hhs Hcount Hdec c'.
  destruct (Py_DECREF_run c cd w Hc) as (w0 & Hrun & Hcases).
  rewrite Hdec in Hrun. injection Hrun as <-.
  specialize (H c'). simpl in *.
  destruct (decide (c' = c)) as [->|Hne].
  - destruct Hcases as [(Hle & -> & _)|(Hlt & -> & _)].
    + rewrite lookup_delete_eq. lia.
    + rewrite lookup_insert_eq. simpl. lia.
  - rewrite (Hown c' Hne), (Hhs c' Hne).
    destruct Hcases as [(_ & -> & _)|(_ & -> & _)].
    + rewrite lookup_delete_ne by congruence. exact H.
    + rewrite lookup_insert_ne by congruence. exact H.
Qed.

Lemma owned_refs_insert_eq c n ow : owned_refs c (<[c := n]> ow) = n.
Proof. unfold owned_refs. now rewrite lookup_insert_eq. Qed.

Lemma owned_refs_insert_ne c c' n ow : c' <> c -> owned_refs c' (<[c := n]> ow) = owned_refs c' ow.
Proof. intros H. unfold owned_refs. now rewrite lookup_insert_ne by congruence. Qed.

(** Every step of the program keeps the reference counts right. *)
Lemma step_refs_ok h h' : refs_ok h -> step h h' -> refs_ok h'.
Proof.
  intros H Hstep. destruct Hstep.
  - (* Context() *)
    destruct (context_new_run w) as (c0 & cd & w0 & Hrun & Hfresh & Hone & Hctx).
    rewrite H0 in Hrun. injection Hrun as <- <-.
    intros c'. pose proof (H c') as Hc'. pose proof (H c) as Hcc. simpl in *.
    rewrite Hfresh in Hcc. rewrite Hctx.
    destruct (decide (c' = c)) as [->|Hne].
    + rewrite lookup_insert_eq, owned_refs_insert_eq. lia.
    + rewrite lookup_insert_ne by congruence.
      rewrite owned_refs_insert_ne by exact Hne. exact Hc'.
  - (* one more reference *)
    destruct (alive_of_owned _ _ _ _ _ H H0) as [cd Hc].
    destruct (Py_INCREF_run c cd w Hc) as (w0 & Hrun & Hctx & _).
    rewrite H1 in Hrun. injection Hrun as <-.
    intros c'. pose proof (H c') as Hc'. simpl in *. rewrite Hctx.
    destruct (decide (c' = c)) as [->|Hne].
    + rewrite lookup_insert_eq, owned_refs_insert_eq. rewrite Hc in Hc'.
      unfold owned_refs in Hc'. rewrite H0 in Hc'. simpl in *. lia.
    + rewrite lookup_insert_ne by congruence.
      rewrite owned_refs_insert_ne by exact Hne. exact Hc'.
  - (* a reference dropped *)
    destruct (alive_of_owned _ _ _ _ _ H H0) as [cd Hc].
    apply (refs_ok_decref w w' hs hs ow _ c cd H Hc); [| reflexivity | |exact H1].
    + intros c' Hne. now apply owned_refs_insert_ne.
    + rewrite owned_refs_insert_eq. specialize (H c). simpl in H. rewrite Hc in H.
      unfold owned_refs in H. rewrite H0 in H. simpl in H. lia.
  - (* eval *)
    destruct (alive_of_owned _ _ _ _ _ H H0) as [cd Hc].
    destruct (PyArg_ParseTuple_s args) as [code|exc msg] eqn:Hparse.
    + destruct (context_eval_run c cd args code w Hparse Hc)
        as (value & w1 & r0 & w0 & post & _ & _ & _ & _ & Heff & Hrun).
      rewrite H1 in Hrun. injection Hrun as <- <-.
      exact (refs_ok_result w w' hs ow c cd value r H Hc Heff).
    + unfold context_eval in H1. rewrite Hparse in H1. injection H1 as <- <-. exact H.
  - (* get *)
    destruct (alive_of_owned _ _ _ _ _ H H0) as [cd Hc].
    destruct (PyArg_ParseTuple_s args) as [name|exc msg] eqn:Hparse.
    + destruct (context_get_run c cd args name w Hparse Hc)
        as (global & w0 & value & w1 & w2 & r0 & w3 & post & _ & _ & _ & _ & _ & _ & Heff & Hrun).
      rewrite H1 in Hrun. injection Hrun as <- <-.
      exact (refs_ok_result w w' hs ow c cd value r H Hc Heff).
    + unfold context_get in H1. rewrite Hparse in H1. injection H1 as <- <-. exact H.
  - (* set_memory_limit *)
    destruct (alive_of_owned _ _ _ _ _ H H0) as [cd Hc].
    unfold context_set_memory_limit in H1.
    destruct (PyArg_ParseTuple_n args) as [limit|exc msg].
    + rewrite (bind_run _ _ _ _ _ (deref_run _ _ _ Hc)) in H1.
      unfold JS_SetMemoryLimit in H1. rewrite (bind_run _ _ _ _ _ (api_run _ _ _)) in H1.
      injection H1 as <- <-. apply (refs_ok_frame w); [reflexivity | exact H].
    + injection H1 as <- <-. exact H.
  - (* Object() *)
    intros c. specialize (H c). simpl in *. rewrite handles_on_cons. exact H.
  - (* call *)
    destruct (context_obj self) as [c|] eqn:Hself.
    + destruct (alive_of_handle _ _ _ _ _ _ H Hself) as [cd Hc].
      destruct (check_args 0 args) as [e|] eqn:Hcheck.
      * unfold object_call in H0. rewrite Hself, Hcheck in H0. injection H0 as <- <-.
        rewrite (check_args_Some _ _ _ Hcheck). exact H.
      * destruct (object_call_run self c cd args w Hself Hc Hcheck)
          as (jsargs & w1 & value & w2 & us & w3 & r0 & w0 & post
              & _ & _ & _ & _ & _ & _ & _ & _ & _ & _ & Heff & Hrun).
        rewrite H0 in Hrun. injection Hrun as <- <-.
        exact (refs_ok_result w w' _ ow c cd value r H Hc Heff).
    + unfold object_call in H0. rewrite Hself in H0. injection H0 as <- <-. exact H.
  - (* json *)
    destruct (context_obj self) as [c|] eqn:Hself.
    + destruct (alive_of_handle _ _ _ _ _ _ H Hself) as [cd Hc].
      destruct (object_json_run self c cd w Hself Hc)
        as (value & w3 & r0 & w0 & post & _ & _ & _ & Heff & Hrun).
      rewrite H0 in Hrun. injection Hrun as <- <-.
      exact (refs_ok_result w w' _ ow c cd value r H Hc Heff).
    + unfold object_json in H0. rewrite Hself in H0. discriminate H0.
  - (* an Object deallocated *)
    destruct self as [[c|] value].
    + destruct (alive_of_handle _ _ _ _ _ _ H eq_refl) as [cd Hc].
      destruct (object_dealloc_run c cd value w Hc) as (w1 & w0 & _ & _ & Hc1 & Hdec & Hrun).
      rewrite H0 in Hrun. injection Hrun as <-.
      assert (H1 : refs_ok (mkHost w1 (hs1 ++ {| context_obj := Some c; object := value |} :: hs2) ow))
        by (apply (refs_ok_frame w); [exact Hc1 | exact H]).
      assert (Hc1' : contexts w1 !! c = Some cd) by now rewrite Hc1.
      assert (Hcount : (owned_refs c ow + handles_on c (hs1 ++ hs2) + 1 = ob_refcnt cd)%nat).
      { specialize (H c). simpl in H. rewrite Hc in H.
        rewrite handles_on_app, handles_on_cons, decide_True in H by reflexivity.
        rewrite handles_on_app. lia. }
      apply (refs_ok_decref w1 w' _ (hs1 ++ hs2) ow ow c cd H1 Hc1');
        [reflexivity | | exact Hcount | exact Hdec].
      intros c' Hne. rewrite !handles_on_app, handles_on_cons.
      rewrite decide_False by (simpl; congruence). reflexivity.
    + unfold object_dealloc in H0. simpl in H0. injection H0 as <-.
      intros c. specialize (H c). simpl in *.
      rewrite handles_on_app, handles_on_cons, decide_False in H by discriminate.
      rewrite handles_on_app. exact H.
Qed.

Lemma reachable_refs_ok e0 h : reachable e0 h -> refs_ok h.
Proof.
  induction 1 as [|h h' _ IH Hstep].
  - intros c. simpl. rewrite lookup_empty. split; reflexivity.
  - exact (step_refs_ok h h' IH Hstep).
Qed.

(** C5. (1) The conversion of a value of object type makes the handle: it
    adds one reference to the Context ([Py_INCREF]) and duplicates the
    engine value once for the handle ([JS_DupValue]; the reference that came
    with the value is the one consumed).  (2) Deallocating the handle
    releases the engine value once and drops the one reference to the
    Context, which is deallocated then, and only then, if that was its last
    reference.  (3) In every state a program can reach, the reference count
    of a Context is the number of references the program holds plus the
    number of live handles of that Context.  (4) So in every reachable
    state the Context of every live handle is alive and counts at least its
    live handles; calling the handle, its json method and its deallocation
    all find the Context and run to their end. *)
Theorem handle_keeps_context_alive :
  (forall c cd value w,
      contexts w !! c = Some cd ->
      tag value = JS_TAG_OBJECT ->
      exists w',
        quickjs_to_python c value w
        = Some (PyOk (Py_Object {| context_obj := Some c; object := value |}), w')
        /\ contexts w' = <[c := incr_ref cd]> (contexts w)
        /\ trace w' = trace w ++ [EvDupValue (context cd) value;
                                  EvFreeValue (context cd) value])
  /\ (forall c cd value w,
        contexts w !! c = Some cd ->
        exists w',
          object_dealloc {| context_obj := Some c; object := value |} w = Some (tt, w')
          /\ (((ob_refcnt cd <= 1)%nat
               /\ contexts w' = delete c (contexts w)
               /\ trace w' = trace w ++ [EvFreeValue (context cd) value;
                                         EvFreeContext (context cd);
                                         EvFreeRuntime (runtime cd)])
              \/ ((1 < ob_refcnt cd)%nat
                  /\ contexts w' = <[c := decr_ref cd]> (contexts w)
                  /\ trace w' = trace w ++ [EvFreeValue (context cd) value])))
  /\ (forall e0 h, reachable e0 h -> refs_ok h)
  /\ (forall e0 h o c,
        reachable e0 h ->
        In o (handles h) ->
        context_obj o = Some c ->
        exists cd,
          contexts (world h) !! c = Some cd
          /\ (1 <= handles_on c (handles h) <= ob_refcnt cd)%nat
          /\ (forall args, is_Some (object_call o args (world h)))
          /\ is_Some (object_json o (world h))
          /\ is_Some (object_dealloc o (world h))).
Proof.
  split; [exact quickjs_to_python_object|]. split; [|split; [exact reachable_refs_ok|]].
  - intros c cd value w Hc.
    destruct (object_dealloc_run c cd value w Hc) as (w1 & w' & _ & Ht1 & Hc1 & Hdec & Hrun).
    assert (Hc1' : contexts w1 !! c = Some cd) by now rewrite Hc1.
    destruct (Py_DECREF_run c cd w1 Hc1') as (w0 & Hdec' & Hcases).
    rewrite Hdec in Hdec'. injection Hdec' as <-.
    exists w'. split; [exact Hrun|].
    destruct Hcases as [(Hle & Hctx & Ht)|(Hlt & Hctx & Ht)]; [left | right];
      (split; [assumption|]); (split; [now rewrite Hctx, Hc1|]);
      rewrite Ht, Ht1; [now rewrite <- app_assoc | reflexivity].
  - intros e0 h o c Hreach Hin Ho.
    pose proof (reachable_refs_ok e0 h Hreach) as Hok.
    destruct h as [w hs ow]. simpl in *.
    apply in_split in Hin as (hs1 & hs2 & ->).
    destruct (alive_of_handle _ _ _ _ _ _ Hok Ho) as [cd Hc].
    exists cd. split; [exact Hc|]. split.
    + specialize (Hok c). simpl in Hok. rewrite Hc in Hok.
      rewrite handles_on_app, handles_on_cons, decide_True in * by exact Ho. lia.
    + split; [|split].
      * intros args. destruct (check_args 0 args) as [e|] eqn:Hcheck.
        -- unfold object_call. rewrite Ho, Hcheck. now eexists.
        -- destruct (object_call_run o c cd args w Ho Hc Hcheck)
             as (? & ? & ? & ? & ? & ? & r & w' & ? & Hrun).
           destruct Hrun as (_ & _ & _ & _ & _ & _ & _ & _ & _ & _ & _ & Hrun).
           rewrite Hrun. now eexists.
      * destruct (object_json_run o c cd w Ho Hc) as (? & ? & r & w' & ? & _ & _ & _ & _ & Hrun).
        rewrite Hrun. now eexists.
      * destruct o as [oc value]. simpl in Ho. subst oc.
        destruct (object_dealloc_run c cd value w Hc) as (w1 & w' & _ & _ & _ & _ & Hrun).
        rewrite Hrun. now eexists.
Qed.

(** ** More on [quickjs_to_python] *)

Lemma quickjs_to_python_shape c cd value w :
  contexts w !! c = Some cd ->
  exists r w' pre,
    quickjs_to_python c value w = Some (r, w')
    /\ trace w' = trace w ++ pre ++ [EvFreeValue (context cd) value]
    /\ Forall (fun ev => is_invocation ev = false) pre
    /\ (tag value <> JS_TAG_EXCEPTION ->
        Forall (fun ev => is_free ev = false) pre
        /\ js_exception (engine w') = js_exception (engine w))
    /\ (tag value <> JS_TAG_EXCEPTION ->
        tag value <> JS_TAG_STRING ->
        Forall (fun ev => runs_script ev = false) pre)
    /\ (tag value = JS_TAG_STRING ->
        pre = [EvToCString (context cd) value;
               EvFreeCString (context cd)
                 (c_str (value_text (engine w) (context cd) value))]).
Proof.
  intros Hc.
  destruct (tag value) eqn:Ht;
    unfold quickjs_to_python, JS_VALUE_GET_TAG; rewrite Ht;
    unfold Py_INCREF, JS_GetException, JS_ToString, JS_ToCString, JS_FreeCString,
           JS_DupValue, JS_FreeValue;
    run_with Hc.
  1-4, 6, 9: eexists _, _, []; (split; [reflexivity|]); cbn [trace engine];
    (split; [reflexivity|]); (split; [constructor|]);
    (split; [intros _; split; [constructor | now rewrite js_free_value_exception]|]);
    (split; [intros _ _; constructor | discriminate]).
  - (* the exception marker *)
    eexists _, _, [_; _; _; _; _; _]. split; [reflexivity|]. cbn [trace].
    split; [rewrite <- !app_assoc; reflexivity|].
    split; [repeat constructor|].
    split; [intros Hne; congruence|]. split; [intros Hne; congruence | discriminate].
  - (* a string *)
    eexists _, _, [_; _]. split; [reflexivity|]. cbn [trace engine].
    split; [rewrite <- !app_assoc; reflexivity|].
    split; [repeat constructor|].
    split; [intros _; split; [repeat constructor | now rewrite js_free_value_exception]|].
    split; [intros _ Hne; congruence | intros _; reflexivity].
  - (* an object *)
    eexists _, _, [_]. split; [reflexivity|]. cbn [trace engine].
    split; [rewrite <- !app_assoc; reflexivity|].
    split; [repeat constructor|].
    split; [intros _; split; [repeat constructor|];
            now rewrite js_free_value_exception, js_dup_value_exception|].
    split; [intros _ _; repeat constructor | discriminate].
Qed.

(** X1. Whatever the tag of the value, the conversion takes ownership of
    it: its last engine call is the [JS_FreeValue] of the value, and no
    call before that evaluates source text, calls a function or looks a
    property up.  Unless the value carries the exception marker, nothing
    else is released and every pending-exception slot is left as it was.
    For a string the calls before the release are the reading of its text
    as a C string and the freeing of that C string; for a value that is
    neither a string nor the exception marker, no call before the release
    is one whose outcome the interpreter decides. *)
Theorem conversion_consumes_value (c : nat) (cd : ContextData) (value : JSValue) (w : World) :
  contexts w !! c = Some cd ->
  exists r w' pre,
    quickjs_to_python c value w = Some (r, w')
    /\ trace w' = trace w ++ pre ++ [EvFreeValue (context cd) value]
    /\ Forall (fun ev => is_invocation ev = false) pre
    /\ (tag value <> JS_TAG_EXCEPTION ->
        Forall (fun ev => is_free ev = false) pre
        /\ js_exception (engine w') = js_exception (engine w))
    /\ (tag value <> JS_TAG_EXCEPTION ->
        tag value <> JS_TAG_STRING ->
        Forall (fun ev => runs_script ev = false) pre)
    /\ (tag value = JS_TAG_STRING ->
        pre = [EvToCString (context cd) value;
               EvFreeCString (context cd)
                 (c_str (value_text (engine w) (context cd) value))]).
Proof. exact (quickjs_to_python_shape c cd value w). Qed.

Lemma quickjs_to_python_handle c value w o w' :
  quickjs_to_python c value w = Some (PyOk (Py_Object o), w') ->
  tag value = JS_TAG_OBJECT /\ o = {| context_obj := Some c; object := value |}.
Proof.
  intros Hrun. unfold quickjs_to_python in Hrun.
  apply bind_Some in Hrun as (cd & w0 & Hd & Hrun).
  apply deref_Some in Hd as [Hc ->].
  destruct (decide (tag value = JS_TAG_OBJECT)) as [Ht|Ht].
  - split; [exact Ht|].
    destruct (quickjs_to_python_object c cd value w Hc Ht) as (w1 & Hrun1 & _).
    unfold quickjs_to_python in Hrun1.
    rewrite (bind_run _ _ _ _ _ (deref_run _ _ _ Hc)) in Hrun1.
    rewrite Hrun in Hrun1. now injection Hrun1 as -> _.
  - exfalso. unfold JS_VALUE_GET_TAG in Hrun.
    destruct (tag value); try (now apply Ht);
      unfold JS_GetException, JS_ToString, JS_ToCString, JS_FreeCString, JS_FreeValue in Hrun;
      repeat (rewrite (bind_run _ _ _ _ _ (api_run _ _ _)) in Hrun);
      unfold bind, ret, Py_BuildValue_s in Hrun; cbn in Hrun;
      try (destruct (JS_VALUE_GET_BOOL value =? 0));
      try (destruct (utf8_error _ _));
      discriminate Hrun.
Qed.

(** X2. The conversion makes a handle exactly for the values of object
    type.  For such a value the handle wraps that very value and belongs to
    the Context the conversion ran for; for every other value the result is
    no handle and the reference counts of the host's Contexts are as
    before. *)
Theorem conversion_makes_handle_iff_object
    (c : nat) (cd : ContextData) (value : JSValue) (w : World) :
  contexts w !! c = Some cd ->
  exists r w',
    quickjs_to_python c value w = Some (r, w')
    /\ ((exists o, r = PyOk (Py_Object o)) <-> tag value = JS_TAG_OBJECT)
    /\ (tag value = JS_TAG_OBJECT ->
        r = PyOk (Py_Object {| context_obj := Some c; object := value |}))
    /\ (tag value <> JS_TAG_OBJECT -> contexts w' = contexts w).
Proof.
  intros Hc.
  destruct (quickjs_to_python_run c cd value w Hc) as (r & w' & post & Hrun & _ & _ & Heff).
  exists r, w'. split; [exact Hrun|].
  destruct (decide (tag value = JS_TAG_OBJECT)) as [Ht|Ht].
  - destruct (quickjs_to_python_object c cd value w Hc Ht) as (w0 & Hrun0 & _).
    rewrite Hrun in Hrun0. injection Hrun0 as -> <-.
    split; [split; [intros _; exact Ht | intros _; now eexists]|].
    split; [reflexivity | contradiction].
  - assert (Hnone : new_handles r = [] /\ contexts w' = contexts w).
    { destruct Heff as [Hl|[Hr Hctx]]; [exact Hl|].
      exfalso. apply Ht.
      destruct r as [[ | | | | |o| ]|]; try discriminate Hr.
      injection Hr as ->.
      unfold quickjs_to_python, JS_VALUE_GET_TAG in Hrun.
      rewrite (bind_run _ _ _ _ _ (deref_run _ _ _ Hc)) in Hrun.
      destruct (tag value); try reflexivity;
        unfold JS_GetException, JS_ToString, JS_ToCString, JS_FreeCString, JS_FreeValue in Hrun;
        repeat (rewrite (bind_run _ _ _ _ _ (api_run _ _ _)) in Hrun);
        unfold bind, ret, Py_BuildValue_s in Hrun; cbn in Hrun;
        try (destruct (JS_VALUE_GET_BOOL value =? 0));
        try (destruct (utf8_error _ _));
        discriminate Hrun. }
    destruct Hnone as [Hnh Hctx].
    split; [split; [|contradiction]|split; [contradiction | intros _; exact Hctx]].
    intros [o ->]. discriminate Hnh.
Qed.

(** X3. A value whose tag is none of those the module knows raises
    ValueError with the message "Unknown quickjs tag: " and the number of
    the tag, not the module's JSException; the value is still released,
    which is the only engine call made, and the host's Contexts and the
    pending-exception slots are untouched. *)
Theorem unknown_tag_raises_value_error
    (c : nat) (cd : ContextData) (value : JSValue) (t : Z) (w : World) :
  contexts w !! c = Some cd ->
  tag value = JS_TAG_OTHER t ->
  exists w',
    quickjs_to_python c value w
    = Some (PyRaise PyExc_ValueError ("Unknown quickjs tag: " +:+ fmt_d t), w')
    /\ trace w' = trace w ++ [EvFreeValue (context cd) value]
    /\ contexts w' = contexts w
    /\ js_exception (engine w') = js_exception (engine w).
Proof.
  intros Hc Ht. unfold quickjs_to_python, JS_VALUE_GET_TAG. rewrite Ht.
  unfold JS_FreeValue. run_with Hc.
  eexists. split; [reflexivity|]. cbn [trace contexts engine].
  split; [reflexivity|]. split; [reflexivity|]. apply js_free_value_exception.
Qed.

(** X4. A string value is read as a C string, that is up to the first NUL
    of the text its cell holds, and decoded strictly: it comes back as that
    text when the text is well-formed UTF-8 and raises the decoder's
    UnicodeDecodeError when it is not.  Either way the engine calls are
    [JS_ToCString], [JS_FreeCString] and the release of the value, after
    which the cell has one reference less (and is gone if that was its
    last). *)
Theorem string_result_is_copied_and_released
    (c : nat) (cd : ContextData) (p n : nat) (s : string) (w : World) :
  contexts w !! c = Some cd ->
  js_heap (engine w) !! p = Some (mkJSCell n (JSStringData s)) ->
  exists r w',
    quickjs_to_python c (JS_MKPTR JS_TAG_STRING p) w = Some (r, w')
    /\ (utf8_valid (c_str s) = true -> r = PyOk (Py_Unicode (c_str s)))
    /\ (utf8_valid (c_str s) = false ->
        exists msg, utf8_error 0 (c_str s) = Some msg
                    /\ r = PyRaise PyExc_UnicodeDecodeError msg)
    /\ trace w' = trace w ++ [EvToCString (context cd) (JS_MKPTR JS_TAG_STRING p);
                              EvFreeCString (context cd) (c_str s);
                              EvFreeValue (context cd) (JS_MKPTR JS_TAG_STRING p)]
    /\ js_heap (engine w') = release p (js_heap (engine w))
    /\ contexts w' = contexts w.
Proof.
  intros Hc Hp. unfold quickjs_to_python, JS_VALUE_GET_TAG. cbn [tag JS_MKPTR].
  unfold JS_ToCString, JS_FreeCString, JS_FreeValue. run_with Hc.
  assert (Htext : value_text (engine w) (context cd) (JS_MKPTR JS_TAG_STRING p) = s).
  { unfold value_text. cbn. now rewrite Hp. }
  rewrite Htext. unfold Py_BuildValue_s. rewrite c_str_idem.
  eexists _, _. split; [reflexivity|]. cbn [trace contexts engine].
  split; [intros Hv; now rewrite (proj2 (utf8_error_valid _ 0%nat) Hv)|].
  split.
  { intros Hv. destruct (utf8_error 0 (c_str s)) as [msg|] eqn:He; [now exists msg|].
    apply utf8_error_valid in He. congruence. }
  split; [rewrite <- !app_assoc; reflexivity|]. split; reflexivity.
Qed.

(** ** The life of a Context *)

(** X5. Creating a Context and dropping its only reference undoes itself:
    the new instance sits at an address that was free, with one reference;
    deallocation frees the engine context first and the runtime second;
    afterwards the host's Contexts, the engine's runtimes, its contexts and
    their slots, and its heap are what they were. *)
Theorem context_create_then_destroy (w : World) :
  exists c cd w1 w2,
    context_new w = Some (c, w1)
    /\ contexts w !! c = None
    /\ contexts w1 !! c = Some cd
    /\ ob_refcnt cd = 1%nat
    /\ (runtime cd ∉ js_runtimes (engine w))
    /\ js_exception (engine w) !! context cd = None
    /\ js_exception (engine w1) !! context cd = Some JS_NULL
    /\ Py_DECREF c w1 = Some (tt, w2)
    /\ trace w2 = trace w ++ [EvNewRuntime; EvNewContext (runtime cd);
                              EvFreeContext (context cd); EvFreeRuntime (runtime cd)]
    /\ contexts w2 = contexts w
    /\ js_runtimes (engine w2) = js_runtimes (engine w)
    /\ js_exception (engine w2) = js_exception (engine w)
    /\ js_heap (engine w2) = js_heap (engine w).
Proof.
  set (c := fresh (dom (contexts w))).
  set (rt := fresh (js_runtimes (engine w))).
  set (ctx := fresh (dom (js_exception (engine w)))).
  set (cd := mkContextData 1 rt ctx).
  assert (Hc : contexts w !! c = None) by (apply not_elem_of_dom, is_fresh).
  assert (Hrt : rt ∉ js_runtimes (engine w)) by apply is_fresh.
  assert (Hctx : js_exception (engine w) !! ctx = None) by (apply not_elem_of_dom, is_fresh).
  assert (Hnew : exists w1,
             context_new w = Some (c, w1)
             /\ contexts w1 = <[c := cd]> (contexts w)
             /\ js_heap (engine w1) = js_heap (engine w)
             /\ js_runtimes (engine w1) = {[rt]} ∪ js_runtimes (engine w)
             /\ js_exception (engine w1) = <[ctx := JS_NULL]> (js_exception (engine w))
             /\ trace w1 = trace w ++ [EvNewRuntime; EvNewContext rt]).
  { eexists. split; [reflexivity|]. cbn.
    split; [apply insert_insert_eq|]. split; [reflexivity|]. split; [reflexivity|].
    split; [reflexivity|]. now rewrite <- app_assoc. }
  destruct Hnew as (w1 & Hnew & Hc1 & Hh1 & Hr1 & He1 & Ht1).
  assert (Hcd : contexts w1 !! c = Some cd) by (rewrite Hc1; apply lookup_insert_eq).
  exists c, cd, w1. eexists.
  split; [exact Hnew|]. split; [exact Hc|]. split; [exact Hcd|]. split; [reflexivity|].
  split; [exact Hrt|]. split; [exact Hctx|].
  split; [rewrite He1; apply lookup_insert_eq|].
  unfold Py_DECREF. rewrite (bind_run _ _ _ _ _ (deref_run _ _ _ Hcd)).
  cbn [cd ob_refcnt Nat.leb].
  unfold context_dealloc. rewrite (bind_run _ _ _ _ _ (deref_run _ _ _ Hcd)).
  unfold JS_FreeContext, JS_FreeRuntime.
  repeat (rewrite (bind_run _ _ _ _ _ (api_run _ _ _))).
  unfold tp_free_context.
  split; [reflexivity|].
  cbn [trace contexts engine fst snd js_free_context js_free_runtime
       js_heap js_runtimes js_exception cd runtime context].
  rewrite Ht1, Hc1, Hh1, Hr1, He1.
  split; [now rewrite <- !app_assoc|].
  split; [now apply delete_insert_id|].
  split; [apply set_eq; intros x; rewrite elem_of_difference, elem_of_union,
            elem_of_singleton; split; [tauto | intros Hx; split; [tauto | congruence]]|].
  split; [now apply delete_insert_id | reflexivity].
Qed.

(** ** The traces of eval, get and json *)

(** X6. A successful parse makes eval evaluate the source text once, as a C
    string, in the Context's own engine context; this is the first engine
    call.  The result of eval is the conversion of the very value the
    evaluation gave, in the state the evaluation left.  The last call is
    the release of that value, and between the two nothing is evaluated,
    called or looked up; when the value is neither a string nor the
    exception marker, no call in between is one whose outcome the
    interpreter decides.  A failed parse returns the parser's error in an
    unchanged world. *)
Theorem eval_evaluates_once (c : nat) (cd : ContextData) (args : list PyObject) (w : World) :
  contexts w !! c = Some cd ->
  match PyArg_ParseTuple_s args with
  | ParseOk code =>
      exists value e1 r w' pre,
        context_eval c args w = Some (r, w')
        /\ script_eval (engine w) (context cd) (c_str code) = (value, e1)
        /\ quickjs_to_python c value
             (mkWorld e1 (contexts w) (trace w ++ [EvEval (context cd) (c_str code)]))
           = Some (r, w')
        /\ trace w' = trace w ++ [EvEval (context cd) (c_str code)] ++ pre
                      ++ [EvFreeValue (context cd) value]
        /\ Forall (fun ev => is_invocation ev = false) pre
        /\ (tag value <> JS_TAG_EXCEPTION ->
            tag value <> JS_TAG_STRING ->
            Forall (fun ev => runs_script ev = false) pre)
  | ParseError exc msg => context_eval c args w = Some (PyRaise exc msg, w)
  end.
Proof.
  intros Hc. destruct (PyArg_ParseTuple_s args) as [code|exc msg] eqn:Hparse.
  - destruct (script_eval (engine w) (context cd) (c_str code)) as [value e1] eqn:Hev.
    set (w1 := mkWorld e1 (contexts w) (trace w ++ [EvEval (context cd) (c_str code)])).
    assert (Hc1 : contexts w1 !! c = Some cd) by exact Hc.
    destruct (quickjs_to_python_shape c cd value w1 Hc1)
      as (r & w' & pre & Hq & Ht & Hinv & _ & Hquiet & _).
    exists value, e1, r, w', pre.
    split.
    { unfold context_eval. rewrite Hparse, (bind_run _ _ _ _ _ (deref_run _ _ _ Hc)).
      unfold JS_Eval. rewrite (bind_run _ _ _ _ _ (api_run _ _ _)), Hev. exact Hq. }
    split; [reflexivity|]. split; [exact Hq|].
    split; [rewrite Ht; unfold w1; cbn [trace]; now rewrite <- !app_assoc|].
    split; assumption.
  - unfold context_eval. now rewrite Hparse.
Qed.

(** X7. A successful parse makes get take the global object, read the
    property of that name (as a C string) from the global object it was
    given, and release the global object, in this order.  The result of get
    is the conversion of the very value the property read gave, in the
    state these three calls left.  The last call is the release of that
    value, and the conversion evaluates, calls and looks up nothing; when
    the value is neither a string nor the exception marker, it makes no
    call whose outcome the interpreter decides.  A failed parse returns the
    parser's error in an unchanged world. *)
Theorem get_reads_global_property
    (c : nat) (cd : ContextData) (args : list PyObject) (w : World) :
  contexts w !! c = Some cd ->
  match PyArg_ParseTuple_s args with
  | ParseOk name =>
      exists global e0 value e1 r w' pre,
        context_get c args w = Some (r, w')
        /\ script_global (engine w) (context cd) = (global, e0)
        /\ script_get_property e0 (context cd) global (c_str name) = (value, e1)
        /\ quickjs_to_python c value
             (mkWorld (snd (js_free_value global e1)) (contexts w)
                      (trace w ++ [EvGetGlobalObject (context cd);
                                   EvGetPropertyStr (context cd) global (c_str name);
                                   EvFreeValue (context cd) global]))
           = Some (r, w')
        /\ trace w' = trace w ++ [EvGetGlobalObject (context cd);
                                  EvGetPropertyStr (context cd) global (c_str name);
                                  EvFreeValue (context cd) global]
                      ++ pre ++ [EvFreeValue (context cd) value]
        /\ Forall (fun ev => is_invocation ev = false) pre
        /\ (tag value <> JS_TAG_EXCEPTION ->
            tag value <> JS_TAG_STRING ->
            Forall (fun ev => runs_script ev = false) pre)
  | ParseError exc msg => context_get c args w = Some (PyRaise exc msg, w)
  end.
Proof.
  intros Hc. destruct (PyArg_ParseTuple_s args) as [name|exc msg] eqn:Hparse.
  - destruct (script_global (engine w) (context cd)) as [global e0] eqn:Hg.
    destruct (script_get_property e0 (context cd) global (c_str name)) as [value e1] eqn:Hp.
    set (w2 := mkWorld (snd (js_free_value global e1)) (contexts w)
                       (trace w ++ [EvGetGlobalObject (context cd);
                                    EvGetPropertyStr (context cd) global (c_str name);
                                    EvFreeValue (context cd) global])).
    assert (Hc2 : contexts w2 !! c = Some cd) by exact Hc.
    destruct (quickjs_to_python_shape c cd value w2 Hc2)
      as (r & w' & pre & Hq & Ht & Hinv & _ & Hquiet & _).
    exists global, e0, value, e1, r, w', pre.
    split.
    { unfold context_get. rewrite Hparse, (bind_run _ _ _ _ _ (deref_run _ _ _ Hc)).
      unfold JS_GetGlobalObject, JS_GetPropertyStr, JS_FreeValue.
      rewrite (bind_run _ _ _ _ _ (api_run _ _ _)), Hg. cbn [fst snd engine].
      rewrite (bind_run _ _ _ _ _ (api_run _ _ _)). cbn [fst snd engine].
      rewrite Hp. cbn [fst snd engine].
      rewrite (bind_run _ _ _ _ _ (api_run _ _ _)). cbn [fst snd engine contexts trace].
      rewrite <- !app_assoc. exact Hq. }
    split; [reflexivity|]. split; [exact Hp|]. split; [exact Hq|].
    split; [rewrite Ht; unfold w2; cbn [trace]; now rewrite <- !app_assoc|].
    split; assumption.
  - unfold context_get. now rewrite Hparse.
Qed.

(** X8. The json method of a handle with a live Context takes the global
    object, reads "JSON" from the global object it was given and
    "stringify" from the JSON it was given, and calls that stringify with
    that JSON as [this] and the handle's value as its one argument; then it
    releases the three values it looked up, each once.  Its result is the
    conversion of the very value the call gave, in the state left by these
    seven calls; the conversion ends with the release of that value and
    evaluates, calls and looks up nothing. *)
Theorem json_calls_stringify (self : ObjectData) (c : nat) (cd : ContextData) (w : World) :
  context_obj self = Some c ->
  contexts w !! c = Some cd ->
  exists global e0 JSON e1 stringify e2 json_string e3 r w' pre,
    object_json self w = Some (r, w')
    /\ script_global (engine w) (context cd) = (global, e0)
    /\ script_get_property e0 (context cd) global "JSON" = (JSON, e1)
    /\ script_get_property e1 (context cd) JSON "stringify" = (stringify, e2)
    /\ script_call e2 (context cd) stringify JSON [object self] = (json_string, e3)
    /\ quickjs_to_python c json_string
         (mkWorld (snd (js_free_value stringify
                          (snd (js_free_value JSON (snd (js_free_value global e3))))))
                  (contexts w)
                  (trace w ++ [EvGetGlobalObject (context cd);
                               EvGetPropertyStr (context cd) global "JSON";
                               EvGetPropertyStr (context cd) JSON "stringify";
                               EvCall (context cd) stringify JSON [object self];
                               EvFreeValue (context cd) global;
                               EvFreeValue (context cd) JSON;
                               EvFreeValue (context cd) stringify]))
       = Some (r, w')
    /\ trace w' = trace w ++ [EvGetGlobalObject (context cd);
                              EvGetPropertyStr (context cd) global "JSON";
                              EvGetPropertyStr (context cd) JSON "stringify";
                              EvCall (context cd) stringify JSON [object self];
                              EvFreeValue (context cd) global;
                              EvFreeValue (context cd) JSON;
                              EvFreeValue (context cd) stringify]
                  ++ pre ++ [EvFreeValue (context cd) json_string]
    /\ Forall (fun ev => is_invocation ev = false) pre.
Proof.
  intros Hself Hc.
  destruct (script_global (engine w) (context cd)) as [global e0] eqn:Hg.
  destruct (script_get_property e0 (context cd) global "JSON") as [JSON e1] eqn:Hj.
  destruct (script_get_property e1 (context cd) JSON "stringify") as [stringify e2] eqn:Hs.
  destruct (script_call e2 (context cd) stringify JSON [object self])
    as [json_string e3] eqn:Hcall.
  set (w3 := mkWorld (snd (js_free_value stringify
                             (snd (js_free_value JSON (snd (js_free_value global e3))))))
                     (contexts w)
                     (trace w ++ [EvGetGlobalObject (context cd);
                                  EvGetPropertyStr (context cd) global "JSON";
                                  EvGetPropertyStr (context cd) JSON "stringify";
                                  EvCall (context cd) stringify JSON [object self];
                                  EvFreeValue (context cd) global;
                                  EvFreeValue (context cd) JSON;
                                  EvFreeValue (context cd) stringify])).
  assert (Hc3 : contexts w3 !! c = Some cd) by exact Hc.
  destruct (quickjs_to_python_shape c cd json_string w3 Hc3)
    as (r & w' & pre & Hq & Ht & Hinv & _).
  exists global, e0, JSON, e1, stringify, e2, json_string, e3, r, w', pre.
  split.
  { unfold object_json. rewrite Hself, (bind_run _ _ _ _ _ (deref_run _ _ _ Hc)).
    unfold JS_GetGlobalObject, JS_GetPropertyStr, JS_Call, JS_FreeValue.
    rewrite (bind_run _ _ _ _ _ (api_run _ _ _)), Hg. cbn [fst snd engine].
    rewrite (bind_run _ _ _ _ _ (api_run _ _ _)). cbn [fst snd engine]. rewrite Hj.
    cbn [fst snd engine].
    rewrite (bind_run _ _ _ _ _ (api_run _ _ _)). cbn [fst snd engine]. rewrite Hs.
    cbn [fst snd engine].
    rewrite (bind_run _ _ _ _ _ (api_run _ _ _)). cbn [fst snd engine]. rewrite Hcall.
    cbn [fst snd engine].
    repeat (rewrite (bind_run _ _ _ _ _ (api_run _ _ _)); cbn [fst snd engine contexts trace]).
    rewrite <- !app_assoc. exact Hq. }
  split; [reflexivity|]. split; [exact Hj|]. split; [exact Hs|]. split; [exact Hcall|].
  split; [exact Hq|].
  split; [rewrite Ht; unfold w3; cbn [trace]; now rewrite <- !app_assoc|].
  exact Hinv.
Qed.

(** ** The life of a handle *)

Lemma release_retain p h : heap_ok h -> release p (retain p h) = h.
Proof.
  intros Hok. unfold retain. destruct (h !! p) as [[n pl]|] eqn:Hp.
  - unfold release. rewrite lookup_insert_eq. cbn [ref_count payload].
    pose proof (Hok p _ Hp) as Hn. cbn [ref_count] in Hn.
    destruct n as [|n]; [lia|]. cbn [Nat.leb].
    rewrite insert_insert_eq.
    replace (S (S n) - 1)%nat with (S n) by lia.
    now apply insert_id.
  - unfold release. now rewrite Hp.
Qed.

Lemma js_heap_free_value v (e : Engine) :
  js_heap (snd (js_free_value v e)) = release_value v (js_heap e).
Proof.
  unfold js_free_value, release_value. cbn [snd].
  destruct (JS_VALUE_HAS_REF_COUNT v); [|reflexivity].
  destruct (JS_VALUE_GET_PTR v); reflexivity.
Qed.

Lemma js_heap_free_dup_value v (e : Engine) :
  heap_ok (js_heap e) ->
  js_heap (snd (js_free_value v (snd (js_dup_value v e)))) = js_heap e.
Proof.
  intros Hok. unfold js_free_value, js_dup_value. cbn [snd].
  destruct (JS_VALUE_HAS_REF_COUNT v); [|reflexivity].
  destruct (JS_VALUE_GET_PTR v) as [p|]; [|reflexivity].
  cbn [js_heap set_heap]. now apply release_retain.
Qed.

Lemma decr_incr_ref cd : decr_ref (incr_ref cd) = cd.
Proof.
  destruct cd as [n rt ctx]. unfold decr_ref, incr_ref. cbn [ob_refcnt runtime context].
  now rewrite Nat.sub_succ, Nat.sub_0_r.
Qed.

(** X9. Making a handle and deallocating it again.  For a value of object
    type, in a heap whose cells all have a reference and with a Context
    that has one: the conversion leaves the heap as it is (the reference
    that came with the value is now the handle's) and counts one more
    reference on the Context; deallocating the handle then puts the
    Context's count back, keeps the Context alive, and releases the value
    once.  The engine calls are one duplication and two releases of the
    value, and none that frees a context or a runtime. *)
Theorem handle_wrap_then_dealloc (c : nat) (cd : ContextData) (value : JSValue) (w : World) :
  contexts w !! c = Some cd ->
  (1 <= ob_refcnt cd)%nat ->
  tag value = JS_TAG_OBJECT ->
  heap_ok (js_heap (engine w)) ->
  exists w1 w2,
    quickjs_to_python c value w
    = Some (PyOk (Py_Object {| context_obj := Some c; object := value |}), w1)
    /\ js_heap (engine w1) = js_heap (engine w)
    /\ (ob_refcnt <$> contexts w1 !! c) = Some (S (ob_refcnt cd))
    /\ object_dealloc {| context_obj := Some c; object := value |} w1 = Some (tt, w2)
    /\ contexts w2 = contexts w
    /\ js_heap (engine w2) = release_value value (js_heap (engine w))
    /\ trace w2 = trace w ++ [EvDupValue (context cd) value;
                              EvFreeValue (context cd) value;
                              EvFreeValue (context cd) value].
Proof.
  intros Hc Hn Ht Hok.
  assert (Hwrap : exists w1,
             quickjs_to_python c value w
             = Some (PyOk (Py_Object {| context_obj := Some c; object := value |}), w1)
             /\ contexts w1 = <[c := incr_ref cd]> (contexts w)
             /\ engine w1 = snd (js_free_value value (snd (js_dup_value value (engine w))))
             /\ trace w1 = trace w ++ [EvDupValue (context cd) value;
                                       EvFreeValue (context cd) value]).
  { unfold quickjs_to_python, JS_VALUE_GET_TAG. rewrite Ht.
    unfold Py_INCREF, JS_DupValue, JS_FreeValue. run_with Hc.
    eexists. split; [reflexivity|]. cbn [contexts engine trace].
    split; [reflexivity|]. split; [reflexivity|]. now rewrite <- app_assoc. }
  destruct Hwrap as (w1 & Hrun1 & Hc1 & He1 & Ht1).
  assert (Hcd1 : contexts w1 !! c = Some (incr_ref cd))
    by (rewrite Hc1; apply lookup_insert_eq).
  assert (Hh1 : js_heap (engine w1) = js_heap (engine w))
    by (rewrite He1; now apply js_heap_free_dup_value).
  exists w1. eexists. split; [exact Hrun1|]. split; [exact Hh1|].
  split; [now rewrite Hcd1|].
  unfold object_dealloc. cbn [context_obj object].
  rewrite (bind_run _ _ _ _ _ (deref_run _ _ _ Hcd1)).
  unfold JS_FreeValue. rewrite (bind_run _ _ _ _ _ (api_run _ _ _)).
  unfold Py_DECREF.
  match goal with
  | |- context [bind (deref c) _ ?w'] =>
      assert (Hcd2 : contexts w' !! c = Some (incr_ref cd)) by exact Hcd1;
      rewrite (bind_run _ _ _ _ _ (deref_run _ _ _ Hcd2))
  end.
  assert (Hle : (ob_refcnt (incr_ref cd) <=? 1)%nat = false).
  { apply Nat.leb_gt. cbn [incr_ref ob_refcnt]. lia. }
  rewrite Hle. unfold store.
  split; [reflexivity|]. cbn [contexts engine trace incr_ref context].
  split; [rewrite Hc1, insert_insert_eq, decr_incr_ref; now apply insert_id|].
  split; [now rewrite js_heap_free_value, Hh1|].
  rewrite Ht1. now rewrite <- app_assoc.
Qed.


(** X11. The translation of an exception leaves nothing of its own in the
    engine's heap: the string made for the message has a fresh cell, which
    is gone again at the end; the heap is the one before with the pending
    exception and the marker released. *)
Theorem exception_translation_frees_its_string
    (c : nat) (cd : ContextData) (value : JSValue) (w : World) :
  contexts w !! c = Some cd ->
  tag value = JS_TAG_EXCEPTION ->
  exists msg w',
    quickjs_to_python c value w = Some (PyRaise JSException msg, w')
    /\ js_heap (engine w')
       = release_value value
           (release_value (default JS_NULL (js_exception (engine w) !! context cd))
                          (js_heap (engine w)))
    /\ js_runtimes (engine w') = js_runtimes (engine w)
    /\ contexts w' = contexts w.
Proof.
  intros Hc Ht. unfold quickjs_to_python, JS_VALUE_GET_TAG. rewrite Ht.
  unfold JS_GetException, JS_ToString, JS_ToCString, JS_FreeCString, JS_FreeValue.
  run_with Hc. eexists _, _. split; [reflexivity|].
  cbn [engine contexts]. rewrite !js_heap_free_value.
  split; [|split; [|reflexivity]].
  - f_equal. f_equal.
    cbn [js_get_exception js_new_string fst snd js_heap set_heap].
    unfold release_value. cbn [JS_VALUE_HAS_REF_COUNT JS_MKPTR tag JS_VALUE_GET_PTR u].
    unfold release. rewrite lookup_insert_eq. cbn [ref_count Nat.leb].
    apply delete_insert_id, not_elem_of_dom, is_fresh.
  - unfold js_free_value. cbn [snd].
    repeat match goal with
           | |- context [if ?b then _ else _] => destruct b
           | |- context [match ?x with Some _ => _ | None => _ end] => destruct x
           end; reflexivity.
Qed.

(** ** More on the arguments of a call *)

(** X12. The validation pass, from any starting index, accepts an argument
    list exactly when every item passes one of the six tests of the loop,
    and returns a ValueError exactly when some item passes none of them. *)
Theorem validation_rejects_iff_unsupported (i : nat) (args : list PyObject) :
  (check_args i args = None <-> Forall (fun item => supported item = true) args)
  /\ ((exists msg, check_args i args = Some (PyRaise PyExc_ValueError msg))
      <-> Exists (fun item => supported item = false) args).
Proof.
  split; [apply check_args_None|]. split.
  - intros [msg Hmsg]. revert i Hmsg.
    induction args as [|x rest IH]; intros i Hmsg; [discriminate|].
    destruct (supported x) eqn:Hx.
    + apply Exists_cons_tl, (IH (S i)).
      destruct x; try discriminate Hx; exact Hmsg.
    + now apply Exists_cons_hd.
  - apply check_args_Exists.
Qed.

Lemma int32_range z : INT32_MIN <= int32 z <= INT32_MAX.
Proof.
  unfold int32, wrap, INT32_MIN, INT32_MAX.
  pose proof (Z.mod_pos_bound (z + 2 ^ (32 - 1)) (2 ^ 32) ltac:(lia)). lia.
Qed.

Lemma int32_period z : int32 (z + 2 ^ 32) = int32 z.
Proof.
  unfold int32, wrap.
  replace (z + 2 ^ 32 + 2 ^ (32 - 1)) with (z + 2 ^ (32 - 1) + 1 * 2 ^ 32) by lia.
  now rewrite Z.mod_add by lia.
Qed.

(** X13. What becomes of an integer argument that fits a C long.  It is
    stored in 32 bits, with no engine call, and that is the integer that
    comes back: the argument wrapped to the signed 32-bit range, so always
    within that range; two such integers that differ by 2^32 are converted
    to the same engine value; the one engine call of the round trip is the
    release of that value. *)
Theorem integer_argument_is_cut_to_32_bits
    (c : nat) (cd : ContextData) (n : Z) (w : World) :
  contexts w !! c = Some cd ->
  LONG_MIN <= n <= LONG_MAX ->
  exists w',
    roundtrip c (Py_Long n) w = Some (PyOk (Py_Long (int32 n)), w')
    /\ convert_arg c (Py_Long n) w = Some (JS_MKVAL JS_TAG_INT n, w)
    /\ INT32_MIN <= int32 n <= INT32_MAX
    /\ (n + 2 ^ 32 <= LONG_MAX ->
        convert_arg c (Py_Long (n + 2 ^ 32)) w = convert_arg c (Py_Long n) w)
    /\ trace w' = trace w ++ [EvFreeValue (context cd) (JS_MKVAL JS_TAG_INT n)]
    /\ contexts w' = contexts w.
Proof.
  intros Hc [Hlo Hhi].
  assert (H1 : (LONG_MIN <=? n) && (n <=? LONG_MAX) = true)
    by (apply andb_true_intro; split; apply Z.leb_le; assumption).
  assert (Hconv : convert_arg c (Py_Long n) w = Some (JS_MKVAL JS_TAG_INT n, w)).
  { unfold convert_arg. cbn [PyBool_Check PyLong_Check]. unfold PyLong_AsLong.
    now rewrite H1. }
  unfold roundtrip. rewrite (bind_run _ _ _ _ _ Hconv).
  unfold quickjs_to_python, JS_FreeValue. run_with Hc.
  cbn [JS_VALUE_GET_TAG tag JS_MKVAL]. run_with Hc.
  eexists. split.
  - unfold Py_BuildValue_i, JS_VALUE_GET_INT. cbn [u JS_MKVAL].
    rewrite (wrap32_small (int32 _)) by apply int32_range. reflexivity.
  - split; [exact Hconv|]. split; [apply int32_range|]. split; [|split; reflexivity].
    intros Hhi'. rewrite Hconv. unfold convert_arg. cbn [PyBool_Check PyLong_Check].
    unfold PyLong_AsLong, JS_MKVAL.
    assert (H2 : (LONG_MIN <=? n + 2 ^ 32) && (n + 2 ^ 32 <=? LONG_MAX) = true).
    { apply andb_true_intro. split; apply Z.leb_le; unfold LONG_MIN, LONG_MAX in *; lia. }
    rewrite H2. now rewrite int32_period.
Qed.

(** ** The handles of a program *)

Lemma quickjs_to_python_handles_ok c value w r w' :
  quickjs_to_python c value w = Some (r, w') -> Forall handle_ok (new_handles r).
Proof.
  intros Hrun. destruct r as [[ | | | | |o| ]|]; try constructor; [|constructor].
  destruct (quickjs_to_python_handle c value w o w' Hrun) as [Ht ->].
  exact Ht.
Qed.

Lemma context_eval_handles_ok c args w r w' :
  context_eval c args w = Some (r, w') -> Forall handle_ok (new_handles r).
Proof.
  unfold context_eval. intros H. destruct (PyArg_ParseTuple_s args).
  - apply bind_Some in H as (? & ? & _ & H). unfold JS_Eval in H.
    apply bind_Some in H as (? & ? & _ & H).
    exact (quickjs_to_python_handles_ok _ _ _ _ _ H).
  - injection H as <- _. constructor.
Qed.

Lemma context_get_handles_ok c args w r w' :
  context_get c args w = Some (r, w') -> Forall handle_ok (new_handles r).
Proof.
  unfold context_get. intros H. destruct (PyArg_ParseTuple_s args).
  - do 4 (apply bind_Some in H as (? & ? & _ & H)).
    exact (quickjs_to_python_handles_ok _ _ _ _ _ H).
  - injection H as <- _. constructor.
Qed.

Lemma object_call_handles_ok self args w r w' :
  object_call self args w = Some (r, w') -> Forall handle_ok (new_handles r).
Proof.
  unfold object_call. intros H. destruct (context_obj self).
  - destruct (check_args 0 args) eqn:Hcheck.
    + injection H as <- _. rewrite (check_args_Some _ _ _ Hcheck). constructor.
    + do 4 (apply bind_Some in H as (? & ? & _ & H)).
      exact (quickjs_to_python_handles_ok _ _ _ _ _ H).
  - injection H as <- _. constructor.
Qed.

Lemma object_json_handles_ok self w r w' :
  object_json self w = Some (r, w') -> Forall handle_ok (new_handles r).
Proof.
  unfold object_json. intros H. destruct (context_obj self); [|discriminate].
  do 8 (apply bind_Some in H as (? & ? & _ & H)).
  exact (quickjs_to_python_handles_ok _ _ _ _ _ H).
Qed.

(** X14. Whatever a program does, every handle it holds that has a Context
    wraps a value of object type, never a primitive, and every handle it
    holds that has none is as the constructor made it. *)
Theorem program_handles_wrap_objects (e0 : Engine) (h : Host) :
  reachable e0 h -> Forall handle_ok (handles h).
Proof.
  induction 1 as [|h h' _ IH Hstep]; [constructor|].
  destruct Hstep; cbn [handles] in *; try exact IH.
  - apply Forall_app. split; [|exact IH]. eapply context_eval_handles_ok; eassumption.
  - apply Forall_app. split; [|exact IH]. eapply context_get_handles_ok; eassumption.
  - constructor; [reflexivity | exact IH].
  - apply Forall_app. split; [|exact IH]. eapply object_call_handles_ok; eassumption.
  - apply Forall_app. split; [|exact IH]. eapply object_json_handles_ok; eassumption.
  - apply Forall_app in IH as [IH1 IH2]. apply Forall_app. split; [exact IH1|].
    now inversion IH2.
Qed.

(** ** Engine contexts live and die with their Context *)

Lemma keeps_lifecycle_refl (e : Engine) : keeps_lifecycle e e.
Proof. split; reflexivity. Qed.

Lemma keeps_lifecycle_trans (e1 e2 e3 : Engine) :
  keeps_lifecycle e1 e2 -> keeps_lifecycle e2 e3 -> keeps_lifecycle e1 e3.
Proof. intros [? ?] [? ?]. split; congruence. Qed.

Lemma js_free_value_keeps v (e : Engine) : keeps_lifecycle e (snd (js_free_value v e)).
Proof.
  unfold js_free_value. cbn [snd].
  destruct (JS_VALUE_HAS_REF_COUNT v); [|apply keeps_lifecycle_refl].
  destruct (JS_VALUE_GET_PTR v); [split; reflexivity | apply keeps_lifecycle_refl].
Qed.

Lemma js_dup_value_keeps v (e : Engine) : keeps_lifecycle e (snd (js_dup_value v e)).
Proof.
  unfold js_dup_value. cbn [snd].
  destruct (JS_VALUE_HAS_REF_COUNT v); [|apply keeps_lifecycle_refl].
  destruct (JS_VALUE_GET_PTR v); [split; reflexivity | apply keeps_lifecycle_refl].
Qed.

Lemma js_new_string_keeps text (e : Engine) : keeps_lifecycle e (snd (js_new_string text e)).
Proof. split; reflexivity. Qed.

Lemma js_get_exception_keeps ctx (e : Engine) :
  keeps_lifecycle e (snd (js_get_exception ctx e)).
Proof. split; [reflexivity|]. cbn. apply dom_alter_L. Qed.

Ltac keeps :=
  repeat match goal with
         | |- keeps_lifecycle ?e ?e => apply keeps_lifecycle_refl
         | |- keeps_lifecycle _ (snd (js_free_value _ _)) =>
             eapply keeps_lifecycle_trans; [|apply js_free_value_keeps]
         | |- keeps_lifecycle _ (snd (js_dup_value _ _)) =>
             eapply keeps_lifecycle_trans; [|apply js_dup_value_keeps]
         | |- keeps_lifecycle _ (snd (js_new_string _ _)) =>
             eapply keeps_lifecycle_trans; [|apply js_new_string_keeps]
         | |- keeps_lifecycle _ (snd (js_get_exception _ _)) =>
             eapply keeps_lifecycle_trans; [|apply js_get_exception_keeps]
         end.

Lemma quickjs_to_python_keeps c cd value w r w' :
  contexts w !! c = Some cd ->
  quickjs_to_python c value w = Some (r, w') ->
  keeps_lifecycle (engine w) (engine w').
Proof.
  intros Hc Hrun.
  assert (H : exists r0 w0, quickjs_to_python c value w = Some (r0, w0)
                            /\ keeps_lifecycle (engine w) (engine w0)).
  { destruct (tag value) eqn:Ht;
      unfold quickjs_to_python, JS_VALUE_GET_TAG; rewrite Ht;
      unfold Py_INCREF, JS_GetException, JS_ToString, JS_ToCString, JS_FreeCString,
             JS_DupValue, JS_FreeValue;
      run_with Hc; eexists _, _; (split; [reflexivity|]); cbn [engine]; keeps. }
  destruct H as (r0 & w0 & Hrun0 & Hk). rewrite Hrun in Hrun0. now injection Hrun0 as _ <-.
Qed.

Lemma same_contexts_refl w : same_contexts w w.
Proof. split; [apply keeps_lifecycle_refl | reflexivity]. Qed.

Lemma same_contexts_trans w1 w2 w3 :
  same_contexts w1 w2 -> same_contexts w2 w3 -> same_contexts w1 w3.
Proof.
  intros [K1 C1] [K2 C2]. split; [exact (keeps_lifecycle_trans _ _ _ K1 K2)|].
  intros c. now rewrite C2, C1.
Qed.

(** The effects a run of the module has on the host's Contexts, other than
    creating or deallocating one: none, or one reference more or less. *)
Lemma same_contexts_intro w w' c cd :
  keeps_lifecycle (engine w) (engine w') ->
  contexts w !! c = Some cd ->
  contexts w' = contexts w
  \/ contexts w' = <[c := incr_ref cd]> (contexts w)
  \/ contexts w' = <[c := decr_ref cd]> (contexts w) ->
  same_contexts w w'.
Proof.
  intros Hk Hc Hctx. split; [exact Hk|]. intros c'.
  destruct Hctx as [->|[->| ->]]; [reflexivity| |];
    (destruct (decide (c' = c)) as [->|Hne];
     [rewrite lookup_insert_eq, Hc; reflexivity
     |now rewrite lookup_insert_ne by congruence]).
Qed.

Lemma same_contexts_result w w' c cd value r :
  keeps_lifecycle (engine w) (engine w') ->
  contexts w !! c = Some cd ->
  ((new_handles r = [] /\ contexts w' = contexts w)
   \/ (new_handles r = [ {| context_obj := Some c; object := value |} ]
       /\ contexts w' = <[c := incr_ref cd]> (contexts w))) ->
  same_contexts w w'.
Proof.
  intros Hk Hc Heff. apply (same_contexts_intro w w' c cd Hk Hc).
  destruct Heff as [[_ ->]|[_ ->]]; auto.
Qed.

Lemma engine_tracks_same e0 w w' :
  same_contexts w w' -> engine_tracks e0 w -> engine_tracks e0 w'.
Proof.
  intros [[Hrt Hdom] Hids] (I1 & I2 & I3 & I4).
  assert (Hback : forall c cd', contexts w' !! c = Some cd' ->
            exists cd, contexts w !! c = Some cd
                       /\ runtime cd = runtime cd' /\ context cd = context cd').
  { intros c cd' Hc'. specialize (Hids c). rewrite Hc' in Hids. cbn in Hids.
    destruct (contexts w !! c) as [cd|]; [|discriminate].
    exists cd. cbn in Hids. unfold engine_ids in Hids. split; [reflexivity|].
    split; congruence. }
  assert (Hforth : forall c cd, contexts w !! c = Some cd ->
            exists cd', contexts w' !! c = Some cd'
                        /\ runtime cd' = runtime cd /\ context cd' = context cd).
  { intros c cd Hc. specialize (Hids c). rewrite Hc in Hids. cbn in Hids.
    destruct (contexts w' !! c) as [cd'|]; [|discriminate].
    exists cd'. cbn in Hids. unfold engine_ids in Hids. split; [reflexivity|].
    split; congruence. }
  split; [|split; [|split]].
  - intros ctx. rewrite Hdom, I1. split; (intros [H|(c & cd & Hc & <-)]; [now left | right]).
    + destruct (Hforth c cd Hc) as (cd' & Hc' & _ & Hx). now exists c, cd'.
    + destruct (Hback c cd Hc) as (cd0 & Hc0 & _ & Hx). now exists c, cd0.
  - intros rt. rewrite Hrt, I2. split; (intros [H|(c & cd & Hc & <-)]; [now left | right]).
    + destruct (Hforth c cd Hc) as (cd' & Hc' & Hx & _). now exists c, cd'.
    + destruct (Hback c cd Hc) as (cd0 & Hc0 & Hx & _). now exists c, cd0.
  - intros c cd' Hc'. destruct (Hback c cd' Hc') as (cd & Hc & <- & <-). exact (I3 c cd Hc).
  - intros c c' cd1 cd2 H1 H2 Heq.
    destruct (Hback c cd1 H1) as (cd1' & H1' & Hr1 & Hx1).
    destruct (Hback c' cd2 H2) as (cd2' & H2' & Hr2 & Hx2).
    apply (I4 c c' cd1' cd2' H1' H2'). rewrite Hr1, Hr2, Hx1, Hx2. exact Heq.
Qed.

Lemma engine_tracks_alive e0 w c cd :
  engine_tracks e0 w ->
  contexts w !! c = Some cd ->
  context cd ∈ dom (js_exception (engine w)).
Proof. intros (I1 & _) Hc. apply I1. right. now exists c, cd. Qed.

Lemma convert_args_keeps c cd args : forall w jsargs w1,
  contexts w !! c = Some cd ->
  Forall (fun item => supported item = true) args ->
  for_each (convert_arg c) args w = Some (jsargs, w1) ->
  keeps_lifecycle (engine w) (engine w1).
Proof.
  induction args as [|item rest IH]; intros w jsargs w1 Hc Hs Hrun.
  - injection Hrun as _ <-. apply keeps_lifecycle_refl.
  - inversion Hs as [|? ? Hitem Hrest]; subst.
    assert (H : exists v wa, convert_arg c item w = Some (v, wa)
                             /\ contexts wa = contexts w
                             /\ keeps_lifecycle (engine w) (engine wa)).
    { destruct item as [b|n|d| |s|o|name]; try discriminate Hitem;
        unfold convert_arg, JS_NewFloat64, JS_NewString, JS_DupValue, as_ObjectData;
        cbn [PyBool_Check PyLong_Check PyFloat_Check is_Py_None PyUnicode_Check
             PyObject_IsInstance_Object];
        run_with Hc; eexists _, _; (split; [reflexivity|]); (split; [reflexivity|]);
        cbn [engine]; keeps. }
    destruct H as (v & wa & Hv & Hca & Hk).
    cbn [for_each] in Hrun. rewrite (bind_run _ _ _ _ _ Hv) in Hrun.
    apply bind_Some in Hrun as (vs & w2 & Hvs & Hret). injection Hret as _ <-.
    apply (keeps_lifecycle_trans _ _ _ Hk).
    apply (IH wa vs w2); [now rewrite Hca | exact Hrest | exact Hvs].
Qed.

Lemma free_args_keeps c cd jsargs : forall w us w1,
  contexts w !! c = Some cd ->
  for_each (fun v => cd <- deref c ;; JS_FreeValue (context cd) v) jsargs w = Some (us, w1) ->
  keeps_lifecycle (engine w) (engine w1).
Proof.
  induction jsargs as [|v rest IH]; intros w us w1 Hc Hrun.
  - injection Hrun as _ <-. apply keeps_lifecycle_refl.
  - set (wa := mkWorld (snd (js_free_value v (engine w))) (contexts w)
                       (trace w ++ [EvFreeValue (context cd) v])).
    assert (Hv : (cd <- deref c ;; JS_FreeValue (context cd) v) w = Some (tt, wa)).
    { unfold JS_FreeValue. run_with Hc. reflexivity. }
    cbn [for_each] in Hrun. rewrite (bind_run _ _ _ _ _ Hv) in Hrun.
    apply bind_Some in Hrun as (us' & w2 & Hus & Hret). injection Hret as _ <-.
    apply (keeps_lifecycle_trans _ (engine wa)); [apply js_free_value_keeps|].
    exact (IH wa us' w2 Hc Hus).
Qed.

Lemma context_eval_same e0 c cd args w r w' :
  interpreter_keeps_lifecycle ->
  engine_tracks e0 w ->
  contexts w !! c = Some cd ->
  context_eval c args w = Some (r, w') ->
  same_contexts w w'.
Proof.
  intros (Hev & _) Itr Hc Hrun.
  destruct (PyArg_ParseTuple_s args) as [code|exc msg] eqn:Hparse.
  - destruct (context_eval_run c cd args code w Hparse Hc)
      as (value & w1 & r0 & w0 & post & Hev1 & Hc1 & Hq & _ & Heff & Hrun0).
    rewrite Hrun in Hrun0. injection Hrun0 as <- <-.
    apply (same_contexts_result w w' c cd value r); [|exact Hc | exact Heff].
    assert (Hk1 : keeps_lifecycle (engine w) (engine w1)).
    { unfold JS_Eval in Hev1. rewrite api_run in Hev1. injection Hev1 as _ <-.
      cbn [engine]. apply Hev. exact (engine_tracks_alive e0 w c cd Itr Hc). }
    apply (keeps_lifecycle_trans _ _ _ Hk1).
    apply (quickjs_to_python_keeps c cd value w1 r w'); [now rewrite Hc1 | exact Hq].
  - unfold context_eval in Hrun. rewrite Hparse in Hrun. injection Hrun as _ <-.
    apply same_contexts_refl.
Qed.

Lemma context_get_same e0 c cd args w r w' :
  interpreter_keeps_lifecycle ->
  engine_tracks e0 w ->
  contexts w !! c = Some cd ->
  context_get c args w = Some (r, w') ->
  same_contexts w w'.
Proof.
  intros (_ & _ & Hglobal & Hprop) Itr Hc Hrun.
  destruct (PyArg_ParseTuple_s args) as [name|exc msg] eqn:Hparse.
  - destruct (context_get_run c cd args name w Hparse Hc)
      as (global & w0 & value & w1 & w2 & r0 & w3 & post
          & Hg & Hp & Hf & Hc2 & Hq & _ & Heff & Hrun0).
    rewrite Hrun in Hrun0. injection Hrun0 as <- <-.
    apply (same_contexts_result w w' c cd value r); [|exact Hc | exact Heff].
    pose proof (engine_tracks_alive e0 w c cd Itr Hc) as Hlive.
    assert (Hk0 : keeps_lifecycle (engine w) (engine w0)).
    { unfold JS_GetGlobalObject in Hg. rewrite api_run in Hg. injection Hg as _ <-.
      cbn [engine]. now apply Hglobal. }
    assert (Hk1 : keeps_lifecycle (engine w0) (engine w1)).
    { unfold JS_GetPropertyStr in Hp. rewrite api_run in Hp. injection Hp as _ <-.
      cbn [engine]. apply Hprop. destruct Hk0 as [_ ->]. exact Hlive. }
    assert (Hk2 : keeps_lifecycle (engine w1) (engine w2)).
    { unfold JS_FreeValue in Hf. rewrite api_run in Hf. injection Hf as <-.
      cbn [engine]. apply js_free_value_keeps. }
    apply (keeps_lifecycle_trans _ _ _ Hk0), (keeps_lifecycle_trans _ _ _ Hk1),
      (keeps_lifecycle_trans _ _ _ Hk2).
    apply (quickjs_to_python_keeps c cd value w2 r w'); [now rewrite Hc2 | exact Hq].
  - unfold context_get in Hrun. rewrite Hparse in Hrun. injection Hrun as _ <-.
    apply same_contexts_refl.
Qed.

Lemma object_call_same e0 self c cd args w r w' :
  interpreter_keeps_lifecycle ->
  engine_tracks e0 w ->
  context_obj self = Some c ->
  contexts w !! c = Some cd ->
  object_call self args w = Some (r, w') ->
  same_contexts w w'.
Proof.
  intros (_ & Hcall & _) Itr Hself Hc Hrun.
  destruct (check_args 0 args) as [e|] eqn:Hcheck.
  - unfold object_call in Hrun. rewrite Hself, Hcheck in Hrun. injection Hrun as _ <-.
    apply same_contexts_refl.
  - destruct (object_call_run self c cd args w Hself Hc Hcheck)
      as (jsargs & w1 & value & w2 & us & w3 & r0 & w0 & post
          & Hconv & _ & _ & Hcall1 & Hfree & _ & Hc3 & Hq & _ & _ & Heff & Hrun0).
    rewrite Hrun in Hrun0. injection Hrun0 as <- <-.
    apply (same_contexts_result w w' c cd value r); [|exact Hc | exact Heff].
    apply check_args_None in Hcheck as Hs.
    destruct (convert_args_run c cd args w Hc Hs) as (jsargs0 & w10 & Hconv0 & Hc1 & _).
    rewrite Hconv in Hconv0. injection Hconv0 as <- <-.
    pose proof (convert_args_keeps c cd args w jsargs w1 Hc Hs Hconv) as Hk1.
    assert (Hk2 : keeps_lifecycle (engine w1) (engine w2) /\ contexts w2 = contexts w1).
    { unfold JS_Call in Hcall1. rewrite api_run in Hcall1. injection Hcall1 as _ <-.
      cbn [engine contexts]. split; [|reflexivity]. apply Hcall.
      destruct Hk1 as [_ ->]. exact (engine_tracks_alive e0 w c cd Itr Hc). }
    destruct Hk2 as [Hk2 Hc2].
    assert (Hc2' : contexts w2 !! c = Some cd) by now rewrite Hc2, Hc1.
    pose proof (free_args_keeps c cd jsargs w2 us w3 Hc2' Hfree) as Hk3.
    apply (keeps_lifecycle_trans _ _ _ Hk1), (keeps_lifecycle_trans _ _ _ Hk2),
      (keeps_lifecycle_trans _ _ _ Hk3).
    apply (quickjs_to_python_keeps c cd value w3 r w'); [now rewrite Hc3 | exact Hq].
Qed.

Lemma object_json_same e0 self c cd w r w' :
  interpreter_keeps_lifecycle ->
  engine_tracks e0 w ->
  context_obj self = Some c ->
  contexts w !! c = Some cd ->
  object_json self w = Some (r, w') ->
  same_contexts w w'.
Proof.
  intros (_ & Hcall & Hglobal & Hprop) Itr Hself Hc Hrun.
  pose proof (engine_tracks_alive e0 w c cd Itr Hc) as Hlive.
  destruct (object_json_run self c cd w Hself Hc)
    as (value & w3 & r0 & w0 & post & _ & _ & _ & Heff & Hrun0).
  rewrite Hrun in Hrun0. injection Hrun0 as <- <-.
  apply (same_contexts_result w w' c cd value r); [|exact Hc | exact Heff].
  clear Heff value w3 post.
  unfold object_json in Hrun. rewrite Hself in Hrun.
  rewrite (bind_run _ _ _ _ _ (deref_run _ _ _ Hc)) in Hrun.
  unfold JS_GetGlobalObject, JS_GetPropertyStr, JS_Call, JS_FreeValue in Hrun.
  repeat (rewrite (bind_run _ _ _ _ _ (api_run _ _ _)) in Hrun).
  cbn [fst snd engine contexts trace] in Hrun.
  match type of Hrun with
  | quickjs_to_python c ?v ?w3 = _ =>
      apply (keeps_lifecycle_trans _ (engine w3));
        [|exact (quickjs_to_python_keeps c cd v w3 r w' Hc Hrun)]
  end.
  cbn [engine]. keeps.
  set (e1 := snd (script_global (engine w) (context cd))).
  assert (Hk1 : keeps_lifecycle (engine w) e1) by now apply Hglobal.
  set (global := fst (script_global (engine w) (context cd))) in *.
  set (e2 := snd (script_get_property e1 (context cd) global "JSON")).
  assert (Hk2 : keeps_lifecycle e1 e2).
  { apply Hprop. destruct Hk1 as [_ ->]. exact Hlive. }
  set (JSON := fst (script_get_property e1 (context cd) global "JSON")) in *.
  set (e3 := snd (script_get_property e2 (context cd) JSON "stringify")).
  assert (Hk3 : keeps_lifecycle e2 e3).
  { apply Hprop. destruct Hk2 as [_ ->]. destruct Hk1 as [_ ->]. exact Hlive. }
  apply (keeps_lifecycle_trans _ _ _ Hk1), (keeps_lifecycle_trans _ _ _ Hk2),
    (keeps_lifecycle_trans _ _ _ Hk3).
  apply Hcall. destruct Hk3 as [_ ->]. destruct Hk2 as [_ ->]. destruct Hk1 as [_ ->].
  exact Hlive.
Qed.

Lemma Py_DECREF_engine c cd w w' :
  contexts w !! c = Some cd ->
  Py_DECREF c w = Some (tt, w') ->
  ((ob_refcnt cd <= 1)%nat
   /\ contexts w' = delete c (contexts w)
   /\ js_runtimes (engine w') = js_runtimes (engine w) ∖ {[runtime cd]}
   /\ dom (js_exception (engine w')) = dom (js_exception (engine w)) ∖ {[context cd]})
  \/ ((1 < ob_refcnt cd)%nat /\ same_contexts w w').
Proof.
  intros Hc Hrun. unfold Py_DECREF in Hrun.
  rewrite (bind_run _ _ _ _ _ (deref_run _ _ _ Hc)) in Hrun.
  destruct (ob_refcnt cd <=? 1)%nat eqn:Hle.
  - left. apply Nat.leb_le in Hle. split; [exact Hle|].
    unfold context_dealloc in Hrun.
    rewrite (bind_run _ _ _ _ _ (deref_run _ _ _ Hc)) in Hrun.
    unfold JS_FreeContext, JS_FreeRuntime in Hrun.
    repeat (rewrite (bind_run _ _ _ _ _ (api_run _ _ _)) in Hrun).
    unfold tp_free_context in Hrun. injection Hrun as <-.
    cbn [contexts engine fst snd js_free_context js_free_runtime js_runtimes js_exception].
    split; [reflexivity|]. split; [reflexivity|]. apply dom_delete_L.
  - right. apply Nat.leb_gt in Hle. split; [exact Hle|].
    unfold store in Hrun. injection Hrun as <-.
    apply (same_contexts_intro _ _ c cd); [apply keeps_lifecycle_refl | exact Hc|].
    right. right. reflexivity.
Qed.

Lemma engine_tracks_decref e0 c cd w w' :
  engine_tracks e0 w ->
  contexts w !! c = Some cd ->
  Py_DECREF c w = Some (tt, w') ->
  engine_tracks e0 w'.
Proof.
  intros Itr Hc Hrun.
  destruct (Py_DECREF_engine c cd w w' Hc Hrun) as [(_ & Hctx & Hrt & Hdom)|[_ Hsame]];
    [|exact (engine_tracks_same e0 w w' Hsame Itr)].
  destruct Itr as (I1 & I2 & I3 & I4).
  destruct (I3 c cd Hc) as [Hc0 Hr0].
  split; [|split; [|split]].
  - intros ctx. rewrite Hdom, Hctx, elem_of_difference, elem_of_singleton, I1. split.
    + intros [[H|(c1 & cd1 & Hc1 & <-)] Hne]; [now left | right].
      exists c1, cd1. split; [|reflexivity].
      rewrite lookup_delete_ne; [exact Hc1|]. intros <-. apply Hne. congruence.
    + intros [H|(c1 & cd1 & Hc1 & <-)].
      * split; [now left|]. intros ->. contradiction.
      * apply lookup_delete_Some in Hc1 as [Hne Hc1]. split; [right; now exists c1, cd1|].
        intros Heq. apply Hne. apply (I4 c c1 cd cd1 Hc Hc1). left. congruence.
  - intros rt. rewrite Hrt, Hctx, elem_of_difference, elem_of_singleton, I2. split.
    + intros [[H|(c1 & cd1 & Hc1 & <-)] Hne]; [now left | right].
      exists c1, cd1. split; [|reflexivity].
      rewrite lookup_delete_ne; [exact Hc1|]. intros <-. apply Hne. congruence.
    + intros [H|(c1 & cd1 & Hc1 & <-)].
      * split; [now left|]. intros ->. contradiction.
      * apply lookup_delete_Some in Hc1 as [Hne Hc1]. split; [right; now exists c1, cd1|].
        intros Heq. apply Hne. apply (I4 c c1 cd cd1 Hc Hc1). right. congruence.
  - intros c1 cd1. rewrite Hctx. intros Hc1.
    apply lookup_delete_Some in Hc1 as [_ Hc1]. exact (I3 c1 cd1 Hc1).
  - intros c1 c2 cd1 cd2. rewrite Hctx. intros H1 H2.
    apply lookup_delete_Some in H1 as [_ H1]. apply lookup_delete_Some in H2 as [_ H2].
    exact (I4 c1 c2 cd1 cd2 H1 H2).
Qed.

Lemma engine_tracks_new e0 c w w' :
  engine_tracks e0 w ->
  context_new w = Some (c, w') ->
  engine_tracks e0 w'.
Proof.
  intros (I1 & I2 & I3 & I4) Hrun.
  set (rt := fresh (js_runtimes (engine w))).
  set (ctx := fresh (dom (js_exception (engine w)))).
  assert (Hrt : rt ∉ js_runtimes (engine w)) by apply is_fresh.
  assert (Hctx : ctx ∉ dom (js_exception (engine w))) by apply is_fresh.
  assert (Hfresh : contexts w !! c = None
                   /\ contexts w' = <[c := mkContextData 1 rt ctx]> (contexts w)
                   /\ js_runtimes (engine w') = {[rt]} ∪ js_runtimes (engine w)
                   /\ dom (js_exception (engine w')) = {[ctx]} ∪ dom (js_exception (engine w))).
  { unfold context_new, tp_alloc_context, JS_NewRuntime, JS_NewContext in Hrun.
    unfold bind, store, api, ret in Hrun. cbn [fst snd engine contexts trace] in Hrun.
    injection Hrun as <- <-.
    cbn [contexts engine fst snd js_new_runtime js_new_context js_runtimes js_exception].
    split; [apply not_elem_of_dom, is_fresh|]. split; [apply insert_insert_eq|].
    split; [reflexivity | apply dom_insert_L]. }
  destruct Hfresh as (Hnone & Hcs & Hrts & Hdom).
  assert (Hctx0 : ctx ∉ dom (js_exception e0)) by (intros H; apply Hctx, I1; now left).
  assert (Hrt0 : rt ∉ js_runtimes e0) by (intros H; apply Hrt, I2; now left).
  assert (Hold : forall c1 cd1, contexts w !! c1 = Some cd1 ->
            c1 <> c /\ context cd1 <> ctx /\ runtime cd1 <> rt).
  { intros c1 cd1 Hc1. split; [congruence|]. split; intros Heq.
    - apply Hctx, I1. right. now exists c1, cd1.
    - apply Hrt, I2. right. now exists c1, cd1. }
  split; [|split; [|split]].
  - intros x. rewrite Hdom, Hcs, elem_of_union, elem_of_singleton, I1. split.
    + intros [->|[H|(c1 & cd1 & Hc1 & <-)]].
      * right. exists c, (mkContextData 1 rt ctx). split; [apply lookup_insert_eq | reflexivity].
      * now left.
      * right. exists c1, cd1. split; [|reflexivity].
        rewrite lookup_insert_ne; [exact Hc1|]. destruct (Hold c1 cd1 Hc1). congruence.
    + intros [H|(c1 & cd1 & Hc1 & <-)]; [right; now left|].
      apply lookup_insert_Some in Hc1 as [[_ <-]|[_ Hc1]]; [now left|].
      right. right. now exists c1, cd1.
  - intros x. rewrite Hrts, Hcs, elem_of_union, elem_of_singleton, I2. split.
    + intros [->|[H|(c1 & cd1 & Hc1 & <-)]].
      * right. exists c, (mkContextData 1 rt ctx). split; [apply lookup_insert_eq | reflexivity].
      * now left.
      * right. exists c1, cd1. split; [|reflexivity].
        rewrite lookup_insert_ne; [exact Hc1|]. destruct (Hold c1 cd1 Hc1). congruence.
    + intros [H|(c1 & cd1 & Hc1 & <-)]; [right; now left|].
      apply lookup_insert_Some in Hc1 as [[_ <-]|[_ Hc1]]; [now left|].
      right. right. now exists c1, cd1.
  - intros c1 cd1. rewrite Hcs. intros Hc1.
    apply lookup_insert_Some in Hc1 as [[_ <-]|[_ Hc1]]; [now split | exact (I3 c1 cd1 Hc1)].
  - intros c1 c2 cd1 cd2. rewrite Hcs. intros H1 H2 Heq.
    apply lookup_insert_Some in H1 as [[<- <-]|[Hn1 H1]];
      apply lookup_insert_Some in H2 as [[<- <-]|[Hn2 H2]].
    + reflexivity.
    + exfalso. destruct (Hold c2 cd2 H2) as (_ & Hx & Hr). cbn in Heq.
      destruct Heq; congruence.
    + exfalso. destruct (Hold c1 cd1 H1) as (_ & Hx & Hr). cbn in Heq.
      destruct Heq; congruence.
    + exact (I4 c1 c2 cd1 cd2 H1 H2 Heq).
Qed.

(** X15. Provided that script code neither creates nor destroys runtimes
    and contexts: whatever a program does, the engine's live contexts are
    those it had at the start and one for each Context alive, and likewise
    its runtimes; the context and the runtime of a Context are its own, not
    one the engine had at the start and not one of another Context.  So
    the context and the runtime of a live Context are alive, none is left
    over from a Context that is gone, and deallocating a Context frees none
    that another Context uses. *)
Theorem engine_contexts_follow_contexts (e0 : Engine) (h : Host) :
  interpreter_keeps_lifecycle ->
  reachable e0 h ->
  engine_tracks e0 (world h).
Proof.
  intros Hint Hreach. induction Hreach as [|h h' Hreach IH Hstep].
  - unfold engine_tracks. cbn [world engine contexts]. split; [|split; [|split]].
    + intros ctx. split; [now left|]. intros [H|(c & cd & Hc & _)]; [exact H|].
      rewrite lookup_empty in Hc. discriminate.
    + intros rt. split; [now left|]. intros [H|(c & cd & Hc & _)]; [exact H|].
      rewrite lookup_empty in Hc. discriminate.
    + intros c cd Hc. rewrite lookup_empty in Hc. discriminate.
    + intros c c' cd cd' Hc. rewrite lookup_empty in Hc. discriminate.
  - pose proof (reachable_refs_ok e0 h Hreach) as Hok.
    destruct Hstep; cbn [world] in *.
    + (* Context() *)
      exact (engine_tracks_new e0 c w w' IH H).
    + (* one more reference *)
      destruct (alive_of_owned _ _ _ _ _ Hok H) as [cd Hc].
      destruct (Py_INCREF_run c cd w Hc) as (w0 & Hrun & Hctx & _).
      rewrite H0 in Hrun. injection Hrun as <-.
      apply (engine_tracks_same e0 w); [|exact IH].
      apply (same_contexts_intro w w' c cd); [|exact Hc | now right; left].
      unfold Py_INCREF in H0. rewrite (bind_run _ _ _ _ _ (deref_run _ _ _ Hc)) in H0.
      unfold store in H0. injection H0 as <-. apply keeps_lifecycle_refl.
    + (* a reference dropped *)
      destruct (alive_of_owned _ _ _ _ _ Hok H) as [cd Hc].
      exact (engine_tracks_decref e0 c cd w w' IH Hc H0).
    + (* eval *)
      destruct (alive_of_owned _ _ _ _ _ Hok H) as [cd Hc].
      exact (engine_tracks_same e0 w w' (context_eval_same e0 c cd args w r w' Hint IH Hc H0) IH).
    + (* get *)
      destruct (alive_of_owned _ _ _ _ _ Hok H) as [cd Hc].
      exact (engine_tracks_same e0 w w' (context_get_same e0 c cd args w r w' Hint IH Hc H0) IH).
    + (* set_memory_limit *)
      destruct (alive_of_owned _ _ _ _ _ Hok H) as [cd Hc].
      apply (engine_tracks_same e0 w); [|exact IH].
      unfold context_set_memory_limit in H0.
      destruct (PyArg_ParseTuple_n args) as [limit|exc msg].
      * rewrite (bind_run _ _ _ _ _ (deref_run _ _ _ Hc)) in H0.
        unfold JS_SetMemoryLimit in H0. rewrite (bind_run _ _ _ _ _ (api_run _ _ _)) in H0.
        injection H0 as _ <-. split; [apply keeps_lifecycle_refl | reflexivity].
      * injection H0 as _ <-. apply same_contexts_refl.
    + (* Object() *)
      exact IH.
    + (* call *)
      destruct (context_obj self) as [c|] eqn:Hself.
      * destruct (alive_of_handle _ _ _ _ _ _ Hok Hself) as [cd Hc].
        exact (engine_tracks_same e0 w w'
                 (object_call_same e0 self c cd args w r w' Hint IH Hself Hc H) IH).
      * unfold object_call in H. rewrite Hself in H. injection H as _ <-. exact IH.
    + (* json *)
      destruct (context_obj self) as [c|] eqn:Hself.
      * destruct (alive_of_handle _ _ _ _ _ _ Hok Hself) as [cd Hc].
        exact (engine_tracks_same e0 w w'
                 (object_json_same e0 self c cd w r w' Hint IH Hself Hc H) IH).
      * unfold object_json in H. rewrite Hself in H. discriminate H.
    + (* an Object deallocated *)
      destruct self as [[c|] value].
      * destruct (alive_of_handle _ _ _ _ _ _ Hok eq_refl) as [cd Hc].
        destruct (object_dealloc_run c cd value w Hc)
          as (w1 & w0 & Hf & _ & Hc1 & Hdec & Hrun).
        rewrite H in Hrun. injection Hrun as <-.
        apply (engine_tracks_decref e0 c cd w1 w'); [|now rewrite Hc1 | exact Hdec].
        apply (engine_tracks_same e0 w); [|exact IH].
        unfold JS_FreeValue in Hf. rewrite api_run in Hf. injection Hf as <-.
        split; [apply js_free_value_keeps | reflexivity].
      * unfold object_dealloc in H. cbn in H. injection H as <-. exact IH.
Qed.

End Bridge.

(** ** The module on concrete inputs *)

Example context_new_demo :
  context_new (mkWorld (mkEngine ∅ ∅ ∅ tt) ∅ []) = Some (0%nat, demo_world).
Proof. vm_compute. reflexivity. Qed.

Example object_new_demo : object_new = inert_handle.
Proof. reflexivity. Qed.

(** C1 as stated fails: the integer 2^31 comes back as -2^31, having gone
    through the 32 bits of [JS_MKVAL] and of the format "i" of
    [Py_BuildValue]; and the text "a", NUL, "b" comes back as "a", having
    gone through a C string. *)
Lemma roundtrip_counterexample :
  fst <$> roundtrip demo_to_string 0%nat (Py_Long (2 ^ 31)) demo_world
  = Some (PyOk (Py_Long (- 2 ^ 31)))
  /\ PyOk (Py_Long (- 2 ^ 31)) <> PyOk (Py_Long (2 ^ 31))
  /\ fst <$> roundtrip demo_to_string 0%nat
               (Py_Unicode (String "a" (String Ascii.zero (String "b" EmptyString))))
               demo_world
     = Some (PyOk (Py_Unicode "a")).
Proof. split; [vm_compute; reflexivity|]. split; [discriminate|]. vm_compute. reflexivity. Qed.

Lemma primitive_roundtrip_witness :
  exists w', roundtrip demo_to_string 0%nat (Py_Long 41) demo_world = Some (PyOk (Py_Long 41), w')
             /\ contexts w' = contexts demo_world.
Proof.
  apply (primitive_roundtrip demo_to_string 0%nat (mkContextData 1 0 0)); reflexivity.
Defined.

(** C2 as stated fails: a handle with no Context, called with a list as
    argument, returns None; the call does not fail. *)
Lemma rejection_counterexample :
  supported (Py_Other "list") = false
  /\ object_call demo_call demo_to_string object_new [Py_Other "list"] demo_world
     = Some (PyOk Py_None, demo_world).
Proof. split; reflexivity. Qed.

Lemma rejected_call_witness :
  exists msg,
    check_args 0 [Py_Long 1; Py_Other "list"] = Some (PyRaise PyExc_ValueError msg)
    /\ object_call demo_call demo_to_string demo_handle [Py_Long 1; Py_Other "list"] demo_world
       = Some (PyRaise PyExc_ValueError msg, demo_world).
Proof.
  apply (rejected_call_leaves_world_unchanged demo_call demo_to_string demo_handle 0%nat).
  - reflexivity.
  - right. left. reflexivity.
Defined.

(** C4 as stated fails: the error raised for a list as argument is a
    ValueError, not a TypeError; and a handle with no Context raises
    nothing. *)
Lemma argument_error_counterexample :
  object_call demo_call demo_to_string demo_handle [Py_Other "list"] demo_world
  = Some (PyRaise PyExc_ValueError
            "Unsupported type of argument 0 when calling quickjs object: list.", demo_world)
  /\ PyExc_ValueError <> PyExc_TypeError
  /\ object_call demo_call demo_to_string object_new [Py_Other "list"] demo_world
     = Some (PyOk Py_None, demo_world).
Proof. split; [vm_compute; reflexivity|]. split; [discriminate | reflexivity]. Qed.

Lemma argument_error_witness :
  object_call demo_call demo_to_string demo_handle [Py_Long 1; Py_Other "dict"] demo_world
  = Some (PyRaise PyExc_ValueError
            ("Unsupported type of argument " +:+ fmt_d (Z.of_nat 1)
             +:+ " when calling quickjs object: " +:+ Py_TYPE_tp_name (Py_Other "dict") +:+ "."),
          demo_world)
  /\ PyExc_ValueError <> JSException
  /\ PyExc_ValueError <> PyExc_TypeError.
Proof.
  apply (unsupported_argument_raises_value_error demo_call demo_to_string demo_handle 0%nat).
  - reflexivity.
  - reflexivity.
  - reflexivity.
  - repeat constructor.
Defined.



(** The call of that witness, run: the two strs of equal text are handed
    to the engine as the two new strings at the addresses 0 and 1. *)
Example call_invokes_demo :
  exists r w',
    object_call demo_call demo_to_string demo_handle
                [Py_Unicode "x"; Py_Bool true; Py_Unicode "x"] demo_world
    = Some (r, w')
    /\ filter (fun ev => is_call ev = true) (trace w')
       = [EvCall 0 (object demo_handle) JS_NULL
            [JS_MKPTR JS_TAG_STRING 0; JS_MKVAL JS_TAG_BOOL 1; JS_MKPTR JS_TAG_STRING 1]].
Proof. eexists _, _. split; vm_compute; reflexivity. Qed.

Lemma call_releases_witness :
  exists r w',
    object_call demo_call demo_to_string demo_handle [Py_Object demo_handle; Py_Unicode "x"]
                demo_world = Some (r, w')
    /\ exists jsargs post,
         trace w' = trace demo_world
                    ++ [EvDupValue 0 (object demo_handle); EvNewString 0 "x"]
                    ++ [EvCall 0 (object demo_handle) JS_NULL jsargs]
                    ++ map (EvFreeValue 0) jsargs ++ post.
Proof.
  destruct (call_releases_converted_arguments demo_call demo_to_string demo_handle
              [Py_Object demo_handle; Py_Unicode "x"] demo_world)
    as (r & w' & Hrun & Hcases).
  - reflexivity.
  - intros c Hc. injection Hc as <-. eexists. reflexivity.
  - exists r, w'. split; [exact Hrun|].
    destruct Hcases as [(Hnone & _)|(c & cd & jsargs & value & w3 & post & Hc & Hcd & _ & Ht3 & _ & Ht' & _)].
    + discriminate Hnone.
    + injection Hc as <-. vm_compute in Hcd. injection Hcd as <-.
      exists jsargs, post. rewrite Ht', Ht3. cbn [context omap list_omap conv_event].
      rewrite <- !app_assoc. reflexivity.
Defined.

(** C3 as stated fails: when the string conversion of the exception is
    "a", NUL, "b", the message of the error raised is "a"; and when it is a
    lone surrogate, the message is three times U+FFFD.  Neither is equal to
    the stringified exception. *)
Lemma exception_message_counterexample :
  let text := String "a" (String Ascii.zero (String "b" EmptyString)) in
  let e1 := snd (demo_eval (engine demo_world) 0%nat "throw 7") in
  fst <$> context_eval demo_eval demo_to_string_nul demo_parse_s 0%nat
            [Py_Unicode "throw 7"] demo_world
  = Some (PyRaise JSException "a")
  /\ value_text demo_to_string_nul (snd (js_get_exception 0%nat e1)) 0%nat
                (fst (js_get_exception 0%nat e1)) = text
  /\ PyRaise JSException "a" <> PyRaise JSException text
  /\ fst <$> context_eval demo_eval demo_to_string_surrogate demo_parse_s 0%nat
               [Py_Unicode "throw 7"] demo_world
     = Some (PyRaise JSException (U_FFFD +:+ U_FFFD +:+ U_FFFD))
  /\ value_text demo_to_string_surrogate (snd (js_get_exception 0%nat e1)) 0%nat
                (fst (js_get_exception 0%nat e1)) = lone_surrogate
  /\ PyRaise JSException (U_FFFD +:+ U_FFFD +:+ U_FFFD) <> PyRaise JSException lone_surrogate.
Proof.
  split; [vm_compute; reflexivity|]. split; [vm_compute; reflexivity|].
  split; [discriminate|]. split; [vm_compute; reflexivity|].
  split; [vm_compute; reflexivity | discriminate].
Qed.

Lemma script_exception_witness :
  exists msg w',
    context_eval demo_eval demo_to_string demo_parse_s 0%nat [Py_Unicode "throw 7"] demo_world
    = Some (PyRaise JSException msg, w')
    /\ js_exception (engine w') !! 0%nat = Some JS_NULL.
Proof.
  destruct (script_exception_raises_JSException demo_eval demo_call demo_global
              demo_get_property demo_to_string demo_parse_s 0%nat (mkContextData 1 0 0)
              demo_world eq_refl) as (Heval & _ & _ & Hafter & _).
  destruct (Heval [Py_Unicode "throw 7"] "throw 7"%string eq_refl)
    as (value & w1 & r & w' & Hev & Hrun & Htr).
  unfold JS_Eval in Hev. rewrite api_run in Hev. injection Hev as <- <-.
  specialize (Htr eq_refl).
  eapply Hafter in Htr as ((msg & ->) & _ & Hslot & _); [|reflexivity].
  exists msg, w'. split; [exact Hrun|]. cbn [context] in Hslot. rewrite Hslot. reflexivity.
Defined.

(** A state a program reaches: one Context, and one handle of it that eval
    gave; the Context then counts two references. *)
Example reachable_demo :
  exists h,
    reachable demo_eval demo_call demo_global demo_get_property demo_to_string
              demo_parse_s demo_parse_n (mkEngine ∅ ∅ ∅ tt) h
    /\ handles h = [demo_handle]
    /\ ob_refcnt <$> contexts (world h) !! 0%nat = Some 2%nat.
Proof.
  eexists. split; [|split].
  - eapply reachable_step; [eapply reachable_step; [apply reachable_init|]|].
    + apply step_context_new. exact context_new_demo.
    + eapply step_eval with (c := 0%nat) (n := 0%nat) (args := [Py_Unicode "({})"]).
      * reflexivity.
      * vm_compute. reflexivity.
  - reflexivity.
  - vm_compute. reflexivity.
Qed.

(** ** The further properties on concrete inputs *)

(** A world whose engine holds the string "hi" at address 5 and an object
    at address 0, each with one reference. *)
Definition demo_heap_world : World unit :=
  mkWorld (mkEngine {[0%nat := mkJSCell 1 JSObjectData;
                      5%nat := mkJSCell 1 (JSStringData "hi")]}
                    {[0%nat]} {[0%nat := JS_NULL]} tt)
          {[0%nat := mkContextData 1 0 0]}
          [EvNewRuntime; EvNewContext 0].

Lemma demo_heap_ok : heap_ok (js_heap (engine demo_heap_world)).
Proof.
  intros p c Hp. cbn in Hp.
  apply lookup_insert_Some in Hp as [[_ <-]|[_ Hp]]; [cbn; lia|].
  apply lookup_singleton_Some in Hp as [_ <-]. cbn. lia.
Qed.

Lemma conversion_consumes_value_witness :
  exists r w' pre,
    quickjs_to_python demo_to_string 0%nat (JS_MKPTR JS_TAG_OBJECT 0) demo_world = Some (r, w')
    /\ trace w' = trace demo_world ++ pre ++ [EvFreeValue 0 (JS_MKPTR JS_TAG_OBJECT 0)].
Proof.
  destruct (conversion_consumes_value demo_to_string 0%nat (mkContextData 1 0 0)
              (JS_MKPTR JS_TAG_OBJECT 0) demo_world eq_refl)
    as (r & w' & pre & Hrun & Ht & _).
  now exists r, w', pre.
Defined.

Lemma conversion_makes_handle_witness :
  exists r w',
    quickjs_to_python demo_to_string 0%nat (JS_MKPTR JS_TAG_OBJECT 0) demo_world = Some (r, w')
    /\ r = PyOk (Py_Object demo_handle).
Proof.
  destruct (conversion_makes_handle_iff_object demo_to_string 0%nat (mkContextData 1 0 0)
              (JS_MKPTR JS_TAG_OBJECT 0) demo_world eq_refl)
    as (r & w' & Hrun & _ & Hobj & _).
  exists r, w'. split; [exact Hrun | exact (Hobj eq_refl)].
Defined.

Lemma unknown_tag_witness :
  exists w',
    quickjs_to_python demo_to_string 0%nat (JS_MKPTR (JS_TAG_OTHER (-8)) 3) demo_world
    = Some (PyRaise PyExc_ValueError ("Unknown quickjs tag: " +:+ fmt_d (-8)), w')
    /\ trace w' = trace demo_world ++ [EvFreeValue 0 (JS_MKPTR (JS_TAG_OTHER (-8)) 3)]
    /\ contexts w' = contexts demo_world
    /\ js_exception (engine w') = js_exception (engine demo_world).
Proof.
  apply (unknown_tag_raises_value_error demo_to_string 0%nat (mkContextData 1 0 0));
    reflexivity.
Defined.

Lemma string_result_witness :
  exists w',
    quickjs_to_python demo_to_string 0%nat (JS_MKPTR JS_TAG_STRING 5) demo_heap_world
    = Some (PyOk (Py_Unicode "hi"), w')
    /\ js_heap (engine w') = release 5 (js_heap (engine demo_heap_world)).
Proof.
  destruct (string_result_is_copied_and_released demo_to_string 0%nat (mkContextData 1 0 0)
              5%nat 1%nat "hi" demo_heap_world eq_refl eq_refl)
    as (r & w' & Hrun & Hok & _ & _ & Hheap & _).
  exists w'. rewrite Hrun, (Hok eq_refl). split; [reflexivity | exact Hheap].
Defined.

(** A string whose text is a lone surrogate does not come back: it raises
    UnicodeDecodeError. *)
Example lone_surrogate_result :
  utf8_valid lone_surrogate = false
  /\ fst <$> quickjs_to_python demo_to_string 0%nat (JS_MKPTR JS_TAG_STRING 5)
               (mkWorld (mkEngine {[5%nat := mkJSCell 1 (JSStringData lone_surrogate)]}
                                  {[0%nat]} {[0%nat := JS_NULL]} tt)
                        {[0%nat := mkContextData 1 0 0]} [])
     = Some (PyRaise PyExc_UnicodeDecodeError
               "'utf-8' codec can't decode byte 0xed in position 0: invalid continuation byte").
Proof. split; vm_compute; reflexivity. Qed.

Lemma eval_evaluates_once_witness :
  exists value e1 r w' pre,
    context_eval demo_eval demo_to_string demo_parse_s 0%nat [Py_Unicode "({})"] demo_world
    = Some (r, w')
    /\ demo_eval (engine demo_world) 0%nat (c_str "({})") = (value, e1)
    /\ quickjs_to_python demo_to_string 0%nat value
         (mkWorld e1 (contexts demo_world) (trace demo_world ++ [EvEval 0 (c_str "({})")]))
       = Some (r, w')
    /\ trace w' = trace demo_world ++ [EvEval 0 (c_str "({})")] ++ pre
                  ++ [EvFreeValue 0 value]
    /\ Forall (fun ev => is_invocation ev = false) pre
    /\ (tag value <> JS_TAG_EXCEPTION ->
        tag value <> JS_TAG_STRING ->
        Forall (fun ev => runs_script ev = false) pre).
Proof.
  exact (eval_evaluates_once demo_eval demo_to_string demo_parse_s 0%nat
           (mkContextData 1 0 0) [Py_Unicode "({})"] demo_world eq_refl).
Defined.

Lemma get_reads_global_property_witness :
  exists global e0 value e1 r w' pre,
    context_get demo_global demo_get_property demo_to_string demo_parse_s 0%nat
                [Py_Unicode "Math"] demo_world = Some (r, w')
    /\ demo_global (engine demo_world) 0%nat = (global, e0)
    /\ demo_get_property e0 0%nat global (c_str "Math") = (value, e1)
    /\ quickjs_to_python demo_to_string 0%nat value
         (mkWorld (snd (js_free_value global e1)) (contexts demo_world)
                  (trace demo_world
                   ++ [EvGetGlobalObject 0; EvGetPropertyStr 0 global (c_str "Math");
                       EvFreeValue 0 global]))
       = Some (r, w')
    /\ trace w' = trace demo_world
                  ++ [EvGetGlobalObject 0; EvGetPropertyStr 0 global (c_str "Math");
                      EvFreeValue 0 global]
                  ++ pre ++ [EvFreeValue 0 value]
    /\ Forall (fun ev => is_invocation ev = false) pre
    /\ (tag value <> JS_TAG_EXCEPTION ->
        tag value <> JS_TAG_STRING ->
        Forall (fun ev => runs_script ev = false) pre).
Proof.
  exact (get_reads_global_property demo_global demo_get_property demo_to_string demo_parse_s
           0%nat (mkContextData 1 0 0) [Py_Unicode "Math"] demo_world eq_refl).
Defined.

Lemma json_calls_stringify_witness :
  exists global e0 JSON e1 stringify e2 json_string e3 r w' pre,
    object_json demo_call demo_global demo_get_property demo_to_string demo_handle demo_world
    = Some (r, w')
    /\ demo_global (engine demo_world) 0%nat = (global, e0)
    /\ demo_get_property e0 0%nat global "JSON" = (JSON, e1)
    /\ demo_get_property e1 0%nat JSON "stringify" = (stringify, e2)
    /\ demo_call e2 0%nat stringify JSON [object demo_handle] = (json_string, e3)
    /\ quickjs_to_python demo_to_string 0%nat json_string
         (mkWorld (snd (js_free_value stringify
                          (snd (js_free_value JSON (snd (js_free_value global e3))))))
                  (contexts demo_world)
                  (trace demo_world
                   ++ [EvGetGlobalObject 0;
                       EvGetPropertyStr 0 global "JSON";
                       EvGetPropertyStr 0 JSON "stringify";
                       EvCall 0 stringify JSON [object demo_handle];
                       EvFreeValue 0 global;
                       EvFreeValue 0 JSON;
                       EvFreeValue 0 stringify]))
       = Some (r, w')
    /\ trace w' = trace demo_world
                  ++ [EvGetGlobalObject 0;
                      EvGetPropertyStr 0 global "JSON";
                      EvGetPropertyStr 0 JSON "stringify";
                      EvCall 0 stringify JSON [object demo_handle];
                      EvFreeValue 0 global;
                      EvFreeValue 0 JSON;
                      EvFreeValue 0 stringify]
                  ++ pre ++ [EvFreeValue 0 json_string]
    /\ Forall (fun ev => is_invocation ev = false) pre.
Proof.
  exact (json_calls_stringify demo_call demo_global demo_get_property demo_to_string
           demo_handle 0%nat (mkContextData 1 0 0) demo_world eq_refl eq_refl).
Defined.

Lemma handle_wrap_then_dealloc_witness :
  exists w1 w2,
    quickjs_to_python demo_to_string 0%nat (JS_MKPTR JS_TAG_OBJECT 0) demo_heap_world
    = Some (PyOk (Py_Object demo_handle), w1)
    /\ js_heap (engine w1) = js_heap (engine demo_heap_world)
    /\ (ob_refcnt <$> contexts w1 !! 0%nat) = Some 2%nat
    /\ object_dealloc demo_handle w1 = Some (tt, w2)
    /\ contexts w2 = contexts demo_heap_world
    /\ js_heap (engine w2)
       = release_value (JS_MKPTR JS_TAG_OBJECT 0) (js_heap (engine demo_heap_world))
    /\ trace w2 = trace demo_heap_world
                  ++ [EvDupValue 0 (JS_MKPTR JS_TAG_OBJECT 0);
                      EvFreeValue 0 (JS_MKPTR JS_TAG_OBJECT 0);
                      EvFreeValue 0 (JS_MKPTR JS_TAG_OBJECT 0)].
Proof.
  apply (handle_wrap_then_dealloc demo_to_string 0%nat (mkContextData 1 0 0)
           (JS_MKPTR JS_TAG_OBJECT 0) demo_heap_world).
  - reflexivity.
  - cbn. lia.
  - reflexivity.
  - exact demo_heap_ok.
Defined.


Lemma exception_translation_witness :
  exists msg w',
    quickjs_to_python demo_to_string 0%nat JS_EXCEPTION demo_heap_world
    = Some (PyRaise JSException msg, w')
    /\ js_heap (engine w') = js_heap (engine demo_heap_world).
Proof.
  destruct (exception_translation_frees_its_string demo_to_string 0%nat (mkContextData 1 0 0)
              JS_EXCEPTION demo_heap_world eq_refl eq_refl)
    as (msg & w' & Hrun & Hheap & _).
  exists msg, w'. split; [exact Hrun | exact Hheap].
Defined.

Lemma integer_argument_witness :
  exists w',
    roundtrip demo_to_string 0%nat (Py_Long (2 ^ 32 + 5)) demo_world
    = Some (PyOk (Py_Long 5), w')
    /\ convert_arg 0%nat (Py_Long (2 ^ 32 + 5)) demo_world
       = Some (JS_MKVAL JS_TAG_INT 5, demo_world).
Proof.
  destruct (integer_argument_is_cut_to_32_bits demo_to_string 0%nat (mkContextData 1 0 0)
              (2 ^ 32 + 5) demo_world eq_refl)
    as (w' & Hrun & Hconv & _).
  - unfold LONG_MIN, LONG_MAX. lia.
  - exists w'. split; [exact Hrun | exact Hconv].
Defined.

Lemma program_handles_witness :
  exists h : @Host unit, handles h = [demo_handle] /\ Forall handle_ok (handles h).
Proof.
  destruct reachable_demo as (h & Hreach & Hh & _).
  exists h. split; [exact Hh|].
  exact (program_handles_wrap_objects demo_eval demo_call demo_global demo_get_property
           demo_to_string demo_parse_s demo_parse_n _ h Hreach).
Defined.

Lemma demo_keeps_lifecycle :
  interpreter_keeps_lifecycle demo_eval demo_call demo_global demo_get_property.
Proof.
  assert (Hset : forall (e : Engine unit) ctx v,
            ctx ∈ dom (js_exception e) ->
            keeps_lifecycle e (mkEngine (js_heap e) (js_runtimes e)
                                         (<[ctx := v]> (js_exception e)) tt)).
  { intros e ctx v Hctx. split; [reflexivity|]. cbn [js_exception].
    rewrite dom_insert_L. apply subseteq_union_1_L. now apply singleton_subseteq_l. }
  split; [|split; [|split]].
  - intros e ctx code Hctx. unfold demo_eval.
    destruct (String.eqb code "throw 7"); [now apply Hset|].
    destruct (String.eqb code "({})"); [split; reflexivity | apply keeps_lifecycle_refl].
  - intros e ctx func_obj this_obj argv Hctx. unfold demo_call.
    destruct argv; [now apply Hset | apply keeps_lifecycle_refl].
  - intros e ctx Hctx. apply keeps_lifecycle_refl.
  - intros e ctx this_obj prop Hctx. unfold demo_get_property.
    destruct (String.eqb prop "boom"); [now apply Hset | apply keeps_lifecycle_refl].
Qed.

Lemma engine_contexts_witness :
  exists h : @Host unit,
    handles h = [demo_handle] /\ engine_tracks (mkEngine ∅ ∅ ∅ tt) (world h).
Proof.
  destruct reachable_demo as (h & Hreach & Hh & _).
  exists h. split; [exact Hh|].
  exact (engine_contexts_follow_contexts demo_eval demo_call demo_global demo_get_property
           demo_to_string demo_parse_s demo_parse_n _ h demo_keeps_lifecycle Hreach).
Defined.
